(** * The myth-extraction pipeline of [parse-data.js]

    A shallow embedding of the parser that turns the plain-text
    transcriptions of Schwartz's "Tree of Souls" and of the two volumes of
    Ginzberg's "Legends of the Jews" into myth records, followed by the
    properties of that pipeline.

    JavaScript strings are sequences of UTF-16 code units; they are modelled
    as lists of code units ([N]).  Regular expressions are embedded as the
    matching functions they denote; every pattern of the program is either a
    literal, a character-class run or a short sequence of those, so greedy
    matching never has to backtrack (the reason is given at each pattern). *)

From Stdlib Require Import String Ascii.
From Stdlib Require Import DecimalString.
From Stdlib Require Import List NArith Arith Bool Lia.
From Stdlib Require Import Permutation Sorting.Sorted.
Import ListNotations.

Local Open Scope N_scope.

(** ** Strings *)

Abbreviation char := N.
Abbreviation jsstring := (list N).

(** An ASCII literal of the program, as code units. *)
Definition js (s : string) : jsstring :=
  map N_of_ascii (list_ascii_of_string s).
Arguments js s%_string.

Fixpoint str_eqb (a b : jsstring) : bool :=
  match a, b with
  | [], [] => true
  | x :: a', y :: b' => (x =? y) && str_eqb a' b'
  | _, _ => false
  end.

(** [s.startsWith(p)], also the meaning of a literal pattern anchored
    at the current position. *)
Fixpoint starts_with (p s : jsstring) : bool :=
  match p, s with
  | [], _ => true
  | x :: p', y :: s' => (x =? y) && starts_with p' s'
  | _ :: _, [] => false
  end.

(** [s.includes(p)]. *)
Fixpoint includes (p s : jsstring) : bool :=
  starts_with p s ||
  match s with
  | [] => false
  | _ :: s' => includes p s'
  end.

Fixpoint take_while (f : char -> bool) (s : jsstring) : jsstring :=
  match s with
  | [] => []
  | c :: s' => if f c then c :: take_while f s' else []
  end.

Fixpoint drop_while (f : char -> bool) (s : jsstring) : jsstring :=
  match s with
  | [] => []
  | c :: s' => if f c then drop_while f s' else s
  end.

(** [s.split(sep)] for a one-character separator: the empty string splits
    into one empty piece. *)
Fixpoint split_on (sep : char) (s : jsstring) : list jsstring :=
  match s with
  | [] => [[]]
  | c :: s' =>
      if c =? sep then [] :: split_on sep s'
      else match split_on sep s' with
           | h :: t => (c :: h) :: t
           | [] => [[c]]
           end
  end.

(** [l.join(sep)]. *)
Fixpoint join (sep : jsstring) (l : list jsstring) : jsstring :=
  match l with
  | [] => []
  | [x] => x
  | x :: l' => x ++ sep ++ join sep l'
  end.

(** *** Character classes *)

Definition is_digit (c : char) : bool := (48 <=? c) && (c <=? 57).
Definition is_upper (c : char) : bool := (65 <=? c) && (c <=? 90).
Definition is_lower (c : char) : bool := (97 <=? c) && (c <=? 122).

(** [\s], which is also the set removed by [trim()]: ECMAScript WhiteSpace
    and LineTerminator. *)
Definition is_space (c : char) : bool :=
  ((9 <=? c) && (c <=? 13)) || (c =? 32) || (c =? 160) || (c =? 5760)
  || ((8192 <=? c) && (c <=? 8202)) || (c =? 8232) || (c =? 8233)
  || (c =? 8239) || (c =? 8287) || (c =? 12288) || (c =? 65279).

(** [.] of a regular expression without the [s] flag: anything but a line
    terminator. *)
Definition is_line_terminator (c : char) : bool :=
  (c =? 10) || (c =? 13) || (c =? 8232) || (c =? 8233).

(** Canonicalisation of a code unit for an [i]-flag match without the [u]
    flag.  Every pattern of the program is written in Basic Latin, and a code
    unit outside Basic Latin never canonicalises into it, so only the ASCII
    letters matter. *)
Definition canon (c : char) : char := if is_lower c then c - 32 else c.

Definition ci_eqb (a b : char) : bool := canon a =? canon b.

Fixpoint ci_starts_with (p s : jsstring) : bool :=
  match p, s with
  | [], _ => true
  | x :: p', y :: s' => ci_eqb x y && ci_starts_with p' s'
  | _ :: _, [] => false
  end.

Fixpoint ci_str_eqb (a b : jsstring) : bool :=
  match a, b with
  | [], [] => true
  | x :: a', y :: b' => ci_eqb x y && ci_str_eqb a' b'
  | _, _ => false
  end.

(** [s.trim()]. *)
Definition trim_start (s : jsstring) : jsstring := drop_while is_space s.
Definition trim_end (s : jsstring) : jsstring := rev (drop_while is_space (rev s)).
Definition trim (s : jsstring) : jsstring := trim_end (trim_start s).

(** *** Global replacement

    [s.replace(/re/g, rep)]: scan left to right; where the pattern matches,
    emit [rep] and resume after the match; elsewhere copy one code unit.  A
    pattern is given by [m], the length of its match at the start of a
    string.  No pattern of the program matches the empty string.  [skip]
    counts the code units of the current match still to be passed over. *)
Fixpoint replace_go (m : jsstring -> option nat) (rep : jsstring)
    (skip : nat) (s : jsstring) : jsstring :=
  match s with
  | [] => []
  | c :: s' =>
      match skip with
      | S k => replace_go m rep k s'
      | O =>
          match m s with
          | Some len => rep ++ replace_go m rep (pred len) s'
          | None => c :: replace_go m rep 0 s'
          end
      end
  end.

Definition replace_all (m : jsstring -> option nat) (rep s : jsstring) : jsstring :=
  replace_go m rep 0 s.

(** A literal pattern such as [/COD/]. *)
Definition lit (p : jsstring) (s : jsstring) : option nat :=
  if starts_with p s then Some (length p) else None.

(** A run of a character class, [[...]+], e.g. [/\s+/]. *)
Definition run_of (f : char -> bool) (s : jsstring) : option nat :=
  match take_while f s with
  | [] => None
  | r => Some (length r)
  end.

(** [/\\./]: a backslash followed by any code unit but a line terminator. *)
Definition backslash_any (s : jsstring) : option nat :=
  match s with
  | 92 :: c :: _ => if is_line_terminator c then None else Some 2%nat
  | _ => None
  end.

(** [/\[\d+\]/]: a bracketed footnote number. *)
Definition footnote_mark (s : jsstring) : option nat :=
  match s with
  | 91 :: s' =>
      match take_while is_digit s' with
      | [] => None
      | ds =>
          match drop_while is_digit s' with
          | 93 :: _ => Some (S (S (length ds)))
          | _ => None
          end
      end
  | _ => None
  end.

(** [s.replace(p, rep)] with a string pattern: the first occurrence only. *)
Fixpoint replace_first (p rep s : jsstring) : jsstring :=
  if starts_with p s then rep ++ skipn (length p) s
  else match s with
       | [] => []
       | c :: s' => c :: replace_first p rep s'
       end.

(** ** Text normalizer *)

(** The three replacements chained by [cleanText]:
    [/\r\n/g] to a line feed, [/\s+/g] to one space, [/- /g] to nothing. *)
Definition unix_newlines : jsstring -> jsstring := replace_all (lit [13; 10]) [10].
Definition collapse_spaces : jsstring -> jsstring := replace_all (run_of is_space) (js " ").
Definition unhyphenate : jsstring -> jsstring := replace_all (lit (js "- ")) [].

Definition cleanText (text : jsstring) : jsstring :=
  trim (unhyphenate (collapse_spaces (unix_newlines text))).

(** [t.replace(/p/g, q)] for a literal [p]. *)
Definition subst (p q : string) (t : jsstring) : jsstring :=
  replace_all (lit (js p)) (js q) t.
Arguments subst (p q)%_string t.

Definition fixOcrErrors (text : jsstring) : jsstring :=
  subst " toglorify " " to glorify "
    (subst " jvvhose " " whose "
       (subst "he aven" "heaven"
          (subst "th e " "the "
             (subst "cod" "god"
                (subst "6LORY" "GLORY"
                   (subst "CLORY" "GLORY"
                      (subst "600" "God"
                         (subst "6OD" "GOD"
                            (subst "COD" "GOD" text))))))))).

(** The slug of [generateId], from the lower-cased title:
    [.replace(/[^a-z0-9]+/g, '-').replace(/^-|-$/g, '')], that is, runs of
    other code units become one hyphen each, then a hyphen at the start and
    a hyphen at the end are dropped. *)
Definition generateId_slug (lower : jsstring) : jsstring :=
  let dashed := replace_all (run_of (fun c => negb (is_lower c || is_digit c))) (js "-") lower in
  let no_lead := match dashed with 45 :: r => r | _ => dashed end in
  match rev no_lead with
  | 45 :: r => rev r
  | _ => no_lead
  end.

(** ** Host string operations that depend on the Unicode tables

    [String.prototype.toUpperCase] and [toLowerCase] follow the Unicode
    case-mapping tables of the host.  The model is parameterised by them,
    so the universal statements below hold for whatever tables the host
    implements; [ascii_case] is their restriction to Basic Latin, exact on
    ASCII text, and is the instance used for concrete runs. *)

Class CaseMapping := {
  toUpperCase : jsstring -> jsstring;
  toLowerCase : jsstring -> jsstring
}.

Definition ascii_upper (c : char) : char := if is_lower c then c - 32 else c.
Definition ascii_lower (c : char) : char := if is_upper c then c + 32 else c.

Definition ascii_case : CaseMapping :=
  {| toUpperCase := map ascii_upper; toLowerCase := map ascii_lower |}.

(** ** Reference extractor and theme tagger *)

(** The alternatives of [BIBLICAL_PATTERN], in order.  [\\.] in the source
    list is an escaped, hence literal, full stop. *)
Definition BIBLICAL_BOOKS : list jsstring :=
  [ js "Genesis"; js "Exodus"; js "Leviticus"; js "Numbers"; js "Deuteronomy";
    js "Joshua"; js "Judges"; js "Ruth"; js "1 Samuel"; js "2 Samuel";
    js "1 Kings"; js "2 Kings"; js "1 Chronicles"; js "2 Chronicles";
    js "Ezra"; js "Nehemiah"; js "Esther"; js "Job"; js "Psalms";
    js "Proverbs"; js "Ecclesiastes"; js "Song of Songs"; js "Song of Solomon";
    js "Isaiah"; js "Jeremiah"; js "Lamentations"; js "Ezekiel"; js "Daniel";
    js "Hosea"; js "Joel"; js "Amos"; js "Obadiah"; js "Jonah"; js "Micah";
    js "Nahum"; js "Habakkuk"; js "Zephaniah"; js "Haggai"; js "Zechariah";
    js "Malachi";
    js "Bereishit"; js "Shemot"; js "Vayikra"; js "Bamidbar"; js "Devarim";
    js "Tehillim"; js "Mishlei"; js "Kohelet"; js "Shir HaShirim"; js "Iyov";
    js "Yeshayahu"; js "Yirmiyahu"; js "Yechezkel"; js "Daniyel";
    js "Isa."; js "Gen."; js "Exod."; js "Lev."; js "Num."; js "Deut.";
    js "Ezek."; js "Dan."; js "Ps."; js "Prov.";
    js "B."; js "Y."; js "Midrash"; js "Pirkei"; js "Zohar" ].

Definition THEME_KEYWORDS : list (jsstring * list jsstring) :=
  [ (js "creation", [js "creation"; js "created"; js "create"; js "formed";
       js "beginning"; js "origin"; js "genesis"; js "first day"]);
    (js "angels", [js "angel"; js "seraph"; js "cherub"; js "ophan";
       js "metatron"; js "sandalphon"; js "michael"; js "gabriel";
       js "raphael"; js "ministering"]);
    (js "demons", [js "demon"; js "satan"; js "lilith"; js "shedim";
       js "samael"; js "evil spirit"; js "azazel"; js "prince of darkness"]);
    (js "heaven", [js "heaven"; js "paradise"; js "throne"; js "celestial";
       js "firmament"; js "divine chariot"; js "merkavah"; js "heavenly"]);
    (js "hell", [js "hell"; js "gehenna"; js "gehinom"; js "underworld";
       js "punishment"; js "sheol"]);
    (js "messiah", [js "messiah"; js "redemption"; js "end of days";
       js "olam haba"; js "world to come"; js "messianic"]);
    (js "torah", [js "torah"; js "scripture"; js "law"; js "commandment";
       js "covenant"; js "revelation"; js "sinai"; js "tablets"]);
    (js "patriarchs", [js "abraham"; js "isaac"; js "jacob"; js "sarah";
       js "rebecca"; js "rachel"; js "leah"; js "patriarch"]);
    (js "moses", [js "moses"; js "pharaoh"; js "egypt"; js "plagues";
       js "red sea"; js "burning bush"; js "sinai"]);
    (js "adam-eve", [js "adam"; js "eve"; js "garden of eden"; js "eden";
       js "forbidden fruit"; js "tree of knowledge"; js "first man";
       js "first woman"]);
    (js "noah", [js "noah"; js "flood"; js "ark"; js "deluge"; js "rainbow"]);
    (js "mysticism", [js "kabbalah"; js "sefirot"; js "zohar"; js "mystical";
       js "meditation"; js "divine name"; js "secret"; js "hidden"]);
    (js "creatures", [js "leviathan"; js "behemoth"; js "ziz"; js "phoenix";
       js "golem"; js "dragon"; js "re'em"; js "monster"; js "beast"]);
    (js "soul", [js "soul"; js "neshama"; js "ruach"; js "nefesh"; js "spirit";
       js "afterlife"; js "reincarnation"; js "treasury of souls"]);
    (js "prophecy", [js "prophet"; js "prophecy"; js "vision"; js "dream";
       js "revelation"; js "seer"]);
    (js "temple", [js "temple"; js "tabernacle"; js "mishkan"; js "sanctuary";
       js "holy of holies"; js "ark of the covenant"]);
    (js "exile", [js "exile"; js "diaspora"; js "wandering"; js "scattered";
       js "captivity"; js "babylon"]);
    (js "holy-land", [js "jerusalem"; js "zion"; js "israel"; js "canaan";
       js "promised land"; js "holy land"]) ].

(** A JavaScript [Set] of strings: insertion-ordered, [add] of a member is a
    no-op.  [Array.from] of it is the underlying list. *)
Definition set_add (x : jsstring) (s : list jsstring) : list jsstring :=
  if existsb (str_eqb x) s then s else s ++ [x].

(** One [exec] of [BIBLICAL_PATTERN] anchored at the start of [s]: the
    captured groups 1 to 4 and the length of the whole match.  The first
    alternative that matches is taken and every later part of the pattern
    is optional, so each greedy choice stands. *)
Record RefMatch := {
  g_book : jsstring;
  g_chapter : option jsstring;
  g_verse : option jsstring;
  g_end : option jsstring;
  g_len : nat
}.

Definition capture (ds : jsstring) : option jsstring :=
  match ds with [] => None | _ => Some ds end.

Definition biblical_match (s : jsstring) : option RefMatch :=
  match find (fun b => ci_starts_with b s) BIBLICAL_BOOKS with
  | None => None
  | Some b =>
      let n1 := length b in
      let r1 := skipn n1 s in
      let ws := take_while is_space r1 in
      let r2 := drop_while is_space r1 in
      let d2 := take_while is_digit r2 in
      let r3 := drop_while is_digit r2 in
      let '(nsep, r4) :=
        match r3 with
        | c :: r => if (c =? 58) || (c =? 46) then (1%nat, r) else (0%nat, r3)
        | [] => (0%nat, r3)
        end in
      let d3 := take_while is_digit r4 in
      let r5 := drop_while is_digit r4 in
      let d4 :=
        match r5 with
        | c :: r => if (c =? 45) || (c =? 8211) then take_while is_digit r else []
        | [] => []
        end in
      let n4 := match d4 with [] => 0%nat | _ => S (length d4) end in
      Some {| g_book := firstn n1 s;
              g_chapter := capture d2;
              g_verse := capture d3;
              g_end := capture d4;
              g_len := (n1 + length ws + length d2 + nsep + length d3 + n4)%nat |}
  end.

(** The body of the [while] loop of [extractBiblicalReferences]. *)
Definition citation (m : RefMatch) : jsstring :=
  let ref := replace_all backslash_any [] (g_book m) in
  let ref :=
    match g_chapter m with
    | Some ch =>
        let ref := ref ++ js " " ++ ch in
        match g_verse m with
        | Some v =>
            let ref := ref ++ js ":" ++ v in
            match g_end m with
            | Some e => ref ++ js "-" ++ e
            | None => ref
            end
        | None => ref
        end
    | None => ref
    end in
  trim ref.

Fixpoint scan_references (skip : nat) (text : jsstring)
    (references : list jsstring) : list jsstring :=
  match text with
  | [] => references
  | _ :: text' =>
      match skip with
      | S k => scan_references k text' references
      | O =>
          match biblical_match text with
          | Some m => scan_references (pred (g_len m)) text' (set_add (citation m) references)
          | None => scan_references 0 text' references
          end
      end
  end.

Definition extractBiblicalReferences (text : jsstring) : list jsstring :=
  scan_references 0 text [].

Section Tagger.
Context {cm : CaseMapping}.

Definition extractThemes (text : jsstring) : list jsstring :=
  let lowerText := toLowerCase text in
  fold_left
    (fun themes (entry : jsstring * list jsstring) =>
       if existsb (fun keyword => includes keyword lowerText) (snd entry)
       then set_add (fst entry) themes
       else themes)
    THEME_KEYWORDS [].

Definition generateId (title source : jsstring) : jsstring :=
  firstn 80 (source ++ js "-" ++ generateId_slug (toLowerCase title)).

(** [s.split(' ').map(w => w.charAt(0) + w.slice(1).toLowerCase()).join(' ')] *)
Definition lowerTail (s : jsstring) : jsstring :=
  join (js " ")
    (map (fun w => firstn 1 w ++ toLowerCase (skipn 1 w)) (split_on 32 s)).

(** [s.split(' ').map(w => w.charAt(0).toUpperCase() + w.slice(1).toLowerCase()).join(' ')] *)
Definition capitalize (s : jsstring) : jsstring :=
  join (js " ")
    (map (fun w => toUpperCase (firstn 1 w) ++ toLowerCase (skipn 1 w)) (split_on 32 s)).

End Tagger.

(** ** Records *)

Record Myth := {
  id : jsstring;
  number : option N;
  title : jsstring;
  content : jsstring;
  commentary : jsstring;
  sources : list jsstring;
  book : jsstring;
  section : jsstring;
  sourceWork : jsstring;
  biblicalReferences : list jsstring;
  themes : list jsstring
}.

(** What the parsers write to the console, and the counts [main] reports
    after each of them; the banners and the closing summary of [main] are
    not modelled. *)
Inductive LogMsg :=
| WarnNoContentStart
| ContentStartsAt (line : nat)
| Found (count : nat).

(** [parseInt] of a run of decimal digits (exact; the host rounds beyond
    2^53). *)
Definition parseInt (ds : jsstring) : N :=
  fold_left (fun n c => 10 * n + (c - 48)) ds 0.

Definition is_empty (s : jsstring) : bool :=
  match s with [] => true | _ => false end.

Definition is_empty_list {A : Type} (l : list A) : bool :=
  match l with [] => true | _ => false end.

(** [/^\d+$/] *)
Definition digits_only (s : jsstring) : bool :=
  negb (is_empty s) && forallb is_digit s.

(** The driver of both segmenters' [for] loops: [step] handles the line at
    the current index given the lines after it, and says how many of those
    the body's assignment to [i] passes over. *)
Fixpoint run_lines {St : Type} (step : St -> jsstring -> list jsstring -> St * nat)
    (skip : nat) (st : St) (lines : list jsstring) : St :=
  match lines with
  | [] => st
  | l :: rest =>
      match skip with
      | S k => run_lines step k st rest
      | O => let '(st', skip') := step st l rest in run_lines step skip' st' rest
      end
  end.

(** ** Source-A segmenter: [parseSchwartzFile] *)

Module Schwartz.

Inductive Mode := Seeking | Content | Commentary | Sources | Skip.

Definition mode_eqb (a b : Mode) : bool :=
  match a, b with
  | Seeking, Seeking | Content, Content | Commentary, Commentary
  | Sources, Sources | Skip, Skip => true
  | _, _ => false
  end.

Record State := {
  myths : list Myth;
  currentBook : jsstring;
  currentSection : jsstring;
  currentMyth : option Myth;
  contentBuffer : list (Mode * jsstring);
  mode : Mode
}.

Definition init : State :=
  {| myths := []; currentBook := []; currentSection := []; currentMyth := None;
     contentBuffer := []; mode := Seeking |}.

(** [/^[ivxlc]+$/i] *)
Definition roman_letters_only (s : jsstring) : bool :=
  negb (is_empty s) &&
  forallb (fun c => existsb (ci_eqb c) (js "ivxlc")) s.

(** [/^\d+\s+MYTHS OF/]: the digits and the white space are taken greedily;
    a shorter run would leave a digit or a space where the next part of the
    pattern needs something else. *)
Definition running_header (s : jsstring) : bool :=
  negb (is_empty (take_while is_digit s)) &&
  let r := drop_while is_digit s in
  negb (is_empty (take_while is_space r)) &&
  starts_with (js "MYTHS OF") (drop_while is_space r).

(** The lines dropped as page furniture before anything else looks at them. *)
Definition is_noise (line : jsstring) : bool :=
  digits_only line || roman_letters_only line
  || starts_with (js "CONTENTS") line || running_header line.

Definition ORDINALS : list jsstring :=
  [js "ONE"; js "TWO"; js "THREE"; js "FOUR"; js "FIVE"; js "SIX"; js "SEVEN";
   js "EIGHT"; js "NINE"; js "TEN"].

(** [/^BOOK\s+(ONE|TWO|...|TEN)$/i]: no ordinal starts with white space, so
    the white space is all of the run after BOOK. *)
Definition is_book_header (line : jsstring) : bool :=
  ci_starts_with (js "BOOK") line &&
  let r := skipn 4 line in
  negb (is_empty (take_while is_space r)) &&
  existsb (fun w => ci_str_eqb w (drop_while is_space r)) ORDINALS.

(** [/^MYTHS\s+(OF|ABOUT)/i] *)
Definition is_book_subtitle (line : jsstring) : bool :=
  ci_starts_with (js "MYTHS") line &&
  let r := skipn 5 line in
  negb (is_empty (take_while is_space r)) &&
  (ci_starts_with (js "OF") (drop_while is_space r)
   || ci_starts_with (js "ABOUT") (drop_while is_space r)).

(** [/^\d+\./] *)
Definition numbered_prefix (line : jsstring) : bool :=
  negb (is_empty (take_while is_digit line)) &&
  starts_with (js ".") (drop_while is_digit line).

(** [/^BOOK\s+/] *)
Definition book_prefix (line : jsstring) : bool :=
  starts_with (js "BOOK") line &&
  negb (is_empty (take_while is_space (skipn 4 line))).

(** [[A-Z\s'',\-&?]] *)
Definition title_char (c : char) : bool :=
  is_upper c || is_space c || (c =? 39) || (c =? 44) || (c =? 45)
  || (c =? 38) || (c =? 63).

(** [/^(\d+)\.\s+([A-Z][A-Z\s'',\-&?]+)$/]: groups 1 and 2.  The digits
    end where the full stop must be and the white space ends where a capital
    must be, so both runs are taken whole; group 2 is the rest of the line,
    a capital and at least one more code unit of the class. *)
Definition myth_match (line : jsstring) : option (jsstring * jsstring) :=
  let ds := take_while is_digit line in
  match ds, drop_while is_digit line with
  | _ :: _, 46 :: r =>
      match take_while is_space r, drop_while is_space r with
      | _ :: _, c :: (_ :: _) as tl =>
          if is_upper c && forallb title_char tl then Some (ds, c :: tl) else None
      | _, _ => None
      end
  | _, _ => None
  end.

(** [/^Sources\s*:?\s*$/i] and [/^Studies\s*:?\s*$/i]: after the word,
    white space, at most one colon and white space must reach the end of
    the line. *)
Definition block_header (word : jsstring) (line : jsstring) : bool :=
  ci_starts_with word line &&
  let r := drop_while is_space (skipn (length word) line) in
  let r := match r with 58 :: r' => r' | _ => r end in
  is_empty (drop_while is_space r).

(** The alternatives of the lead-in pattern of the commentary heuristic,
    written out. *)
Definition LEAD_INS : list jsstring :=
  [js "This biblical"; js "This myth"; js "This passage"; js "This story";
   js "This legend"; js "This vision"; js "This account"; js "This text";
   js "This is";
   js "Here the"; js "Here God"; js "Here we";
   js "In this myth"; js "In this passage"; js "In this interpretation";
   js "According to"; js "One way of reading"; js "A close variant";
   js "The idea"; js "While"; js "So too"; js "Some say"; js "There are many"].

Definition has_lead_in (line : jsstring) : bool :=
  existsb (fun p => ci_starts_with p line) LEAD_INS.

(** The quotation mark U+0022. *)
Definition QUOTE : char := 34.

Definition totalContentLength (buf : list (Mode * jsstring)) : nat :=
  fold_left (fun sum l => (sum + length (snd l))%nat) buf 0%nat.

Definition isCommentaryStart (buf : list (Mode * jsstring)) (line : jsstring) : bool :=
  (300 <? totalContentLength buf)%nat &&
  has_lead_in line &&
  negb (includes [QUOTE] line) &&
  negb (includes [QUOTE] line) &&
  negb (includes (js "said") line) &&
  negb (includes (js "spoke") line).

Definition buffered (m : Mode) (buf : list (Mode * jsstring)) : jsstring :=
  join (js " ") (map snd (filter (fun l => mode_eqb (fst l) m) buf)).

Definition set_text (m : Myth) (c k : jsstring) : Myth :=
  {| id := id m; number := number m; title := title m;
     content := c; commentary := k;
     sources := sources m; book := book m; section := section m;
     sourceWork := sourceWork m;
     biblicalReferences := biblicalReferences m; themes := themes m |}.

Definition push_sources (m : Myth) (parts : list jsstring) : Myth :=
  {| id := id m; number := number m; title := title m;
     content := content m; commentary := commentary m;
     sources := sources m ++ parts; book := book m; section := section m;
     sourceWork := sourceWork m;
     biblicalReferences := biblicalReferences m; themes := themes m |}.

(** "Save current myth": the record in progress gets its two text fields
    and is kept when its content is longer than 50 code units. *)
Definition flush (st : State) : list Myth :=
  match currentMyth st with
  | None => myths st
  | Some m =>
      let m' := set_text m (buffered Content (contentBuffer st))
                           (buffered Commentary (contentBuffer st)) in
      if (50 <? length (content m'))%nat then myths st ++ [m'] else myths st
  end.

Definition with_mode (st : State) (m : Mode) : State :=
  {| myths := myths st; currentBook := currentBook st;
     currentSection := currentSection st; currentMyth := currentMyth st;
     contentBuffer := contentBuffer st; mode := m |}.

(** The last branch of the loop body: what an ordinary line does. *)
Definition buffer_line (st : State) (line : jsstring) : State :=
  match currentMyth st, mode st with
  | None, _ | _, Skip | _, Seeking => st
  | Some m, Sources =>
      let sourceParts :=
        filter (fun s => (2 <? length s)%nat)
          (map trim (split_on 44 (replace_all (lit (js ";")) (js ",") line))) in
      {| myths := myths st; currentBook := currentBook st;
         currentSection := currentSection st;
         currentMyth := Some (push_sources m sourceParts);
         contentBuffer := contentBuffer st; mode := Sources |}
  | Some m, md =>
      let md' :=
        if mode_eqb md Content && negb (is_empty_list (contentBuffer st))
           && isCommentaryStart (contentBuffer st) line
        then Commentary else md in
      {| myths := myths st; currentBook := currentBook st;
         currentSection := currentSection st; currentMyth := Some m;
         contentBuffer := contentBuffer st ++ [(md', line)]; mode := md' |}
  end.

(** The line index at which the search for the first book header begins. *)
Definition SEARCH_FROM : nat := N.to_nat 6000.

Section Segmenter.
Context {cm : CaseMapping}.

(** The search for the subtitle of a book in the three lines after its
    header: the index of the line found and the book label. *)
Fixpoint find_subtitle (n j : nat) (line : jsstring) (rest : list jsstring)
    : option (nat * jsstring) :=
  match n, rest with
  | S n', l :: rest' =>
      let nextLine := trim l in
      if negb (is_empty nextLine) && is_book_subtitle (fixOcrErrors nextLine)
      then Some (j, line ++ js ": " ++ lowerTail (fixOcrErrors nextLine))
      else find_subtitle n' (S j) line rest'
  | _, _ => None
  end.

Definition is_section_header (st : State) (line : jsstring) : bool :=
  str_eqb line (toUpperCase line) &&
  (5 <? length line)%nat && (length line <? 60)%nat &&
  negb (numbered_prefix line) &&
  negb (book_prefix line) &&
  negb (ci_starts_with (js "Sources") line) &&
  negb (ci_starts_with (js "Studies") line) &&
  negb (is_empty (currentBook st)).

Definition new_myth (st : State) (num ttl : jsstring) : Myth :=
  let title := lowerTail (trim ttl) in
  {| id := generateId title (js "schwartz");
     number := Some (parseInt num);
     title := title;
     content := [];
     commentary := [];
     sources := [];
     book := currentBook st;
     section := currentSection st;
     sourceWork := js "schwartz";
     biblicalReferences := [];
     themes := [] |}.

(** The body of the main loop at one line, given the lines that follow. *)
Definition step (st : State) (l : jsstring) (rest : list jsstring) : State * nat :=
  let line := trim l in
  if is_empty line then (st, 0%nat)
  else if is_noise line then (st, 0%nat)
  else
    let line := fixOcrErrors line in
    if is_book_header line then
      let '(label, skip) :=
        match find_subtitle 3 1 line rest with
        | Some (j, label) => (label, j)
        | None => (line, 0%nat)
        end in
      ({| myths := flush st; currentBook := label;
          currentSection := currentSection st; currentMyth := None;
          contentBuffer := []; mode := Seeking |}, skip)
    else if is_section_header st line then
      ({| myths := flush st; currentBook := currentBook st;
          currentSection := capitalize line; currentMyth := None;
          contentBuffer := []; mode := Seeking |}, 0%nat)
    else
      match myth_match line with
      | Some (num, ttl) =>
          ({| myths := flush st; currentBook := currentBook st;
              currentSection := currentSection st;
              currentMyth := Some (new_myth st num ttl);
              contentBuffer := []; mode := Content |}, 0%nat)
      | None =>
          if block_header (js "Sources") line then (with_mode st Sources, 0%nat)
          else if block_header (js "Studies") line then (with_mode st Skip, 0%nat)
          else (buffer_line st line, 0%nat)
      end.

(** The first index from 6000 on whose line is BOOK ONE, or 0. *)
Fixpoint find_book_one (i : nat) (lines : list jsstring) : nat :=
  match lines with
  | [] => 0%nat
  | l :: rest =>
      if str_eqb (trim l) (js "BOOK ONE") then i else find_book_one (S i) rest
  end.

Definition contentStart (lines : list jsstring) : nat :=
  find_book_one SEARCH_FROM (skipn SEARCH_FROM lines).

(** The records as the loop leaves them, before post-processing. *)
Definition drafts (lines : list jsstring) : list Myth :=
  flush (run_lines step 0 init (skipn (contentStart lines) lines)).

Definition finalize (myth : Myth) : Myth :=
  let fullText := title myth ++ js " " ++ content myth ++ js " " ++ commentary myth in
  {| id := id myth; number := number myth; title := title myth;
     content := cleanText (content myth);
     commentary := cleanText (commentary myth);
     sources := filter (fun s => (2 <? length s)%nat) (sources myth);
     book := book myth; section := section myth;
     sourceWork := sourceWork myth;
     biblicalReferences := extractBiblicalReferences fullText;
     themes := extractThemes fullText |}.

Definition parseSchwartzFile (content : jsstring) : list LogMsg * list Myth :=
  let lines := map trim (split_on 10 content) in
  if (contentStart lines =? 0)%nat then ([WarnNoContentStart], [])
  else ([ContentStartsAt (contentStart lines)], map finalize (drafts lines)).

End Segmenter.

End Schwartz.

(** ** Source-B segmenter: [parseGinzbergFile] *)

Module Ginzberg.

Record State := {
  myths : list Myth;
  currentChapter : jsstring;
  currentMyth : option Myth;
  contentBuffer : list jsstring
}.

Definition init : State :=
  {| myths := []; currentChapter := []; currentMyth := None; contentBuffer := [] |}.

(** The numerals [I{1,3}V?|VI{0,3}] can spell. *)
Definition ROMANS : list jsstring :=
  [js "I"; js "II"; js "III"; js "IV"; js "IIV"; js "IIIV";
   js "V"; js "VI"; js "VII"; js "VIII"].

(** [/^(I{1,3}V?|VI{0,3})\.?\s*$/]: one of the numerals, then an optional
    full stop and white space up to the end. *)
Definition romanPattern (line : jsstring) : bool :=
  existsb
    (fun r =>
       starts_with r line &&
       let t := skipn (length r) line in
       let t := match t with 46 :: t' => t' | _ => t end in
       is_empty (drop_while is_space t))
    ROMANS.

Definition set_content (m : Myth) (c : jsstring) : Myth :=
  {| id := id m; number := number m; title := title m;
     content := c; commentary := commentary m;
     sources := sources m; book := book m; section := section m;
     sourceWork := sourceWork m;
     biblicalReferences := biblicalReferences m; themes := themes m |}.

(** "Save current myth": kept when something was buffered and the joined
    content is longer than 100 code units. *)
Definition flush (st : State) : list Myth :=
  match currentMyth st, contentBuffer st with
  | Some m, _ :: _ =>
      let m' := set_content m (join (js " ") (contentBuffer st)) in
      if (100 <? length (content m'))%nat then myths st ++ [m'] else myths st
  | _, _ => myths st
  end.

(** The line index at which the search for the first chapter begins. *)
Definition SEARCH_FROM : nat := 400.

(** [`${volume}`] *)
Definition number_to_string (n : nat) : jsstring :=
  js (NilZero.string_of_uint (Nat.to_uint n)).

Section Segmenter.
Context {cm : CaseMapping}.

(** The search for the chapter title in the four lines after a numeral. *)
Fixpoint find_chapter_title (n j : nat) (roman : jsstring) (rest : list jsstring)
    : option (nat * jsstring) :=
  match n, rest with
  | S n', l :: rest' =>
      let nextLine := trim l in
      if negb (is_empty nextLine) && str_eqb nextLine (toUpperCase nextLine)
         && (3 <? length nextLine)%nat && negb (romanPattern nextLine)
      then Some (j, roman ++ js ". " ++ lowerTail nextLine)
      else find_chapter_title n' (S j) roman rest'
  | _, _ => None
  end.

Definition is_section_header (st : State) (line : jsstring) : bool :=
  str_eqb line (toUpperCase line) &&
  (5 <? length line)%nat && (length line <? 80)%nat &&
  negb (romanPattern line) &&
  negb (is_empty (currentChapter st)) &&
  negb (includes (js "***") line).

Definition new_myth (volume : nat) (st : State) (line : jsstring) : Myth :=
  let title := lowerTail line in
  {| id := generateId (js "v" ++ number_to_string volume ++ js "-" ++ title) (js "ginzberg");
     number := None;
     title := title;
     content := [];
     commentary := [];
     sources := [];
     book := currentChapter st;
     section := [];
     sourceWork := js "ginzberg-v" ++ number_to_string volume;
     biblicalReferences := [];
     themes := [] |}.

(** The body of the main loop at one line, given the lines that follow. *)
Definition step (volume : nat) (st : State) (l : jsstring) (rest : list jsstring)
    : State * nat :=
  let line := trim l in
  if is_empty line then (st, 0%nat)
  else if digits_only line then (st, 0%nat)
  else if romanPattern line then
    let roman := trim (replace_first (js ".") [] line) in
    let '(chapter, skip) :=
      match find_chapter_title 4 1 roman rest with
      | Some (j, label) => (label, j)
      | None => (currentChapter st, 0%nat)
      end in
    ({| myths := flush st; currentChapter := chapter; currentMyth := None;
        contentBuffer := [] |}, skip)
  else if is_section_header st line then
    ({| myths := flush st; currentChapter := currentChapter st;
        currentMyth := Some (new_myth volume st line);
        contentBuffer := [] |}, 0%nat)
  else
    match currentMyth st with
    | Some m =>
        let line := replace_all footnote_mark [] line in
        if is_empty line then (st, 0%nat)
        else ({| myths := myths st; currentChapter := currentChapter st;
                 currentMyth := Some m;
                 contentBuffer := contentBuffer st ++ [line] |}, 0%nat)
    | None => (st, 0%nat)
    end.

(** The search for the first chapter, from line [i] on: at a line "I" or
    "I." followed by a line naming the Creation or Joseph, that index; at a
    line that is one of the two opening titles, the index before it; 0 when
    the lines run out. *)
Fixpoint find_first_chapter (i : nat) (lines : list jsstring) : nat :=
  match lines with
  | [] => 0%nat
  | l :: rest =>
      let line := trim l in
      let marked :=
        (str_eqb line (js "I") || str_eqb line (js "I.")) &&
        match rest with
        | l' :: _ =>
            let nextLine := toUpperCase (trim l') in
            negb (is_empty nextLine) &&
            (includes (js "CREATION") nextLine || includes (js "JOSEPH") nextLine)
        | [] => false
        end in
      if marked then i
      else if str_eqb line (js "THE CREATION OF THE WORLD") || str_eqb line (js "JOSEPH")
      then (i - 1)%nat
      else find_first_chapter (S i) rest
  end.

Definition contentStart (lines : list jsstring) : nat :=
  find_first_chapter SEARCH_FROM (skipn SEARCH_FROM lines).

(** The records as the loop leaves them, before post-processing. *)
Definition drafts (volume : nat) (lines : list jsstring) : list Myth :=
  flush (run_lines (step volume) 0 init (skipn (contentStart lines) lines)).

Definition finalize (myth : Myth) : Myth :=
  {| id := id myth; number := number myth; title := title myth;
     content := cleanText (content myth);
     commentary := commentary myth;
     sources := sources myth;
     book := book myth; section := section myth;
     sourceWork := sourceWork myth;
     biblicalReferences := extractBiblicalReferences (content myth);
     themes := extractThemes (content myth) |}.

Definition parseGinzbergFile (content : jsstring) (volume : nat)
    : list LogMsg * list Myth :=
  let lines := map trim (split_on 10 content) in
  ([ContentStartsAt (contentStart lines)], map finalize (drafts volume lines)).

End Segmenter.

End Ginzberg.

(** ** Corpus aggregator: [main] *)

(** A JavaScript object used as a counter table.  Its own keys are kept in
    insertion order, which is the order [Object.keys] lists them in (none
    of the keys the program inserts is an array index). *)
Definition Counts := list (jsstring * nat).

(** [o[k] = (o[k] || 0) + 1] *)
Fixpoint bump (k : jsstring) (o : Counts) : Counts :=
  match o with
  | [] => [(k, 1%nat)]
  | (k', n) :: o' =>
      if str_eqb k k' then (k', S n) :: o' else (k', n) :: bump k o'
  end.

(** [o[k]], with 0 standing for an absent key. *)
Fixpoint lookup (k : jsstring) (o : Counts) : nat :=
  match o with
  | [] => 0%nat
  | (k', n) :: o' => if str_eqb k k' then n else lookup k o'
  end.

Definition keys (o : Counts) : list jsstring := map fst o.

(** The body of [allMyths.forEach]. *)
Definition count_myth (stats : Counts * Counts) (myth : Myth) : Counts * Counts :=
  (fold_left (fun t theme => bump theme t) (themes myth) (fst stats),
   if is_empty (book myth) then snd stats else bump (book myth) (snd stats)).

Definition tally (allMyths : list Myth) : Counts * Counts :=
  fold_left count_myth allMyths ([], []).

(** [Array.prototype.sort]: a stable sort by the order [le]. *)
Fixpoint insert_by {A : Type} (le : A -> A -> bool) (x : A) (l : list A) : list A :=
  match l with
  | [] => [x]
  | y :: l' => if le x y then x :: l else y :: insert_by le x l'
  end.

Definition sort_by {A : Type} (le : A -> A -> bool) (l : list A) : list A :=
  fold_right (insert_by le) [] l.

(** The default order of [sort()]: strings compared by code units. *)
Fixpoint str_leb (a b : jsstring) : bool :=
  match a, b with
  | [], _ => true
  | _ :: _, [] => false
  | x :: a', y :: b' => (x <? y) || ((x =? y) && str_leb a' b')
  end.

(** [(a, b) => stats.themes[b] - stats.themes[a]] is not positive. *)
Definition by_count_desc (t : Counts) (a b : jsstring) : bool :=
  (lookup b t <=? lookup a t)%nat.

Module Stats.
Record t := {
  total : nat;
  bySources : Counts;
  themes : Counts;
  books : Counts
}.
End Stats.

Module FilterOptions.
Record t := {
  sources : list jsstring;
  themes : list jsstring;
  books : list jsstring
}.
End FilterOptions.

Record Metadata := {
  generated : jsstring;
  version : jsstring;
  stats : Stats.t;
  filterOptions : FilterOptions.t
}.

Record Database := {
  metadata : Metadata;
  myths : list Myth
}.

Definition assemble (now : jsstring) (schwartzMyths ginzberg1Myths ginzberg2Myths : list Myth)
    : Database :=
  let allMyths := schwartzMyths ++ ginzberg1Myths ++ ginzberg2Myths in
  let counted := tally allMyths in
  let stats :=
    {| Stats.total := length allMyths;
       Stats.bySources :=
         [(js "schwartz", length schwartzMyths);
          (js "ginzberg-v1", length ginzberg1Myths);
          (js "ginzberg-v2", length ginzberg2Myths)];
       Stats.themes := fst counted;
       Stats.books := snd counted |} in
  let filterOptions :=
    {| FilterOptions.sources := [js "schwartz"; js "ginzberg-v1"; js "ginzberg-v2"];
       FilterOptions.themes :=
         sort_by (by_count_desc (Stats.themes stats)) (keys (Stats.themes stats));
       FilterOptions.books := sort_by str_leb (keys (Stats.books stats)) |} in
  {| metadata :=
       {| generated := now; version := js "1.0.0";
          stats := stats; filterOptions := filterOptions |};
     myths := allMyths |}.

Section Main.
Context {cm : CaseMapping}.

(** [main], given the three files' contents and the time of the run: what
    is logged while parsing, and the database that is written. *)
Definition main (now schwartzContent ginzberg1Content ginzberg2Content : jsstring)
    : list LogMsg * Database :=
  let '(log0, schwartzMyths) := Schwartz.parseSchwartzFile schwartzContent in
  let '(log1, ginzberg1Myths) := Ginzberg.parseGinzbergFile ginzberg1Content 1 in
  let '(log2, ginzberg2Myths) := Ginzberg.parseGinzbergFile ginzberg2Content 2 in
  (log0 ++ [Found (length schwartzMyths)]
     ++ log1 ++ [Found (length ginzberg1Myths)]
     ++ log2 ++ [Found (length ginzberg2Myths)],
   assemble now schwartzMyths ginzberg1Myths ginzberg2Myths).

End Main.

(** * Vocabulary of the statements *)

(** ** The shape of cleaned text *)

(** The head of a string is not white space. *)
Definition head_solid (s : jsstring) : bool :=
  match s with
  | [] => true
  | d :: _ => negb (is_space d)
  end.

(** All white space in the string is single U+0020 characters, none of them
    right before another white space. *)
Fixpoint tidy (s : jsstring) : bool :=
  match s with
  | [] => true
  | c :: r => (if is_space c then (c =? 32) && head_solid r else true) && tidy r
  end.

(** No letter M, of either case. *)
Definition no_m (s : jsstring) : bool := forallb (fun c => negb (ci_eqb 77 c)) s.

(** ** Annotations *)

(** The identifiers of the taxonomy. *)
Definition THEMES : list jsstring := map fst THEME_KEYWORDS.

(** The good properties of the two annotation lists of a record. *)
Definition annotations_ok (m : Myth) : Prop :=
  NoDup (themes m) /\ NoDup (biblicalReferences m) /\ incl (themes m) THEMES.

(** ** Counter tables *)

(** A counter table lists each key once, and lists exactly the keys whose
    count is not zero. *)
Definition table_ok (o : Counts) : Prop :=
  NoDup (keys o) /\ forall k, In k (keys o) <-> (0 < lookup k o)%nat.

(** ** The loops *)

(** The state of the loop after its first [n] lines (skipped ones included);
    the body still sees all the lines that follow. *)
Fixpoint run_upto {St : Type} (step : St -> jsstring -> list jsstring -> St * nat)
    (n skip : nat) (st : St) (lines : list jsstring) : St :=
  match n, lines with
  | S n', l :: rest =>
      match skip with
      | S k => run_upto step n' k st rest
      | O => let '(st', skip') := step st l rest in run_upto step n' skip' st' rest
      end
  | _, _ => st
  end.

(** The lines at which the body of the loop runs among the first [n] lines:
    those the assignments to [i] do not pass over. *)
Fixpoint visited_upto {St : Type} (step : St -> jsstring -> list jsstring -> St * nat)
    (n skip : nat) (st : St) (lines : list jsstring) : list jsstring :=
  match n, lines with
  | S n', l :: rest =>
      match skip with
      | S k => visited_upto step n' k st rest
      | O => let '(st', skip') := step st l rest in
             l :: visited_upto step n' skip' st' rest
      end
  | _, _ => []
  end.

Definition visited {St : Type} (step : St -> jsstring -> list jsstring -> St * nat)
    (skip : nat) (st : St) (lines : list jsstring) : list jsstring :=
  visited_upto step (length lines) skip st lines.

(** Two lists of lines agree under a test, line by line. *)
Fixpoint lines_agree (r : jsstring -> jsstring -> bool) (ls ls' : list jsstring) : bool :=
  match ls, ls' with
  | [], [] => true
  | x :: ls, y :: ls' => r x y && lines_agree r ls ls'
  | _, _ => false
  end.

(** [m] is what post-processing makes of a draft of [ds] whose content is
    longer than [min]. *)
Definition from_draft (finalize : Myth -> Myth) (min : nat) (tag : jsstring)
    (ds : list Myth) (m : Myth) : Prop :=
  exists d, In d ds /\ m = finalize d /\
            content m = cleanText (content d) /\
            (min < length (content d))%nat /\ sourceWork m = tag.

Module SchwartzSpec.
Import Schwartz.

(** A kept draft: long enough, and tagged with its source. *)
Definition schwartz_kept (d : Myth) : Prop :=
  (50 < length (content d))%nat /\ sourceWork d = js "schwartz".

Definition schwartz_state_ok (st : State) : Prop :=
  Forall schwartz_kept (Schwartz.myths st) /\
  forall m, currentMyth st = Some m -> sourceWork m = js "schwartz".

(** The condition of the commentary heuristic, on the lengths of the
    buffered lines. *)
Definition commentary_trigger (buf : list (Mode * jsstring)) (line : jsstring) : Prop :=
  (300 < list_sum (map (fun e => length (snd e)) buf))%nat /\
  has_lead_in line = true /\
  includes [QUOTE] line = false /\
  includes (js "said") line = false /\
  includes (js "spoke") line = false.

(** A buffer in which no content line follows a commentary line. *)
Definition phased (buf : list (Mode * jsstring)) : Prop :=
  exists xs ys, buf = map (pair Content) xs ++ map (pair Commentary) ys.

Definition buffer_ok (st : State) : Prop :=
  phased (contentBuffer st) /\
  (mode st = Content -> Forall (fun e => fst e = Content) (contentBuffer st)).

(** The records kept so far beyond [old], and the record in progress, carry
    the section label [s0], which is still the current one. *)
Definition carries (s0 : jsstring) (old : list Myth) (st : State) : Prop :=
  currentSection st = s0 /\
  (forall m, currentMyth st = Some m -> section m = s0) /\
  (forall m, In m (Schwartz.myths st) -> In m old \/ section m = s0).

(** A line of digits only, or of the letters i, v, x, l, c only. *)
Definition page_number (line : jsstring) : bool :=
  digits_only line || roman_letters_only line.

(** Two lines that are the same unless the first is a page number and the
    second is blank. *)
Definition same_but_page_numbers (x y : jsstring) : Prop :=
  x = y \/ (page_number (trim x) = true /\ trim y = []).

(** The same as a test. *)
Definition page_number_blanked (x y : jsstring) : bool :=
  str_eqb x y || (page_number (trim x) && is_empty (trim y)).

(** The lines of a document as the loop of the segmenter sees them after
    [fixOcrErrors]. *)
Definition fixed_lines (content : jsstring) : list jsstring :=
  map (fun l => fixOcrErrors (trim l)) (map trim (split_on 10 content)).

Section Vocabulary.
Context {cm : CaseMapping}.

(** The part of the test for a section header that looks at the line alone. *)
Definition section_like (line : jsstring) : bool :=
  str_eqb line (toUpperCase line) &&
  (5 <? length line)%nat && (length line <? 60)%nat &&
  negb (numbered_prefix line) &&
  negb (book_prefix line) &&
  negb (ci_starts_with (js "Sources") line) &&
  negb (ci_starts_with (js "Studies") line).

(** A line the loop body takes as a section header once a book label is
    set: not blank, not page furniture, not a book header, and passing the
    tests of a section header. *)
Definition reads_as_section (l : jsstring) : bool :=
  negb (is_empty (trim l)) && negb (is_noise (trim l)) &&
  negb (is_book_header (fixOcrErrors (trim l))) &&
  section_like (fixOcrErrors (trim l)).

(** A line the search after a book header takes as the subtitle. *)
Definition subtitle_line (l : jsstring) : bool :=
  negb (is_empty (trim l)) && is_book_subtitle (fixOcrErrors (trim l)).

(** The book label and the number of lines passed over after the header
    [line] followed by [rest]: the first subtitle among the next three
    lines is absorbed, or there is none. *)
Definition book_label_after (line : jsstring) (rest : list jsstring)
    (label : jsstring) (skip : nat) : Prop :=
  (exists j l', (j < 3)%nat /\ nth_error rest j = Some l' /\ subtitle_line l' = true /\
     Forall (fun x => subtitle_line x = false) (firstn j rest) /\
     label = line ++ js ": " ++ lowerTail (fixOcrErrors (trim l')) /\ skip = S j) \/
  (Forall (fun x => subtitle_line x = false) (firstn 3 rest) /\ label = line /\ skip = 0%nat).

(** A line of text for the state [st]: the loop body takes none of the
    branches before the one that buffers. *)
Definition text_line (st : State) (l : jsstring) : Prop :=
  is_empty (trim l) = false /\ is_noise (trim l) = false /\
  is_book_header (fixOcrErrors (trim l)) = false /\
  is_section_header st (fixOcrErrors (trim l)) = false /\
  myth_match (fixOcrErrors (trim l)) = None /\
  block_header (js "Sources") (fixOcrErrors (trim l)) = false /\
  block_header (js "Studies") (fixOcrErrors (trim l)) = false.

(** Where the fields of a record come from, [F] being the lines of the
    document after [trim] and [fixOcrErrors]. *)
Definition book_from (F : list jsstring) (b : jsstring) : Prop :=
  b = [] \/
  exists t, In t F /\
    (b = t \/ exists t', In t' F /\ b = t ++ js ": " ++ lowerTail t').

Definition section_from (F : list jsstring) (s : jsstring) : Prop :=
  s = [] \/ exists t, In t F /\ s = capitalize t.

Definition title_from (F : list jsstring) (ttl : jsstring) : Prop :=
  exists t num g, In t F /\ myth_match t = Some (num, g) /\ ttl = lowerTail (trim g).

Definition heading_from (F : list jsstring) (m : Myth) : Prop :=
  title_from F (title m) /\ book_from F (book m) /\ section_from F (section m).

Definition text_from (F : list jsstring) (s : jsstring) : Prop :=
  exists ts, incl ts F /\ s = join (js " ") ts.

Definition draft_from (F : list jsstring) (m : Myth) : Prop :=
  heading_from F m /\ text_from F (content m) /\ text_from F (commentary m).

Definition origins_ok (F : list jsstring) (st : State) : Prop :=
  Forall (draft_from F) (Schwartz.myths st) /\
  book_from F (currentBook st) /\
  section_from F (currentSection st) /\
  (forall m, currentMyth st = Some m -> heading_from F m) /\
  (forall e, In e (contentBuffer st) -> In (snd e) F).

Definition fixed_in (F : list jsstring) (l : jsstring) : Prop :=
  In (fixOcrErrors (trim l)) F.

(** A record of the output whose title, book label, section label, content
    and commentary are made of lines that went through [fixOcrErrors]. *)
Definition made_of_fixed_lines (F : list jsstring) (m : Myth) : Prop :=
  title_from F (title m) /\ book_from F (book m) /\ section_from F (section m) /\
  (exists ts, incl ts F /\ content m = cleanText (join (js " ") ts)) /\
  (exists ts, incl ts F /\ commentary m = cleanText (join (js " ") ts)).

End Vocabulary.

End SchwartzSpec.

Module GinzbergSpec.
Import Ginzberg.

(** A kept draft of volume [volume]: long enough, and tagged with its
    source. *)
Definition ginzberg_kept (volume : nat) (d : Myth) : Prop :=
  (100 < length (content d))%nat /\
  sourceWork d = js "ginzberg-v" ++ number_to_string volume.

Definition ginzberg_state_ok (volume : nat) (st : State) : Prop :=
  Forall (ginzberg_kept volume) (Ginzberg.myths st) /\
  forall m, currentMyth st = Some m ->
            sourceWork m = js "ginzberg-v" ++ number_to_string volume.

(** The lines of a document, trimmed, that are not made of digits only. *)
Definition text_lines (document : jsstring) : list jsstring :=
  filter (fun l => negb (digits_only l)) (map trim (map trim (split_on 10 document))).

(** A line that is in [G] unless it is made of digits only. *)
Definition kept_line (G : list jsstring) (l : jsstring) : Prop :=
  digits_only (trim l) = false -> In (trim l) G.

(** A buffered line: a line of [G] without its footnote marks. *)
Definition piece_from (G : list jsstring) (x : jsstring) : Prop :=
  exists t, In t G /\ x = replace_all footnote_mark [] t.

Section Vocabulary.
Context {cm : CaseMapping}.

Definition section_title_from (G : list jsstring) (m : Myth) : Prop :=
  exists t, In t G /\ title m = lowerTail t.

Definition pieces_ok (G : list jsstring) (st : State) : Prop :=
  Forall (fun m => section_title_from G m /\
                   exists ts, Forall (piece_from G) ts /\ content m = join (js " ") ts)
         (Ginzberg.myths st) /\
  (forall m, currentMyth st = Some m -> section_title_from G m) /\
  Forall (piece_from G) (contentBuffer st).

(** A record of the output whose title and whose content are made of lines
    of [G]. *)
Definition made_of_text_lines (G : list jsstring) (m : Myth) : Prop :=
  section_title_from G m /\
  exists ts, Forall (piece_from G) ts /\ content m = cleanText (join (js " ") ts).

End Vocabulary.

End GinzbergSpec.

(** ** Documents and states used as examples *)

(** [n] empty lines, as the front matter of a document. *)
Definition blank_lines (n : N) : jsstring := repeat 10 (N.to_nat n).

(** A Source-A record whose only content line has a long run of blanks in
    the middle: 62 code units when the record is kept, 3 after [cleanText]. *)
Definition sparse_document : jsstring :=
  blank_lines 6000 ++ js "BOOK ONE" ++ [10] ++ js "1. THE VOID" ++ [10]
    ++ js "a" ++ repeat 32 60 ++ js "b".

(** A section of the first book, then the second book and a myth of it. *)
Definition two_books : jsstring :=
  blank_lines 6000 ++ js "BOOK ONE" ++ [10] ++ js "THE HIDDEN LIGHT" ++ [10]
    ++ js "BOOK TWO" ++ [10] ++ js "1. THE SEVEN HEAVENS" ++ [10]
    ++ js "There are seven heavens, one above the other, and each of them has a name of its own.".

(** The state after the first two lines of [two_books]. *)
Definition after_first_section : Schwartz.State :=
  {| Schwartz.myths := []; Schwartz.currentBook := js "BOOK ONE";
     Schwartz.currentSection := js "The Hidden Light"; Schwartz.currentMyth := None;
     Schwartz.contentBuffer := []; Schwartz.mode := Schwartz.Seeking |}.

(** A record in progress with 320 code units of content buffered. *)
Definition long_record : Schwartz.State :=
  {| Schwartz.myths := []; Schwartz.currentBook := js "BOOK ONE";
     Schwartz.currentSection := [];
     Schwartz.currentMyth :=
       Some (@Schwartz.new_myth ascii_case Schwartz.init (js "1") (js "THE FIRST LIGHT"));
     Schwartz.contentBuffer := [(Schwartz.Content, repeat 97 320)];
     Schwartz.mode := Schwartz.Content |}.

(** A Source-B document with no chapter marker from line 400 on (it has
    five lines). *)
Definition unmarked_document : jsstring :=
  js "I" ++ [10] ++ js "EARLY TIMES" ++ [10] ++ js "THE FIRST SECTION" ++ [10]
    ++ js "In the first of the days that are told of in this book there was as yet no one to tell of them, and so the tale begins late." ++ [10].

(** A Source-B chapter whose numeral is followed by a line of digits and
    whose first section has a lower-case numeral line in its text. *)
Definition numbered_pages : jsstring :=
  js "I" ++ [10] ++ js "1234" ++ [10] ++ js "THE FIRST THINGS CREATED" ++ [10]
    ++ js "In the beginning, two thousand years before the heaven and the earth, seven things were created." ++ [10]
    ++ js "xiv" ++ [10]
    ++ js "The Torah was written with black fire on white fire." ++ [10].

(** A Source-B section with a misread word in its text. *)
Definition misread_document : jsstring :=
  js "I" ++ [10] ++ js "THE CREATION OF THE WORLD" ++ [10] ++ js "THE FIRST THINGS CREATED" ++ [10]
    ++ js "In the beginning COD created the heaven and the earth, and the earth was without form, and void, and dark." ++ [10].

(** ** More documents and states used as examples *)

(** The lines that follow the header BOOK TWO in a document whose books
    have subtitles: a subtitle, a page number, a record, and a third book
    with its subtitle and a record. *)
Definition second_book_lines : list jsstring :=
  [js "MYTHS OF HEAVEN"; js "12"; js "1. THE SEVEN HEAVENS";
   js "There are seven heavens, one above the other, and each of them has a name of its own.";
   js "BOOK THREE"; js "MYTHS ABOUT CREATION"; js "2. THE FIRST LIGHT";
   js "The light of the first day was hidden away for the righteous in the time to come."].

(** The lines of a book with one record: three lines of content, more than
    300 code units in all, a line that starts with a lead-in phrase, and one
    more line. *)
Definition commentary_lines : list jsstring :=
  [js "BOOK ONE"; js "1. THE FIRST LIGHT";
   js "In the beginning the Holy One wrapped Himself in a garment of light, and the light of that garment shone from one end of the world to the other.";
   js "That light was not the light of the sun or of the moon, for those were not made until the fourth day, but a light that was made on the first.";
   js "And when the Holy One saw the deeds of the generations to come, He hid that light away for the righteous in the time that is to come.";
   js "This myth tells of the light of the first day.";
   js "While the sages differ about where it was hidden, all agree that it was hidden."].

(** A Source-A document made of these lines. *)
Definition commentary_document : jsstring :=
  blank_lines 6000 ++ join [10] commentary_lines.

(** A Source-A document with page numbers before the start marker, between
    a book header and its subtitle, and inside a record; and the same
    document with blank lines in their place. *)
Definition paged_document : jsstring :=
  blank_lines 6000 ++
  join [10]
    [js "12"; js "BOOK ONE"; js " xiv "; js "MYTHS OF GOD"; js "1. THE VOID"; js "XIV";
     js "Before the world was made there was nothing but the void, and the void had no end.";
     js "345";
     js "Then a point of light broke through the void."].

Definition unpaged_document : jsstring :=
  blank_lines 6000 ++
  join [10]
    [[]; js "BOOK ONE"; js "  "; js "MYTHS OF GOD"; js "1. THE VOID"; [];
     js "Before the world was made there was nothing but the void, and the void had no end.";
     [];
     js "Then a point of light broke through the void."].

(** The same with a contents line and running headers as the furniture. *)
Definition furnished_document : jsstring :=
  blank_lines 6000 ++
  join [10]
    [js "CONTENTS"; js "BOOK ONE"; js "14 MYTHS OF GOD"; js "MYTHS OF GOD"; js "1. THE VOID";
     js "CONTENTS OF THE VOID";
     js "Before the world was made there was nothing but the void, and the void had no end.";
     js "15  MYTHS OF GOD";
     js "Then a point of light broke through the void."].

(** The state of the Source-B loop in the first section of a chapter, with
    one line of text buffered. *)
Definition open_section : Ginzberg.State :=
  run_lines (@Ginzberg.step ascii_case 1) 0 Ginzberg.init
    [js "I"; js "THE CREATION OF THE WORLD"; js "THE FIRST THINGS CREATED";
     js "In the beginning, two thousand years before the heaven and the earth, seven things were created."].

(** ** More vocabulary: the text normalizer and the slugs *)

(** The patterns of [fixOcrErrors], in the order it applies them. *)
Definition OCR_PATTERNS : list jsstring :=
  [js "COD"; js "6OD"; js "600"; js "CLORY"; js "6LORY"; js "cod";
   js "th e "; js "he aven"; js " jvvhose "; js " toglorify "].

(** The misread words among them: the patterns no later replacement can
    bring back. *)
Definition OCR_MISREADS : list jsstring :=
  [js "COD"; js "6OD"; js "600"; js "CLORY"; js "6LORY"; js "cod"].

(** Replacing by [rep] can neither leave nor make an occurrence of [p]: the
    first code unit of [p] is not in [rep], and [rep] is not empty and does
    not start with a later code unit of [p]. *)
Definition cannot_make (p rep : jsstring) : bool :=
  match p, rep with
  | a :: t, r0 :: _ =>
      forallb (fun x => negb (x =? a)) rep && forallb (fun x => negb (x =? r0)) t
  | _, _ => false
  end.

(** [[a-z0-9]], the code units a slug keeps. *)
Definition is_alnum (c : char) : bool := is_lower c || is_digit c.

(** The code units a slug replaces by hyphens. *)
Definition not_alnum (c : char) : bool := negb (is_lower c || is_digit c).

Definition head_alnum (s : jsstring) : bool :=
  match s with
  | [] => true
  | c :: _ => is_alnum c
  end.

(** Every code unit is kept or is a hyphen, and a hyphen is followed by a
    kept one if by anything. *)
Fixpoint dashed_ok (s : jsstring) : bool :=
  match s with
  | [] => true
  | c :: r => (if is_alnum c then true else (c =? 45) && head_alnum r) && dashed_ok r
  end.

(** ** More vocabulary: the annotators *)

(** A suffix of a text starts with a book name, whatever the case. *)
Definition mentions_book (s : jsstring) : bool :=
  existsb (fun b => ci_starts_with b s) BIBLICAL_BOOKS.

(** ** More vocabulary: the records of the two segmenters *)

Module SchwartzRecords.
Import Schwartz.

(** An entry of the sources of a record: more than two code units, no
    comma, no semicolon, no white space at either end. *)
Definition source_entry (s : jsstring) : Prop :=
  (2 < length s)%nat /\ ~ In 44 s /\ ~ In 59 s /\
  head_solid s = true /\ head_solid (rev s) = true.

(** The modes in which nothing is buffered. *)
Definition closed_mode (m : Mode) : Prop := m = Seeking \/ m = Sources \/ m = Skip.

Section Vocabulary.
Context {cm : CaseMapping}.

(** What every record of Source-A is like. *)
Definition schwartz_record (m : Myth) : Prop :=
  (exists n, number m = Some n) /\
  sourceWork m = js "schwartz" /\
  id m = generateId (title m) (js "schwartz") /\
  ci_starts_with (js "BOOK") (book m) = true /\
  Forall source_entry (sources m).

Definition records_ok (st : State) : Prop :=
  ci_starts_with (js "BOOK") (currentBook st) = true /\
  Forall schwartz_record (Schwartz.myths st) /\
  (forall m, currentMyth st = Some m -> schwartz_record m).

(** A line that is none of the headers the loop reacts to in the state
    [st]. *)
Definition plain_line (st : State) (l : jsstring) : Prop :=
  let line := fixOcrErrors (trim l) in
  is_book_header line = false /\ is_section_header st line = false /\
  myth_match line = None /\ block_header (js "Sources") line = false.

(** A line that does not start a record. *)
Definition no_title (l : jsstring) : Prop :=
  myth_match (fixOcrErrors (trim l)) = None.

End Vocabulary.

(** Two lines that are the same unless the first is page furniture and the
    second is blank. *)
Definition same_but_noise (x y : jsstring) : Prop :=
  x = y \/ (is_noise (trim x) = true /\ trim y = []).

(** The same as a test. *)
Definition noise_blanked (x y : jsstring) : bool :=
  str_eqb x y || (is_noise (trim x) && is_empty (trim y)).

(** The first code unit of a text is not a letter M. *)
Definition head_no_m (s : jsstring) : bool :=
  match s with
  | [] => true
  | c :: _ => negb (ci_eqb 77 c)
  end.

End SchwartzRecords.

Module GinzbergRecords.
Import Ginzberg.

Section Vocabulary.
Context {cm : CaseMapping}.

(** A chapter label: a numeral, a full stop, a space and a title. *)
Definition chapter_label (b : jsstring) : Prop :=
  exists r t, In r ROMANS /\ b = r ++ js ". " ++ lowerTail t.

(** What every record of Source-B is like. *)
Definition ginzberg_record (volume : nat) (m : Myth) : Prop :=
  number m = None /\ section m = [] /\ commentary m = [] /\ sources m = [] /\
  sourceWork m = js "ginzberg-v" ++ number_to_string volume /\
  id m = generateId (js "v" ++ number_to_string volume ++ js "-" ++ title m) (js "ginzberg") /\
  chapter_label (book m).

Definition chapters_ok (volume : nat) (st : State) : Prop :=
  (currentChapter st = [] \/ chapter_label (currentChapter st)) /\
  Forall (ginzberg_record volume) (Ginzberg.myths st) /\
  (forall m, currentMyth st = Some m -> ginzberg_record volume m).

End Vocabulary.

End GinzbergRecords.

(** ** More vocabulary: the corpus *)

(** The number of records with a given source tag, theme or book label. *)
Definition count_source (tag : jsstring) (ms : list Myth) : nat :=
  length (filter (fun m => str_eqb (sourceWork m) tag) ms).

Definition count_theme (t : jsstring) (ms : list Myth) : nat :=
  length (filter (fun m => existsb (str_eqb t) (themes m)) ms).

Definition count_book (b : jsstring) (ms : list Myth) : nat :=
  length (filter (fun m => str_eqb (book m) b) ms).

(** A record in progress in skip mode. *)
Definition in_studies : Schwartz.State := Schwartz.with_mode long_record Schwartz.Skip.

(** The code units of the content lines of a buffer. *)
Definition content_total (buf : list (Schwartz.Mode * jsstring)) : nat :=
  list_sum (map (fun e => length (snd e))
              (filter (fun e => Schwartz.mode_eqb (fst e) Schwartz.Content) buf)).

(** Commentary is only buffered once more than 300 code units of content
    are. *)
Definition commentary_after_content (st : Schwartz.State) : Prop :=
  (Schwartz.mode st = Schwartz.Commentary \/
   exists e, In e (Schwartz.contentBuffer st) /\ fst e = Schwartz.Commentary) ->
  (300 < content_total (Schwartz.contentBuffer st))%nat.

(** A draft with commentary has more than 300 code units of content. *)
Definition late_commentary (d : Myth) : Prop :=
  commentary d <> [] -> (300 < length (content d))%nat.

Definition commentary_ok (st : Schwartz.State) : Prop :=
  SchwartzSpec.buffer_ok st /\ commentary_after_content st /\
  Forall late_commentary (Schwartz.myths st).

(** * Properties *)

(** ** Lists of code units *)

Lemma str_eqb_eq (a b : jsstring) : str_eqb a b = true <-> a = b.
Proof.
  revert b; induction a as [|x a IH]; intros [|y b]; simpl; split; try congruence.
  - rewrite andb_true_iff, N.eqb_eq, IH. intros [-> ->]; reflexivity.
  - intros E; injection E as -> ->. rewrite N.eqb_refl. apply IH. reflexivity.
Qed.

Lemma str_eqb_refl (a : jsstring) : str_eqb a a = true.
Proof. apply str_eqb_eq; reflexivity. Qed.

Lemma take_drop_while (f : char -> bool) (s : jsstring) :
  take_while f s ++ drop_while f s = s.
Proof.
  induction s as [|c s IH]; simpl; [reflexivity|].
  destruct (f c); simpl; [rewrite IH|]; reflexivity.
Qed.

Lemma skipn_take_while (f : char -> bool) (s : jsstring) :
  skipn (length (take_while f s)) s = drop_while f s.
Proof.
  induction s as [|c s IH]; simpl; [reflexivity|].
  destruct (f c); simpl; [apply IH | reflexivity].
Qed.

Lemma take_while_all (f : char -> bool) (s : jsstring) :
  forallb f (take_while f s) = true.
Proof.
  induction s as [|c s IH]; simpl; [reflexivity|].
  destruct (f c) eqn:E; simpl; [rewrite E; exact IH | reflexivity].
Qed.

Lemma drop_while_length (f : char -> bool) (s : jsstring) :
  (length (drop_while f s) <= length s)%nat.
Proof.
  induction s as [|c s IH]; simpl; [lia|]. destruct (f c); simpl; lia.
Qed.

(** ** Global replacement *)

Lemma replace_go_skip m rep k s :
  replace_go m rep k s = replace_go m rep 0 (skipn k s).
Proof.
  revert k; induction s as [|c s IH]; intros [|k]; simpl; try reflexivity.
  apply IH.
Qed.

Lemma replace_all_nil m rep : replace_all m rep [] = [].
Proof. reflexivity. Qed.

Lemma replace_all_cons m rep c s :
  replace_all m rep (c :: s) =
  match m (c :: s) with
  | Some len => rep ++ replace_all m rep (skipn (pred len) s)
  | None => c :: replace_all m rep s
  end.
Proof.
  unfold replace_all; simpl. destruct (m (c :: s)); [|reflexivity].
  now rewrite replace_go_skip.
Qed.

(** ** [cleanText] *)

Lemma collapse_cons c s :
  collapse_spaces (c :: s) =
  if is_space c then 32 :: collapse_spaces (drop_while is_space s)
  else c :: collapse_spaces s.
Proof.
  unfold collapse_spaces. rewrite replace_all_cons. unfold run_of. simpl.
  destruct (is_space c); [|reflexivity].
  simpl. now rewrite skipn_take_while.
Qed.

Lemma head_solid_drop s : head_solid (drop_while is_space s) = true.
Proof.
  induction s as [|c s IH]; simpl; [reflexivity|].
  destruct (is_space c) eqn:E; [exact IH|]. simpl. now rewrite E.
Qed.

Lemma collapse_head s : head_solid s = true -> head_solid (collapse_spaces s) = true.
Proof.
  destruct s as [|c s]; [reflexivity|]. simpl. intros H.
  rewrite collapse_cons. apply negb_true_iff in H. rewrite H. simpl. now rewrite H.
Qed.

Lemma tidy_collapse s : tidy (collapse_spaces s) = true.
Proof.
  remember (length s) as n eqn:Hn.
  revert s Hn. induction n as [n IH] using lt_wf_ind. intros s Hn.
  destruct s as [|c s]; [reflexivity|].
  rewrite collapse_cons. destruct (is_space c) eqn:E.
  - simpl. rewrite collapse_head by apply head_solid_drop. simpl.
    apply (IH (length (drop_while is_space s))); [|reflexivity].
    pose proof (drop_while_length is_space s). simpl in Hn. lia.
  - simpl. rewrite E. simpl. apply (IH (length s)); [simpl in Hn; lia | reflexivity].
Qed.

Lemma hyphen_space_prefix c s :
  starts_with (js "- ") (c :: s) = true <-> c = 45 /\ exists r, s = 32 :: r.
Proof.
  change (js "- ") with [45; 32]. destruct s as [|d r]; cbn [starts_with].
  - rewrite andb_false_r. split; [discriminate | intros [_ [r H]]; discriminate].
  - rewrite andb_true_r, andb_true_iff, !N.eqb_eq. split.
    + intros [<- <-]. eauto.
    + intros [-> [r' H]]. injection H as -> ->. auto.
Qed.

Lemma unhyphenate_cons c s :
  unhyphenate (c :: s) =
  if starts_with (js "- ") (c :: s) then unhyphenate (skipn 1 s)
  else c :: unhyphenate s.
Proof.
  unfold unhyphenate. rewrite replace_all_cons. unfold lit.
  destruct (starts_with (js "- ") (c :: s)); reflexivity.
Qed.

Lemma tidy_cons c r :
  tidy (c :: r) = (if is_space c then (c =? 32) && head_solid r else true) && tidy r.
Proof. reflexivity. Qed.

Lemma tidy_tail c s : tidy (c :: s) = true -> tidy s = true.
Proof. rewrite tidy_cons. now intros [_ H]%andb_true_iff. Qed.

Lemma tidy_space_next c s :
  tidy (c :: s) = true -> is_space c = true -> c = 32 /\ head_solid s = true.
Proof.
  rewrite tidy_cons. intros [H _]%andb_true_iff E. rewrite E in H.
  apply andb_true_iff in H as [H1 H2]. now apply N.eqb_eq in H1.
Qed.

Lemma includes_cons p c s :
  includes p (c :: s) = starts_with p (c :: s) || includes p s.
Proof. reflexivity. Qed.

Lemma unhyphenate_head s :
  tidy s = true -> head_solid s = true -> head_solid (unhyphenate s) = true.
Proof.
  remember (length s) as n eqn:Hn.
  revert s Hn. induction n as [n IH] using lt_wf_ind. intros s Hn Ht Hh.
  destruct s as [|c s]; [reflexivity|].
  rewrite unhyphenate_cons.
  destruct (starts_with (js "- ") (c :: s)) eqn:E; [|exact Hh].
  apply hyphen_space_prefix in E as [-> [r ->]].
  apply tidy_tail in Ht.
  destruct (tidy_space_next _ _ Ht eq_refl) as [_ Hr].
  apply tidy_tail in Ht. cbn [skipn length] in *.
  apply (IH (length r)); auto; lia.
Qed.

Lemma tidy_unhyphenate s :
  tidy s = true ->
  tidy (unhyphenate s) = true /\ includes (js "- ") (unhyphenate s) = false.
Proof.
  remember (length s) as n eqn:Hn.
  revert s Hn. induction n as [n IH] using lt_wf_ind. intros s Hn Ht.
  destruct s as [|c s]; [split; reflexivity|].
  assert (Hs : tidy s = true) by (eapply tidy_tail; eauto).
  rewrite unhyphenate_cons.
  destruct (starts_with (js "- ") (c :: s)) eqn:E.
  - apply hyphen_space_prefix in E as [-> [r ->]].
    apply tidy_tail in Hs. cbn [skipn length] in *.
    apply (IH (length r)); auto; lia.
  - destruct (IH (length s)) with (s := s) as [H1 H2]; cbn [length] in *; auto; try lia.
    split.
    + rewrite tidy_cons, H1, andb_true_r. destruct (is_space c) eqn:Ec; [|reflexivity].
      destruct (tidy_space_next _ _ Ht Ec) as [-> Hh].
      rewrite N.eqb_refl. now apply unhyphenate_head.
    + rewrite includes_cons, H2, orb_false_r.
      destruct (starts_with (js "- ") (c :: unhyphenate s)) eqn:E'; [|reflexivity].
      apply hyphen_space_prefix in E' as [-> [u Hu]].
      assert (Hh : head_solid s = true).
      { destruct s as [|d r]; [reflexivity|]. cbn [head_solid].
        destruct (is_space d) eqn:Ed; [|reflexivity].
        destruct (tidy_space_next _ _ Hs Ed) as [-> _].
        assert (starts_with (js "- ") (45 :: 32 :: r) = true)
          by (apply hyphen_space_prefix; eauto).
        congruence. }
      pose proof (unhyphenate_head s Hs Hh) as K. rewrite Hu in K. discriminate.
Qed.

(** Pieces of a tidy string are tidy. *)
Lemma tidy_app a b : tidy (a ++ b) = true -> tidy a = true /\ tidy b = true.
Proof.
  induction a as [|c a IH]; [intros H; split; [reflexivity | exact H]|].
  rewrite <- app_comm_cons, !tidy_cons. intros [H1 H2]%andb_true_iff.
  destruct (IH H2) as [Ha Hb]. split; [|exact Hb].
  rewrite Ha, andb_true_r. destruct (is_space c); [|reflexivity].
  apply andb_true_iff in H1 as [-> H1]. destruct a; [reflexivity | exact H1].
Qed.

Lemma starts_with_app p a b : starts_with p a = true -> starts_with p (a ++ b) = true.
Proof.
  revert a; induction p as [|x p IH]; intros [|y a]; cbn [starts_with app]; auto; try discriminate.
  intros [-> H]%andb_true_iff. rewrite (IH _ H). reflexivity.
Qed.

Lemma includes_app p a b :
  includes p (a ++ b) = false -> includes p a = false /\ includes p b = false.
Proof.
  induction a as [|c a IH].
  - intros H. split; [|exact H]. cbn [app] in H.
    destruct p; [destruct b; discriminate | reflexivity].
  - rewrite <- app_comm_cons, !includes_cons. intros [H1 H2]%orb_false_iff.
    destruct (IH H2) as [Ha Hb]. split; [|exact Hb]. rewrite Ha, orb_false_r.
    destruct (starts_with p (c :: a)) eqn:E; [|reflexivity].
    apply starts_with_app with (b := b) in E. rewrite <- app_comm_cons in E. congruence.
Qed.

Lemma trim_end_split s :
  s = trim_end s ++ rev (take_while is_space (rev s)).
Proof.
  unfold trim_end. rewrite <- rev_app_distr, take_drop_while, rev_involutive. reflexivity.
Qed.

Lemma trim_start_split s :
  s = take_while is_space s ++ trim_start s.
Proof. unfold trim_start. now rewrite take_drop_while. Qed.

Lemma drop_while_solid s : head_solid s = true -> drop_while is_space s = s.
Proof.
  destruct s as [|c s]; [reflexivity|]. cbn [head_solid drop_while].
  intros H. apply negb_true_iff in H. now rewrite H.
Qed.

(** The result of [trim] has no white space at either end. *)
Lemma trim_ends s :
  head_solid (trim s) = true /\ head_solid (rev (trim s)) = true.
Proof.
  unfold trim, trim_end. rewrite rev_involutive. split; [|apply head_solid_drop].
  pose proof (head_solid_drop s) as H. fold (trim_start s) in *.
  destruct (trim_start s) as [|c t] eqn:E; [reflexivity|].
  cbn [head_solid] in H. apply negb_true_iff in H.
  cbn [rev]. 
  assert (K : forall l, drop_while is_space (l ++ [c]) = drop_while is_space l ++ [c] \/
                        (drop_while is_space (l ++ [c]) = [c])).
  { induction l as [|x l IHl]; cbn [app drop_while].
    - rewrite H. auto.
    - destruct (is_space x); auto. }
  destruct (K (rev t)) as [-> | ->].
  - rewrite rev_app_distr. cbn [rev app head_solid]. now rewrite H.
  - cbn [rev app head_solid]. now rewrite H.
Qed.

Lemma trim_fixed s :
  head_solid s = true -> head_solid (rev s) = true -> trim s = s.
Proof.
  intros H1 H2. unfold trim, trim_end, trim_start.
  rewrite (drop_while_solid s H1), (drop_while_solid _ H2). apply rev_involutive.
Qed.

Lemma collapse_fixed s : tidy s = true -> collapse_spaces s = s.
Proof.
  induction s as [|c s IH]; [reflexivity|]. intros Ht.
  rewrite collapse_cons. destruct (is_space c) eqn:E.
  - destruct (tidy_space_next _ _ Ht E) as [-> Hh].
    rewrite (drop_while_solid s Hh), IH; [reflexivity|]. eapply tidy_tail; eauto.
  - rewrite IH; [reflexivity|]. eapply tidy_tail; eauto.
Qed.

Lemma unhyphenate_fixed s : includes (js "- ") s = false -> unhyphenate s = s.
Proof.
  induction s as [|c s IH]; [reflexivity|].
  rewrite includes_cons. intros [H1 H2]%orb_false_iff.
  rewrite unhyphenate_cons, H1, IH; auto.
Qed.

Lemma unix_newlines_fixed s : tidy s = true -> unix_newlines s = s.
Proof.
  induction s as [|c s IH]; [reflexivity|]. intros Ht.
  unfold unix_newlines in *. rewrite replace_all_cons.
  destruct (lit [13; 10] (c :: s)) eqn:E.
  - unfold lit in E. destruct (starts_with [13; 10] (c :: s)) eqn:E'; [|discriminate].
    cbn [starts_with] in E'. apply andb_true_iff in E' as [E' _].
    apply N.eqb_eq in E'. subst c.
    destruct (tidy_space_next _ _ Ht eq_refl) as [K _]. discriminate.
  - rewrite IH; [reflexivity|]. eapply tidy_tail; eauto.
Qed.

Lemma cleanText_unfold t :
  cleanText t = trim (unhyphenate (collapse_spaces (unix_newlines t))).
Proof. reflexivity. Qed.

(** The shape of every result of [cleanText]. *)
Lemma cleanText_shape t :
  let u := cleanText t in
  tidy u = true /\ includes (js "- ") u = false /\
  head_solid u = true /\ head_solid (rev u) = true.
Proof.
  cbn zeta. rewrite cleanText_unfold.
  set (v := unhyphenate (collapse_spaces (unix_newlines t))).
  destruct (tidy_unhyphenate _ (tidy_collapse (unix_newlines t))) as [Hv1 Hv2].
  fold v in Hv1, Hv2.
  destruct (trim_ends v) as [He1 He2].
  assert (Hmid : tidy (trim_start v) = true /\ includes (js "- ") (trim_start v) = false).
  { rewrite (trim_start_split v) in Hv1, Hv2.
    apply tidy_app in Hv1. apply includes_app in Hv2. tauto. }
  destruct Hmid as [Hm1 Hm2].
  unfold trim in *. rewrite (trim_end_split (trim_start v)) in Hm1, Hm2.
  apply tidy_app in Hm1. apply includes_app in Hm2. tauto.
Qed.

(** C10: [cleanText] is idempotent: cleaning a cleaned text changes nothing. *)
Theorem cleanText_idempotent (t : jsstring) :
  cleanText (cleanText t) = cleanText t.
Proof.
  destruct (cleanText_shape t) as (H1 & H2 & H3 & H4).
  rewrite (cleanText_unfold (cleanText t)).
  rewrite (unix_newlines_fixed _ H1), (collapse_fixed _ H1), (unhyphenate_fixed _ H2).
  apply trim_fixed; assumption.
Qed.

(** ** Sets of strings, themes and references *)

Lemma existsb_str_eqb x s : existsb (str_eqb x) s = true <-> In x s.
Proof.
  rewrite existsb_exists. split.
  - intros [y [Hy E]]. apply str_eqb_eq in E. now subst.
  - intros H. exists x. split; [exact H | apply str_eqb_refl].
Qed.

Lemma set_add_idempotent x s : set_add x (set_add x s) = set_add x s.
Proof.
  assert (H : existsb (str_eqb x) (s ++ [x]) = true).
  { apply existsb_str_eqb, in_or_app. right. now left. }
  unfold set_add. destruct (existsb (str_eqb x) s) eqn:E.
  - now rewrite E.
  - now rewrite H.
Qed.

Lemma set_add_NoDup x s : NoDup s -> NoDup (set_add x s).
Proof.
  intros H. unfold set_add. destruct (existsb (str_eqb x) s) eqn:E; [exact H|].
  apply NoDup_app; [exact H | repeat constructor; intros [] | ].
  intros y Hy [<-|[]]. apply existsb_str_eqb in Hy. congruence.
Qed.

Lemma set_add_incl x s v : In x v -> incl s v -> incl (set_add x s) v.
Proof.
  intros Hx Hs. unfold set_add. destruct (existsb (str_eqb x) s); [exact Hs|].
  apply incl_app; [exact Hs|]. intros y [<-|[]]. exact Hx.
Qed.

Lemma scan_references_NoDup skip text refs :
  NoDup refs -> NoDup (scan_references skip text refs).
Proof.
  revert skip refs. induction text as [|c text IH]; intros skip refs H; [exact H|].
  cbn [scan_references]. destruct skip as [|k]; [|now apply IH].
  destruct (biblical_match (c :: text)); apply IH; [now apply set_add_NoDup | exact H].
Qed.

Lemma extractBiblicalReferences_NoDup text : NoDup (extractBiblicalReferences text).
Proof. apply scan_references_NoDup. constructor. Qed.

Section TaggerFacts.
Context {cm : CaseMapping}.

Lemma extractThemes_spec text :
  NoDup (extractThemes text) /\ incl (extractThemes text) THEMES.
Proof.
  unfold extractThemes, THEMES.
  set (f := fun (themes : list jsstring) (entry : jsstring * list jsstring) =>
              if existsb (fun keyword => includes keyword (toLowerCase text)) (snd entry)
              then set_add (fst entry) themes else themes).
  assert (G : forall l acc, incl (map fst l) (map fst THEME_KEYWORDS) ->
            NoDup acc -> incl acc (map fst THEME_KEYWORDS) ->
            NoDup (fold_left f l acc) /\ incl (fold_left f l acc) (map fst THEME_KEYWORDS)).
  { induction l as [|e l IH]; intros acc Hl Hn Hi; [split; assumption|].
    cbn [fold_left]. apply IH.
    - intros x Hx. apply Hl. now right.
    - unfold f. destruct (existsb _ (snd e)); [now apply set_add_NoDup | exact Hn].
    - unfold f. destruct (existsb _ (snd e)); [|exact Hi].
      apply set_add_incl; [|exact Hi]. apply Hl. now left. }
  apply G; [apply incl_refl | constructor | intros x []].
Qed.

End TaggerFacts.

(** ** Counter tables and sorting *)

Lemma str_eqb_neq a b : str_eqb a b = false <-> a <> b.
Proof.
  split.
  - intros H E. apply str_eqb_eq in E. congruence.
  - intros H. destruct (str_eqb a b) eqn:E; [|reflexivity]. apply str_eqb_eq in E. contradiction.
Qed.

Lemma lookup_bump_same k o : lookup k (bump k o) = S (lookup k o).
Proof.
  induction o as [|[k' n] o IH]; cbn [bump lookup].
  - now rewrite str_eqb_refl.
  - destruct (str_eqb k k') eqn:E; cbn [lookup]; rewrite E; [reflexivity | exact IH].
Qed.

Lemma lookup_bump_other k k' o : k <> k' -> lookup k (bump k' o) = lookup k o.
Proof.
  intros H. induction o as [|[k2 n] o IH]; cbn [bump lookup].
  - apply str_eqb_neq in H. now rewrite H.
  - destruct (str_eqb k' k2) eqn:E; cbn [lookup].
    + apply str_eqb_eq in E. subst k2. apply str_eqb_neq in H. now rewrite H.
    + now rewrite IH.
Qed.

Lemma keys_bump k o x : In x (keys (bump k o)) <-> x = k \/ In x (keys o).
Proof.
  unfold keys. induction o as [|[k' n] o IH]; cbn [bump map In fst].
  - intuition.
  - destruct (str_eqb k k') eqn:E; cbn [map In fst].
    + apply str_eqb_eq in E. subst. intuition.
    + rewrite IH. intuition.
Qed.

Lemma keys_bump_NoDup k o : NoDup (keys o) -> NoDup (keys (bump k o)).
Proof.
  unfold keys. induction o as [|[k' n] o IH]; cbn [bump map fst]; intros H.
  - repeat constructor. intros [].
  - inversion H as [|? ? Hn Hd]; subst.
    destruct (str_eqb k k') eqn:E; cbn [map fst].
    + constructor; assumption.
    + constructor; [|now apply IH].
      intros Hin. apply (keys_bump k o k') in Hin. destruct Hin as [->|Hin]; [|contradiction].
      rewrite str_eqb_refl in E. discriminate.
Qed.

Lemma table_ok_nil : table_ok [].
Proof. split; [constructor|]. intros k. cbn. split; [intros [] | lia]. Qed.

Lemma table_ok_bump k o : table_ok o -> table_ok (bump k o).
Proof.
  intros [Hn Hk]. split; [now apply keys_bump_NoDup|].
  intros x. rewrite keys_bump. destruct (list_eq_dec N.eq_dec x k) as [->|Hx].
  - rewrite lookup_bump_same. split; [lia | auto].
  - rewrite lookup_bump_other by exact Hx. rewrite Hk. intuition.
Qed.

Lemma insert_by_perm {A} (le : A -> A -> bool) x l : Permutation (insert_by le x l) (x :: l).
Proof.
  induction l as [|y l IH]; cbn [insert_by]; [reflexivity|].
  destruct (le x y); [reflexivity|]. rewrite IH. apply perm_swap.
Qed.

Lemma sort_by_perm {A} (le : A -> A -> bool) l : Permutation (sort_by le l) l.
Proof.
  induction l as [|x l IH]; cbn; [constructor|].
  fold (sort_by le l). rewrite insert_by_perm. now constructor.
Qed.

Lemma insert_by_sorted {A} (le : A -> A -> bool) x l :
  (forall a b, le a b = true \/ le b a = true) ->
  Sorted (fun a b => le a b = true) l -> Sorted (fun a b => le a b = true) (insert_by le x l).
Proof.
  intros Htot. induction l as [|y l IH]; cbn [insert_by]; intros Hs.
  - repeat constructor.
  - destruct (le x y) eqn:E.
    + constructor; [exact Hs | constructor; exact E].
    + inversion Hs as [|? ? Hs' Hd]; subst. constructor; [now apply IH|].
      destruct l as [|z l]; cbn [insert_by].
      * constructor. destruct (Htot x y); congruence.
      * destruct (le x z); constructor.
        -- destruct (Htot x y); congruence.
        -- now inversion Hd.
Qed.

Lemma sort_by_sorted {A} (le : A -> A -> bool) l :
  (forall a b, le a b = true \/ le b a = true) ->
  Sorted (fun a b => le a b = true) (sort_by le l).
Proof.
  intros Htot. induction l as [|x l IH]; cbn; [constructor|].
  now apply insert_by_sorted.
Qed.

Lemma str_leb_total a b : str_leb a b = true \/ str_leb b a = true.
Proof.
  revert b. induction a as [|x a IH]; intros [|y b]; cbn [str_leb]; auto.
  destruct (N.lt_trichotomy x y) as [H|[H|H]].
  - left. apply N.ltb_lt in H. now rewrite H.
  - subst. rewrite N.eqb_refl, N.ltb_irrefl. cbn. apply IH.
  - right. apply N.ltb_lt in H. now rewrite H.
Qed.

Lemma str_leb_trans a b c :
  str_leb a b = true -> str_leb b c = true -> str_leb a c = true.
Proof.
  revert b c. induction a as [|x a IH]; intros [|y b] [|z c]; cbn [str_leb]; auto;
    try discriminate.
  rewrite !orb_true_iff, !andb_true_iff, !N.ltb_lt, !N.eqb_eq.
  intros [H1|[H1 H1']] [H2|[H2 H2']].
  - left. lia.
  - left. lia.
  - left. lia.
  - right. split; [lia|]. eapply IH; eauto.
Qed.

Lemma by_count_desc_total t a b : by_count_desc t a b = true \/ by_count_desc t b a = true.
Proof.
  unfold by_count_desc. destruct (Nat.le_ge_cases (lookup b t) (lookup a t)) as [H|H];
    apply Nat.leb_le in H; auto.
Qed.

(** What [tally] has counted, in terms of the records. *)
Lemma fold_bump_ok l o : table_ok o -> table_ok (fold_left (fun t theme => bump theme t) l o).
Proof.
  revert o. induction l as [|x l IH]; intros o H; [exact H|].
  cbn [fold_left]. apply IH. now apply table_ok_bump.
Qed.

Lemma fold_bump_pos l o k :
  (0 < lookup k (fold_left (fun t theme => bump theme t) l o))%nat <->
  (0 < lookup k o)%nat \/ In k l.
Proof.
  revert o. induction l as [|x l IH]; intros o; cbn [fold_left In]; [intuition|].
  rewrite IH. destruct (list_eq_dec N.eq_dec k x) as [->|Hx].
  - rewrite lookup_bump_same. intuition lia.
  - rewrite lookup_bump_other by exact Hx. intuition congruence.
Qed.

Lemma count_myth_ok st m :
  table_ok (fst st) /\ table_ok (snd st) ->
  table_ok (fst (count_myth st m)) /\ table_ok (snd (count_myth st m)).
Proof.
  intros [H1 H2]. unfold count_myth. cbn [fst snd]. split.
  - now apply fold_bump_ok.
  - destruct (is_empty (book m)); [exact H2 | now apply table_ok_bump].
Qed.

Lemma tally_from_ok ms st :
  table_ok (fst st) /\ table_ok (snd st) ->
  table_ok (fst (fold_left count_myth ms st)) /\ table_ok (snd (fold_left count_myth ms st)).
Proof.
  revert st. induction ms as [|m ms IH]; intros st H; [exact H|].
  cbn [fold_left]. apply IH. now apply count_myth_ok.
Qed.

Lemma tally_from_themes ms st k :
  (0 < lookup k (fst (fold_left count_myth ms st)))%nat <->
  (0 < lookup k (fst st))%nat \/ exists m, In m ms /\ In k (themes m).
Proof.
  revert st. induction ms as [|m ms IH]; intros st; cbn [fold_left].
  - split; [auto | intros [H|[m [[] _]]]; exact H].
  - rewrite IH. unfold count_myth. cbn [fst]. rewrite fold_bump_pos. split.
    + intros [[H|H]|[m' [H1 H2]]]; auto.
      * right. exists m. split; [now left | exact H].
      * right. exists m'. split; [now right | exact H2].
    + intros [H|[m' [[<-|H1] H2]]]; auto. right. eauto.
Qed.

Lemma is_empty_true s : is_empty s = true <-> s = [].
Proof. destruct s; cbn; split; congruence. Qed.

Lemma tally_from_books ms st k :
  (0 < lookup k (snd (fold_left count_myth ms st)))%nat <->
  (0 < lookup k (snd st))%nat \/ (k <> [] /\ exists m, In m ms /\ book m = k).
Proof.
  revert st. induction ms as [|m ms IH]; intros st; cbn [fold_left].
  - split; [auto | intros [H|[_ [m [[] _]]]]; exact H].
  - rewrite IH. unfold count_myth. cbn [snd].
    destruct (is_empty (book m)) eqn:E.
    + apply is_empty_true in E. split.
      * intros [H|[Hk [m' [H1 H2]]]]; auto. right. split; [exact Hk|]. exists m'. split; [now right|exact H2].
      * intros [H|[Hk [m' [[<-|H1] H2]]]]; auto; [congruence|]. right. split; eauto.
    + assert (Hb : book m <> []) by (intros K; apply is_empty_true in K; congruence).
      destruct (list_eq_dec N.eq_dec k (book m)) as [->|Hx].
      * rewrite lookup_bump_same. split; [|intros _; left; lia].
        intros _. right. split; [exact Hb|]. exists m. split; [now left | reflexivity].
      * rewrite lookup_bump_other by exact Hx. split.
        -- intros [H|[Hk [m' [H1 H2]]]]; auto. right. split; [exact Hk|]. exists m'. split; [now right|exact H2].
        -- intros [H|[Hk [m' [[<-|H1] H2]]]]; auto; [congruence|]. right. split; eauto.
Qed.

(** ** The loop driver *)

Lemma run_upto_all {St} (step : St -> jsstring -> list jsstring -> St * nat) lines :
  forall skip st, run_upto step (length lines) skip st lines = run_lines step skip st lines.
Proof.
  induction lines as [|l rest IH]; intros skip st; [reflexivity|].
  cbn [length run_upto run_lines]. destruct skip as [|k]; [|apply IH].
  destruct (step st l rest) as [st' skip']. apply IH.
Qed.

(** An invariant kept by the body on every line that satisfies [ok] holds
    for as long as the loop has met such lines only. *)
Lemma run_upto_invariant {St} (step : St -> jsstring -> list jsstring -> St * nat)
    (Q : St -> Prop) (ok : jsstring -> Prop) :
  (forall st l rest, Q st -> ok l -> Q (fst (step st l rest))) ->
  forall n lines skip st,
    Forall ok (firstn n lines) -> Q st -> Q (run_upto step n skip st lines).
Proof.
  intros Hstep. induction n as [|n IH]; intros lines skip st Hok HQ; [exact HQ|].
  destruct lines as [|l rest]; [exact HQ|].
  cbn [firstn] in Hok. inversion Hok as [|? ? Hl Hrest]; subst.
  cbn [run_upto]. destruct skip as [|k]; [|now apply IH].
  pose proof (Hstep st l rest HQ Hl) as H.
  destruct (step st l rest) as [st' skip']. now apply IH.
Qed.

Lemma run_lines_invariant {St} (step : St -> jsstring -> list jsstring -> St * nat)
    (Q : St -> Prop) (ok : jsstring -> Prop) :
  (forall st l rest, Q st -> ok l -> Q (fst (step st l rest))) ->
  forall lines skip st, Forall ok lines -> Q st -> Q (run_lines step skip st lines).
Proof.
  intros Hstep lines skip st Hok HQ. rewrite <- run_upto_all.
  apply (run_upto_invariant step Q ok Hstep); [|exact HQ].
  now rewrite firstn_all.
Qed.

Lemma run_upto_invariant_visited {St} (step : St -> jsstring -> list jsstring -> St * nat)
    (Q : St -> Prop) (ok : jsstring -> Prop) :
  (forall st l rest, Q st -> ok l -> Q (fst (step st l rest))) ->
  forall n lines skip st,
    Forall ok (visited_upto step n skip st lines) -> Q st -> Q (run_upto step n skip st lines).
Proof.
  intros Hstep. induction n as [|n IH]; intros lines skip st Hok HQ; [exact HQ|].
  destruct lines as [|l rest]; [exact HQ|].
  cbn [run_upto visited_upto] in *. destruct skip as [|k]; [|now apply IH].
  pose proof (Hstep st l rest HQ) as H.
  destruct (step st l rest) as [st' skip']. inversion Hok as [|? ? Hl Hrest]; subst.
  apply IH; [exact Hrest | now apply H].
Qed.

Lemma lines_agree_Forall2 (r : jsstring -> jsstring -> bool) (R : jsstring -> jsstring -> Prop) :
  (forall x y, r x y = true -> R x y) ->
  forall ls ls', lines_agree r ls ls' = true -> Forall2 R ls ls'.
Proof.
  intros Hr. induction ls as [|x ls IH]; intros [|y ls'] H; try discriminate H; constructor.
  - apply Hr. cbn [lines_agree] in H. now apply andb_true_iff in H as [H _].
  - apply IH. cbn [lines_agree] in H. now apply andb_true_iff in H as [_ H].
Qed.

Lemma Forall_false_check (f : jsstring -> bool) (ls : list jsstring) :
  forallb (fun l => negb (f l)) ls = true -> Forall (fun l => f l = false) ls.
Proof.
  intros H. apply Forall_forall. intros l Hl.
  apply (proj1 (forallb_forall _ _) H) in Hl. now apply negb_true_iff in Hl.
Qed.

(** ** The Source-A segmenter *)

Module SchwartzFacts.
Import Schwartz SchwartzSpec.

Section Facts.
Context {cm : CaseMapping}.

(** *** Minimum content length *)

(** The body of the loop changes the list of kept records only by
    "Save current myth". *)
Lemma step_myths st l rest :
  Schwartz.myths (fst (step st l rest)) = Schwartz.myths st \/
  Schwartz.myths (fst (step st l rest)) = flush st.
Proof.
  unfold step. destruct (is_empty (trim l)); [now left|].
  destruct (is_noise (trim l)); [now left|].
  destruct (is_book_header _).
  { destruct (find_subtitle _ _ _ _) as [[j label]|]; now right. }
  destruct (is_section_header _ _); [now right|].
  destruct (myth_match _) as [[num ttl]|]; [now right|].
  destruct (block_header _ _); [now left|].
  destruct (block_header _ _); [now left|].
  left. unfold buffer_line. cbn [fst].
  destruct (currentMyth st); [|reflexivity]. destruct (mode st); reflexivity.
Qed.

(** What the record in progress can become in one step: itself with more
    sources, a fresh record, or nothing. *)
Lemma step_currentMyth st l rest :
  currentMyth (fst (step st l rest)) = None \/
  (exists num ttl, currentMyth (fst (step st l rest)) = Some (new_myth st num ttl)) \/
  (exists m parts, currentMyth st = Some m /\
     currentMyth (fst (step st l rest)) = Some (push_sources m parts)) \/
  currentMyth (fst (step st l rest)) = currentMyth st.
Proof.
  unfold step. destruct (is_empty (trim l)); [now (right; right; right)|].
  destruct (is_noise (trim l)); [now (right; right; right)|].
  destruct (is_book_header _).
  { destruct (find_subtitle _ _ _ _) as [[j label]|]; now left. }
  destruct (is_section_header _ _); [now left|].
  destruct (myth_match _) as [[num ttl]|]; [right; left; exists num, ttl; reflexivity|].
  destruct (block_header _ _); [now (right; right; right)|].
  destruct (block_header _ _); [now (right; right; right)|].
  unfold buffer_line. cbn [fst].
  destruct (currentMyth st) as [m|] eqn:E; [|now left].
  destruct (mode st); cbn [currentMyth]; try (right; right; right; exact E);
    try (right; right; right; reflexivity).
  right; right; left. eexists _, _. split; reflexivity.
Qed.

Lemma flush_ok st : schwartz_state_ok st -> Forall schwartz_kept (flush st).
Proof.
  intros [H1 H2]. unfold flush. destruct (currentMyth st) as [m|]; [|exact H1].
  destruct (50 <? _)%nat eqn:E; [|exact H1].
  apply Forall_app. split; [exact H1|]. constructor; [|constructor].
  split; [now apply Nat.ltb_lt in E | cbn; now apply H2].
Qed.

Lemma step_ok st l rest : schwartz_state_ok st -> schwartz_state_ok (fst (step st l rest)).
Proof.
  intros H. split.
  - destruct (step_myths st l rest) as [-> | ->]; [apply H | now apply flush_ok].
  - intros m Hm.
    destruct (step_currentMyth st l rest) as [K|[[num [ttl K]]|[[m0 [parts [K0 K]]]|K]]];
      rewrite K in Hm.
    + discriminate.
    + injection Hm as <-. reflexivity.
    + injection Hm as <-. cbn. now apply H.
    + now apply H.
Qed.

Lemma drafts_ok lines : Forall schwartz_kept (drafts lines).
Proof.
  unfold drafts. apply flush_ok.
  apply (run_lines_invariant step schwartz_state_ok (fun _ => True)).
  - intros st l rest H _. now apply step_ok.
  - apply Forall_forall. auto.
  - split; [constructor | discriminate].
Qed.

Lemma parse_records content :
  snd (parseSchwartzFile content) = [] \/
  snd (parseSchwartzFile content) = map finalize (drafts (map trim (split_on 10 content))).
Proof.
  unfold parseSchwartzFile. destruct (_ =? _)%nat; [now left | now right].
Qed.

(** *** The commentary heuristic *)

Lemma totalContentLength_sum buf :
  totalContentLength buf = list_sum (map (fun e => length (snd e)) buf).
Proof.
  unfold totalContentLength.
  assert (G : forall acc, fold_left (fun sum l => (sum + length (snd l))%nat) buf acc
                          = (acc + list_sum (map (fun e => length (snd e)) buf))%nat).
  { induction buf as [|e buf IH]; intros acc; simpl; [lia|].
    rewrite IH. lia. }
  apply G.
Qed.

Lemma isCommentaryStart_iff buf line :
  isCommentaryStart buf line = true <-> commentary_trigger buf line.
Proof.
  unfold isCommentaryStart, commentary_trigger.
  rewrite !andb_true_iff, !negb_true_iff, Nat.ltb_lt, totalContentLength_sum. tauto.
Qed.

Lemma trigger_nonempty buf line : commentary_trigger buf line -> buf <> [].
Proof. intros [H _] ->. cbn in H. lia. Qed.

Lemma buffer_line_switch st line m :
  currentMyth st = Some m -> mode st = Content ->
  (mode (buffer_line st line) = Commentary <-> commentary_trigger (contentBuffer st) line).
Proof.
  intros Hm Hc. unfold buffer_line. rewrite Hm, Hc. cbn [mode_eqb andb mode].
  destruct (contentBuffer st) as [|e buf] eqn:Eb.
  - cbn [is_empty_list negb andb]. split; [discriminate|].
    intros H. now apply trigger_nonempty in H.
  - cbn [is_empty_list negb andb]. rewrite <- isCommentaryStart_iff.
    destruct (isCommentaryStart (e :: buf) line); split; congruence.
Qed.

Lemma buffer_line_push st line m :
  currentMyth st = Some m -> mode st = Content \/ mode st = Commentary ->
  contentBuffer (buffer_line st line)
    = contentBuffer st ++ [(mode (buffer_line st line), line)].
Proof.
  intros Hm [Hc|Hc]; unfold buffer_line; rewrite Hm, Hc; reflexivity.
Qed.

Lemma buffer_line_stays st line :
  mode st = Commentary -> mode (buffer_line st line) = Commentary.
Proof.
  intros Hc. unfold buffer_line. rewrite Hc.
  destruct (currentMyth st); [reflexivity | exact Hc].
Qed.

Lemma buffer_line_ok st line : buffer_ok st -> buffer_ok (buffer_line st line).
Proof.
  intros H. unfold buffer_line.
  destruct (currentMyth st) as [m|]; [|exact H].
  destruct (mode st) eqn:Em; try exact H; destruct H as [[xs [ys Hb]] Hc].
  - (* Content *)
    specialize (Hc Em).
    assert (Hys : contentBuffer st = map (pair Content) (map snd (contentBuffer st))).
    { clear Hb. induction (contentBuffer st) as [|[md t] buf IH]; [reflexivity|].
      inversion Hc as [|? ? H1 H2]; subst. cbn in H1. subst md. cbn [map snd].
      f_equal. now apply IH. }
    cbn [mode_eqb andb].
    destruct (negb (is_empty_list (contentBuffer st)) && isCommentaryStart (contentBuffer st) line);
      split; cbn [contentBuffer mode].
    + exists (map snd (contentBuffer st)), [line]. now rewrite Hys at 1.
    + discriminate.
    + exists (map snd (contentBuffer st) ++ [line]), [].
      rewrite map_app, app_nil_r. now rewrite Hys at 1.
    + intros _. apply Forall_app. split; [exact Hc | repeat constructor].
  - (* Commentary *)
    cbn [mode_eqb andb]. split; cbn [contentBuffer mode]; [|discriminate].
    exists xs, (ys ++ [line]). rewrite Hb, map_app, app_assoc. reflexivity.
  - (* Sources *)
    split; cbn [contentBuffer mode]; [exists xs, ys; exact Hb | discriminate].
Qed.

(** Where a step can leave the mode and the buffer. *)
Lemma step_cases st l rest :
  fst (step st l rest) = st \/
  (contentBuffer (fst (step st l rest)) = [] /\
   (mode (fst (step st l rest)) = Seeking \/ mode (fst (step st l rest)) = Content)) \/
  (exists md, (md = Sources \/ md = Skip) /\ fst (step st l rest) = with_mode st md) \/
  fst (step st l rest) = buffer_line st (fixOcrErrors (trim l)).
Proof.
  unfold step. destruct (is_empty (trim l)); [now left|].
  destruct (is_noise (trim l)); [now left|].
  destruct (is_book_header _).
  { destruct (find_subtitle _ _ _ _) as [[j label]|]; right; left; cbn; auto. }
  destruct (is_section_header _ _); [right; left; cbn; auto|].
  destruct (myth_match _) as [[num ttl]|]; [right; left; cbn; auto|].
  destruct (block_header _ _); [right; right; left; exists Sources; auto|].
  destruct (block_header _ _); [right; right; left; exists Skip; auto|].
  now (right; right; right).
Qed.

Lemma step_buffer_ok st l rest : buffer_ok st -> buffer_ok (fst (step st l rest)).
Proof.
  intros H. destruct (step_cases st l rest) as [-> | [[Hb Hm] | [[md [Hmd ->]] | ->]]].
  - exact H.
  - split; rewrite Hb; [exists [], []; reflexivity | constructor].
  - destruct H as [H1 H2]. split; [exact H1|]. cbn. destruct Hmd; subst; discriminate.
  - now apply buffer_line_ok.
Qed.

Lemma step_text_line st l rest :
  text_line st l -> step st l rest = (buffer_line st (fixOcrErrors (trim l)), 0%nat).
Proof.
  intros (H1 & H2 & H3 & H4 & H5 & H6 & H7). unfold step.
  now rewrite H1, H2, H3, H4, H5, H6, H7.
Qed.

(** What the loop body does to the mode on a line that is not a line of
    text: it keeps it, or sets it to seeking, sources or skip, or starts a
    record in content mode. *)
Lemma step_other_line st l rest :
  text_line st l \/
  fst (step st l rest) = st \/
  mode (fst (step st l rest)) = Seeking \/
  mode (fst (step st l rest)) = Sources \/
  mode (fst (step st l rest)) = Skip \/
  (exists num ttl, myth_match (fixOcrErrors (trim l)) = Some (num, ttl) /\
     fst (step st l rest) =
       {| myths := flush st; currentBook := currentBook st;
          currentSection := currentSection st;
          currentMyth := Some (new_myth st num ttl);
          contentBuffer := []; mode := Content |}).
Proof.
  unfold text_line, step.
  destruct (is_empty (trim l)); [right; now left|].
  destruct (is_noise (trim l)); [right; now left|].
  destruct (is_book_header (fixOcrErrors (trim l))).
  { destruct (find_subtitle _ _ _ _) as [[j label]|]; right; right; now left. }
  destruct (is_section_header st (fixOcrErrors (trim l))); [right; right; now left|].
  destruct (myth_match (fixOcrErrors (trim l))) as [[num ttl]|].
  { right; right; right; right; right. exists num, ttl. split; reflexivity. }
  destruct (block_header (js "Sources") (fixOcrErrors (trim l))); [right; right; right; now left|].
  destruct (block_header (js "Studies") (fixOcrErrors (trim l)));
    [right; right; right; right; now left|].
  left. repeat split.
Qed.

(** C6: in the Source-A segmenter, on a line of text met in content mode
    with a record in progress, the loop body switches the mode to commentary
    exactly when the buffered lines total more than 300 code units, the line
    starts with a lead-in phrase and has neither a quotation mark nor "said"
    nor "spoke"; the line is buffered under the mode the body leaves behind,
    and the record stays in progress.  Nothing but such a line takes the
    body from content mode to commentary mode.  In commentary mode every
    line of text is buffered as commentary, and the body reaches content
    mode again only by starting a new record with an empty buffer, the old
    record being saved; so in every state the loop reaches no content line
    follows a commentary line in the buffer. *)
Theorem commentary_switch :
  (forall st l rest m,
     currentMyth st = Some m -> mode st = Content -> text_line st l ->
     let st' := fst (step st l rest) in
     (mode st' = Commentary <->
      commentary_trigger (contentBuffer st) (fixOcrErrors (trim l))) /\
     (mode st' = Content \/ mode st' = Commentary) /\
     contentBuffer st' = contentBuffer st ++ [(mode st', fixOcrErrors (trim l))] /\
     currentMyth st' = Some m /\ Schwartz.myths st' = Schwartz.myths st /\
     snd (step st l rest) = 0%nat) /\
  (forall st l rest,
     mode st = Content -> mode (fst (step st l rest)) = Commentary ->
     (exists m, currentMyth st = Some m) /\ text_line st l /\
     commentary_trigger (contentBuffer st) (fixOcrErrors (trim l))) /\
  (forall st l rest m,
     currentMyth st = Some m -> mode st = Commentary -> text_line st l ->
     let st' := fst (step st l rest) in
     mode st' = Commentary /\
     contentBuffer st' = contentBuffer st ++ [(Commentary, fixOcrErrors (trim l))] /\
     currentMyth st' = Some m /\ Schwartz.myths st' = Schwartz.myths st) /\
  (forall st l rest,
     mode st = Commentary -> mode (fst (step st l rest)) = Content ->
     exists num ttl,
       myth_match (fixOcrErrors (trim l)) = Some (num, ttl) /\
       currentMyth (fst (step st l rest)) = Some (new_myth st num ttl) /\
       contentBuffer (fst (step st l rest)) = [] /\
       Schwartz.myths (fst (step st l rest)) = flush st) /\
  (forall st line m,
     currentMyth st = Some m -> mode st = Content ->
     (mode (buffer_line st line) = Commentary <-> commentary_trigger (contentBuffer st) line)) /\
  (forall st line m,
     currentMyth st = Some m -> mode st = Content \/ mode st = Commentary ->
     contentBuffer (buffer_line st line)
       = contentBuffer st ++ [(mode (buffer_line st line), line)]) /\
  (forall n lines, buffer_ok (run_upto step n 0 init lines)).
Proof.
  split; [|split; [|split; [|split; [|split; [exact buffer_line_switch|
    split; [exact buffer_line_push|]]]]]].
  - intros st l rest m Hm Hc Ht. cbn zeta. rewrite (step_text_line st l rest Ht). cbn [fst snd].
    split; [now apply (buffer_line_switch st _ m)|]. split; [|split; [|split; [|split]]].
    + unfold buffer_line. rewrite Hm, Hc. cbn [mode].
      destruct (_ && _); [now right | now left].
    + apply (buffer_line_push st _ m Hm). now left.
    + unfold buffer_line. rewrite Hm, Hc. reflexivity.
    + unfold buffer_line. rewrite Hm, Hc. reflexivity.
    + reflexivity.
  - intros st l rest Hc Hk.
    destruct (step_other_line st l rest) as [Ht | [E | [E | [E | [E | (num & ttl & _ & E)]]]]];
      try (rewrite E in Hk; try rewrite Hc in Hk; discriminate Hk).
    rewrite (step_text_line st l rest Ht) in Hk. cbn [fst] in Hk.
    destruct (currentMyth st) as [m|] eqn:Em.
    + split; [now exists m|]. split; [exact Ht|]. now apply (buffer_line_switch st _ m).
    + unfold buffer_line in Hk. rewrite Em, Hc in Hk. discriminate Hk.
  - intros st l rest m Hm Hc Ht. cbn zeta. rewrite (step_text_line st l rest Ht). cbn [fst].
    unfold buffer_line. rewrite Hm, Hc. cbn [mode_eqb andb mode contentBuffer currentMyth Schwartz.myths].
    repeat split.
  - intros st l rest Hc Hk.
    destruct (step_other_line st l rest) as [Ht | [E | [E | [E | [E | (num & ttl & Hmm & E)]]]]];
      try (rewrite E in Hk; try rewrite Hc in Hk; discriminate Hk).
    + rewrite (step_text_line st l rest Ht) in Hk. cbn [fst] in Hk.
      rewrite buffer_line_stays in Hk by exact Hc. discriminate Hk.
    + exists num, ttl. rewrite E. repeat split. exact Hmm.
  - intros n lines.
    apply (run_upto_invariant step buffer_ok (fun _ => True)).
    + intros st l rest H _. now apply step_buffer_ok.
    + apply Forall_forall. auto.
    + split; [exists [], []; reflexivity | constructor].
Qed.

(** *** Section labels across book headers *)

Lemma is_section_header_split st line :
  is_section_header st line = section_like line && negb (is_empty (currentBook st)).
Proof. reflexivity. Qed.

Lemma step_currentSection st l rest :
  section_like (fixOcrErrors (trim l)) = false ->
  currentSection (fst (step st l rest)) = currentSection st.
Proof.
  intros H. unfold step. destruct (is_empty (trim l)); [reflexivity|].
  destruct (is_noise (trim l)); [reflexivity|].
  destruct (is_book_header _).
  { destruct (find_subtitle _ _ _ _) as [[j label]|]; reflexivity. }
  rewrite is_section_header_split, H. cbn [andb].
  destruct (myth_match _) as [[num ttl]|]; [reflexivity|].
  destruct (block_header _ _); [reflexivity|].
  destruct (block_header _ _); [reflexivity|].
  unfold buffer_line. cbn [fst].
  destruct (currentMyth st); [|reflexivity]. destruct (mode st); reflexivity.
Qed.

Lemma flush_carries s0 old st :
  carries s0 old st -> forall m, In m (flush st) -> In m old \/ section m = s0.
Proof.
  intros (H1 & H2 & H3) m. unfold flush.
  destruct (currentMyth st) as [m0|]; [|apply H3].
  destruct (50 <? _)%nat; [|apply H3].
  intros [Hm|[<-|[]]]%in_app_or; [now apply H3|]. right. cbn. now apply H2.
Qed.

Lemma step_carries s0 old st l rest :
  carries s0 old st -> section_like (fixOcrErrors (trim l)) = false ->
  carries s0 old (fst (step st l rest)).
Proof.
  intros H Hl. pose proof H as (H1 & H2 & H3). split; [|split].
  - now rewrite step_currentSection.
  - intros m Hm.
    destruct (step_currentMyth st l rest) as [K|[[num [ttl K]]|[[m0 [parts [K0 K]]]|K]]];
      rewrite K in Hm.
    + discriminate.
    + injection Hm as <-. exact H1.
    + injection Hm as <-. cbn. now apply H2.
    + now apply H2.
  - intros m Hm. destruct (step_myths st l rest) as [K | K]; rewrite K in Hm.
    + now apply H3.
    + eapply flush_carries; eauto.
Qed.

Lemma find_subtitle_spec line : forall n rest j0,
  match find_subtitle n j0 line rest with
  | Some (j, label) =>
      exists k l', (k < n)%nat /\ nth_error rest k = Some l' /\ subtitle_line l' = true /\
        Forall (fun x => subtitle_line x = false) (firstn k rest) /\
        label = line ++ js ": " ++ lowerTail (fixOcrErrors (trim l')) /\ j = (j0 + k)%nat
  | None => Forall (fun x => subtitle_line x = false) (firstn n rest)
  end.
Proof.
  induction n as [|n IH]; intros rest j0; [constructor|].
  destruct rest as [|l rest]; [constructor|].
  cbn [find_subtitle firstn].
  fold (subtitle_line l). destruct (subtitle_line l) eqn:E.
  - exists 0%nat, l. repeat split; try lia; try exact E; constructor.
  - specialize (IH rest (S j0)).
    destruct (find_subtitle n (S j0) line rest) as [[j label]|].
    + destruct IH as (k & l' & Hk & Hn & Hs & Hf & Hl & Hj).
      exists (S k), l'. repeat split; try lia; auto. cbn [firstn]. now constructor.
    + now constructor.
Qed.

Lemma step_book_header st l rest :
  is_empty (trim l) = false -> is_noise (trim l) = false ->
  is_book_header (fixOcrErrors (trim l)) = true ->
  let st1 := fst (step st l rest) in
  currentSection st1 = currentSection st /\
  book_label_after (fixOcrErrors (trim l)) rest (currentBook st1) (snd (step st l rest)) /\
  mode st1 = Seeking /\ contentBuffer st1 = [] /\ currentMyth st1 = None /\
  Schwartz.myths st1 = flush st.
Proof.
  intros He Hn Hb. cbn zeta. unfold step. rewrite He, Hn, Hb.
  pose proof (find_subtitle_spec (fixOcrErrors (trim l)) 3 rest 1) as H.
  destruct (find_subtitle 3 1 (fixOcrErrors (trim l)) rest) as [[j label]|];
    cbn [fst snd currentSection currentBook mode contentBuffer currentMyth Schwartz.myths].
  - destruct H as (k & l' & Hk & Hnth & Hs & Hf & Hl & Hj).
    refine (conj eq_refl (conj _ (conj eq_refl (conj eq_refl (conj eq_refl eq_refl))))).
    left. exists k, l'. repeat split; auto.
  - refine (conj eq_refl (conj _ (conj eq_refl (conj eq_refl (conj eq_refl eq_refl))))).
    right. repeat split; auto.
Qed.

Lemma step_carries_quiet s0 old st l rest :
  carries s0 old st -> reads_as_section l = false ->
  carries s0 old (fst (step st l rest)).
Proof.
  intros H Hl.
  destruct (is_empty (trim l)) eqn:He.
  { unfold step. now rewrite He. }
  destruct (is_noise (trim l)) eqn:Hn.
  { unfold step. now rewrite He, Hn. }
  destruct (is_book_header (fixOcrErrors (trim l))) eqn:Hb.
  - destruct (step_book_header st l rest He Hn Hb) as (E1 & _ & _ & _ & E2 & E3).
    destruct H as (H1 & H2 & H3). split; [congruence|]. split.
    + intros m Hm. rewrite E2 in Hm. discriminate.
    + intros m Hm. rewrite E3 in Hm. eapply flush_carries; [|exact Hm].
      split; [exact H1|]. split; assumption.
  - apply step_carries; [exact H|].
    unfold reads_as_section in Hl. rewrite He, Hn, Hb in Hl. exact Hl.
Qed.

(** C2, as the code has it: a book header leaves the current section label
    as it was.  It saves the record in progress and opens none, empties the
    buffer, enters seeking mode and sets the book label: the header line,
    followed by the first subtitle among the next three lines when there is
    one, which the loop then passes over.  From then on, for as long as the
    loop body meets no line that reads as a section header, the label stays
    the one in force before the book header, and the record in progress and
    every record kept since carry that label. *)
Theorem book_header_keeps_section (st : State) (l : jsstring) (rest : list jsstring) :
  is_empty (trim l) = false ->
  is_noise (trim l) = false ->
  is_book_header (fixOcrErrors (trim l)) = true ->
  let st1 := fst (step st l rest) in
  let skip := snd (step st l rest) in
  currentSection st1 = currentSection st /\
  book_label_after (fixOcrErrors (trim l)) rest (currentBook st1) skip /\
  mode st1 = Seeking /\ contentBuffer st1 = [] /\ currentMyth st1 = None /\
  Schwartz.myths st1 = flush st /\
  (forall n,
     Forall (fun l' => reads_as_section l' = false) (visited_upto step n skip st1 rest) ->
     carries (currentSection st) (flush st) (run_upto step n skip st1 rest)) /\
  (Forall (fun l' => reads_as_section l' = false) (visited step skip st1 rest) ->
   forall m, In m (flush (run_lines step skip st1 rest)) ->
             In m (flush st) \/ section m = currentSection st).
Proof.
  intros He Hn Hb. cbn zeta.
  destruct (step_book_header st l rest He Hn Hb) as (E1 & E0 & Em & Eb & E2 & E3).
  assert (C0 : carries (currentSection st) (flush st) (fst (step st l rest))).
  { split; [exact E1|]. split; [intros m; rewrite E2; discriminate|].
    intros m; rewrite E3; auto. }
  assert (Hrun : forall n,
     Forall (fun l' => reads_as_section l' = false)
            (visited_upto step n (snd (step st l rest)) (fst (step st l rest)) rest) ->
     carries (currentSection st) (flush st)
       (run_upto step n (snd (step st l rest)) (fst (step st l rest)) rest)).
  { intros n Hok.
    apply (run_upto_invariant_visited step (carries (currentSection st) (flush st))
             (fun l' => reads_as_section l' = false)); auto.
    intros st' l' rest' Hc Hl'. now apply step_carries_quiet. }
  refine (conj E1 (conj E0 (conj Em (conj Eb (conj E2 (conj E3 (conj Hrun _))))))).
  intros Hall m Hm. rewrite <- run_upto_all in Hm.
  eapply flush_carries; [|exact Hm]. apply Hrun. exact Hall.
Qed.

(** *** Page numbers *)

Lemma trim_idempotent s : trim (trim s) = trim s.
Proof. destruct (trim_ends s). now apply trim_fixed. Qed.

Lemma replace_go_forallb (f : char -> bool) m rep s :
  forallb f rep = true -> forallb f s = true ->
  forall k, forallb f (replace_go m rep k s) = true.
Proof.
  intros Hrep. induction s as [|c s IH]; intros Hs k; [reflexivity|].
  cbn [forallb] in Hs. apply andb_true_iff in Hs as [Hc Hs].
  cbn [replace_go]. destruct k as [|k]; [|now apply IH].
  destruct (m (c :: s)).
  - rewrite forallb_app, Hrep. now apply IH.
  - cbn [forallb]. rewrite Hc. now apply IH.
Qed.

Lemma subst_forallb (f : char -> bool) (p q : string) s :
  forallb f (js q) = true -> forallb f s = true -> forallb f (subst p q s) = true.
Proof. intros Hq Hs. unfold subst, replace_all. now apply replace_go_forallb. Qed.

Lemma fixOcrErrors_no_m s : no_m s = true -> no_m (fixOcrErrors s) = true.
Proof.
  intros H. unfold fixOcrErrors, no_m.
  repeat (apply subst_forallb; [reflexivity|]). exact H.
Qed.

Lemma page_number_noise s : page_number s = true -> is_noise s = true.
Proof.
  unfold page_number, is_noise. intros H. now rewrite H.
Qed.

Lemma page_number_nonempty s : page_number s = true -> is_empty s = false.
Proof. destruct s; [discriminate | reflexivity]. Qed.

Lemma digit_not_m c : is_digit c = true -> ci_eqb 77 c = false.
Proof.
  unfold is_digit, ci_eqb, canon, is_lower. intros [H1 H2]%andb_true_iff.
  apply N.leb_le in H1, H2. change (if (97 <=? 77) && (77 <=? 122) then 77 - 32 else 77) with 77.
  destruct ((97 <=? c) && (c <=? 122)) eqn:E.
  - apply andb_true_iff in E as [E _]. apply N.leb_le in E. lia.
  - apply N.eqb_neq. lia.
Qed.

Lemma ci_eqb_trans a b c : ci_eqb a b = true -> ci_eqb b c = true -> ci_eqb a c = true.
Proof. unfold ci_eqb. rewrite !N.eqb_eq. congruence. Qed.

Lemma ci_eqb_sym a b : ci_eqb a b = ci_eqb b a.
Proof. unfold ci_eqb. apply N.eqb_sym. Qed.

Lemma roman_letter_not_m c :
  existsb (ci_eqb c) (js "ivxlc") = true -> ci_eqb 77 c = false.
Proof.
  intros [x [Hx E]]%existsb_exists.
  destruct (ci_eqb 77 c) eqn:K; [|reflexivity].
  pose proof (ci_eqb_trans _ _ _ K E) as T.
  cbn in Hx. destruct Hx as [<-|[<-|[<-|[<-|[<-|[]]]]]]; discriminate.
Qed.

Lemma page_number_no_m s : page_number s = true -> no_m s = true.
Proof.
  unfold page_number, digits_only, roman_letters_only, no_m.
  intros [[_ H]%andb_true_iff | [_ H]%andb_true_iff]%orb_true_iff;
    rewrite forallb_forall in *; intros c Hc; apply negb_true_iff.
  - now apply digit_not_m, H.
  - now apply roman_letter_not_m, H.
Qed.

Lemma subtitle_has_m t : is_book_subtitle t = true -> no_m t = false.
Proof.
  unfold is_book_subtitle. intros [H _]%andb_true_iff.
  destruct t as [|c t]; [discriminate|].
  change (js "MYTHS") with [77; 89; 84; 72; 83] in H. cbn [ci_starts_with] in H.
  apply andb_true_iff in H as [H _]. unfold no_m. cbn [forallb]. now rewrite H.
Qed.

Lemma page_number_not_subtitle s :
  page_number s = true -> is_book_subtitle (fixOcrErrors s) = false.
Proof.
  intros H. destruct (is_book_subtitle (fixOcrErrors s)) eqn:E; [|reflexivity].
  apply subtitle_has_m in E. rewrite fixOcrErrors_no_m in E; [discriminate|].
  now apply page_number_no_m.
Qed.

Lemma Forall2_skipn {A B} (R : A -> B -> Prop) n :
  forall l l', Forall2 R l l' -> Forall2 R (skipn n l) (skipn n l').
Proof.
  induction n as [|n IH]; intros l l' H; [exact H|].
  destruct H; cbn [skipn]; [constructor | now apply IH].
Qed.

Lemma find_subtitle_related n : forall j line rest rest',
  Forall2 same_but_page_numbers rest rest' ->
  find_subtitle n j line rest = find_subtitle n j line rest'.
Proof.
  induction n as [|n IH]; intros j line rest rest' H; [reflexivity|].
  destruct H as [|x y rest rest' Hxy H]; [reflexivity|].
  cbn [find_subtitle]. destruct Hxy as [<- | [Hx Hy]].
  - destruct (negb _ && _); [reflexivity | now apply IH].
  - rewrite (page_number_not_subtitle _ Hx), andb_false_r, Hy. cbn [is_empty negb andb].
    now apply IH.
Qed.

Lemma step_related st x y rest rest' :
  same_but_page_numbers x y -> Forall2 same_but_page_numbers rest rest' ->
  step st x rest = step st y rest'.
Proof.
  intros [<- | [Hx Hy]] H.
  - unfold step. now rewrite (find_subtitle_related 3 1 _ rest rest' H).
  - unfold step. rewrite Hy, (page_number_nonempty _ Hx), (page_number_noise _ Hx).
    reflexivity.
Qed.

Lemma run_lines_related ls ls' :
  Forall2 same_but_page_numbers ls ls' ->
  forall skip st, run_lines step skip st ls = run_lines step skip st ls'.
Proof.
  induction 1 as [|x y ls ls' Hxy H IH]; intros skip st; [reflexivity|].
  cbn [run_lines]. destruct skip as [|k]; [|apply IH].
  rewrite (step_related st x y ls ls' Hxy H).
  destruct (step st y ls') as [st' skip']. apply IH.
Qed.

Lemma find_book_one_related ls ls' :
  Forall2 same_but_page_numbers ls ls' ->
  forall i, find_book_one i ls = find_book_one i ls'.
Proof.
  induction 1 as [|x y ls ls' Hxy H IH]; intros i; [reflexivity|].
  cbn [find_book_one]. destruct Hxy as [<- | [Hx Hy]].
  - now rewrite IH.
  - rewrite Hy. cbn [str_eqb].
    destruct (str_eqb (trim x) (js "BOOK ONE")) eqn:E; [|apply IH].
    apply str_eqb_eq in E. rewrite E in Hx. discriminate.
Qed.

Lemma page_number_blanked_ok x y :
  page_number_blanked x y = true -> same_but_page_numbers x y.
Proof.
  unfold page_number_blanked, same_but_page_numbers.
  intros [H|[H1 H2]%andb_true_iff]%orb_true_iff.
  - left. now apply str_eqb_eq.
  - right. split; [exact H1 | now apply is_empty_true].
Qed.

Lemma trimmed_related ls ls' :
  Forall2 same_but_page_numbers ls ls' ->
  Forall2 same_but_page_numbers (map trim ls) (map trim ls').
Proof.
  induction 1 as [|x y ls ls' Hxy H IH]; cbn [map]; constructor; [|exact IH].
  destruct Hxy as [<- | [Hx Hy]]; [now left | right].
  now rewrite !trim_idempotent.
Qed.

Lemma parseSchwartzFile_related content content' :
  Forall2 same_but_page_numbers (split_on 10 content) (split_on 10 content') ->
  parseSchwartzFile content = parseSchwartzFile content'.
Proof.
  intros H. apply trimmed_related in H. unfold parseSchwartzFile.
  set (a := map trim (split_on 10 content)) in *.
  set (b := map trim (split_on 10 content')) in *.
  assert (E : contentStart a = contentStart b).
  { unfold contentStart. apply find_book_one_related. now apply Forall2_skipn. }
  rewrite E. destruct (contentStart b =? 0)%nat; [reflexivity|].
  unfold drafts. rewrite E.
  now rewrite (run_lines_related _ _ (Forall2_skipn _ (contentStart b) _ _ H)).
Qed.

(** In [numbered_pages] the line 1234 becomes the chapter label and the line
    xiv becomes part of the content of the record. *)

(** *** Where the text of a record comes from *)

(** As [run_lines_invariant], for a body that may also use the lines it
    looks ahead at. *)
Lemma run_lines_invariant_ahead {St} (step : St -> jsstring -> list jsstring -> St * nat)
    (Q : St -> Prop) (ok : jsstring -> Prop) :
  (forall st l rest, Q st -> ok l -> Forall ok rest -> Q (fst (step st l rest))) ->
  forall lines skip st, Forall ok lines -> Q st -> Q (run_lines step skip st lines).
Proof.
  intros Hstep. induction lines as [|l rest IH]; intros skip st Hok HQ; [exact HQ|].
  inversion Hok as [|? ? Hl Hrest]; subst.
  cbn [run_lines]. destruct skip as [|k]; [|now apply IH].
  pose proof (Hstep st l rest HQ Hl Hrest) as H.
  destruct (step st l rest) as [st' skip']. now apply IH.
Qed.

Section Origins.
Variable F : list jsstring.

Lemma buffered_from md buf :
  (forall e, In e buf -> In (snd e) F) -> text_from F (buffered md buf).
Proof.
  intros H. unfold buffered. eexists. split; [|reflexivity].
  intros t Ht. apply in_map_iff in Ht as [e [<- He]].
  apply filter_In in He as [He _]. now apply H.
Qed.

Lemma flush_from st : origins_ok F st -> Forall (draft_from F) (flush st).
Proof.
  intros (H1 & _ & _ & H4 & H5). unfold flush.
  destruct (currentMyth st) as [m|]; [|exact H1].
  destruct (50 <? _)%nat; [|exact H1].
  apply Forall_app. split; [exact H1|]. constructor; [|constructor].
  split; [exact (H4 m eq_refl)|]. cbn [set_text content commentary].
  split; now apply buffered_from.
Qed.

Lemma find_subtitle_from n : forall j line rest k label,
  In line F -> Forall (fixed_in F) rest ->
  find_subtitle n j line rest = Some (k, label) ->
  exists t', In t' F /\ label = line ++ js ": " ++ lowerTail t'.
Proof.
  induction n as [|n IH]; intros j line rest k label Hl Hrest; [discriminate|].
  destruct rest as [|l' rest]; [discriminate|].
  inversion Hrest as [|? ? H1 H2]; subst. cbn [find_subtitle].
  destruct (negb _ && _).
  - intros E. injection E as <- <-. eexists. split; [exact H1 | reflexivity].
  - now apply IH.
Qed.

Lemma step_from st l rest :
  origins_ok F st -> fixed_in F l -> Forall (fixed_in F) rest ->
  origins_ok F (fst (step st l rest)).
Proof.
  intros H Hl Hrest. pose proof (flush_from st H) as Hf.
  pose proof H as (H1 & H2 & H3 & H4 & H5).
  unfold step. destruct (is_empty (trim l)); [exact H|].
  destruct (is_noise (trim l)); [exact H|].
  set (line := fixOcrErrors (trim l)) in *.
  assert (Hclosed : forall bk sec, book_from F bk -> section_from F sec ->
            origins_ok F {| Schwartz.myths := flush st; currentBook := bk;
                          currentSection := sec; currentMyth := None;
                          contentBuffer := []; mode := Seeking |}).
  { intros bk sec Hbk Hsec. refine (conj Hf (conj Hbk (conj Hsec (conj _ _)))); cbn.
    - discriminate.
    - intros e []. }
  destruct (is_book_header line).
  { destruct (find_subtitle 3 1 line rest) as [[j label]|] eqn:E; cbn [fst];
      (apply Hclosed; [|exact H3]).
    - destruct (find_subtitle_from _ _ _ _ _ _ Hl Hrest E) as [t' [Ht' ->]].
      right. exists line. split; [exact Hl|]. right. eauto.
    - right. exists line. split; [exact Hl | now left]. }
  destruct (is_section_header st line).
  { apply Hclosed; [exact H2|]. right. exists line. split; [exact Hl | reflexivity]. }
  destruct (myth_match line) as [[num ttl]|] eqn:E.
  { refine (conj Hf (conj H2 (conj H3 (conj _ _)))); cbn.
    - intros m Hm. injection Hm as <-. split; [|split; assumption].
      exists line, num, ttl. auto.
    - intros e []. }
  destruct (block_header _ line); [exact H|].
  destruct (block_header _ line); [exact H|].
  cbn [fst]. unfold buffer_line.
  destruct (currentMyth st) as [m|] eqn:Em; [|exact H].
  destruct (mode st); try exact H.
  - refine (conj H1 (conj H2 (conj H3 (conj _ _)))); cbn.
    + intros m' Hm'. injection Hm' as <-. now apply H4.
    + intros e [He | [<- | []]]%in_app_or; [now apply H5 | exact Hl].
  - refine (conj H1 (conj H2 (conj H3 (conj _ _)))); cbn.
    + intros m' Hm'. injection Hm' as <-. now apply H4.
    + intros e [He | [<- | []]]%in_app_or; [now apply H5 | exact Hl].
  - refine (conj H1 (conj H2 (conj H3 (conj _ H5)))); cbn.
    intros m' Hm'. injection Hm' as <-. now apply (H4 m).
Qed.

Lemma drafts_from lines :
  Forall (fixed_in F) lines -> Forall (draft_from F) (drafts lines).
Proof.
  intros H. unfold drafts. apply flush_from.
  apply (run_lines_invariant_ahead step (origins_ok F) (fixed_in F)).
  - intros st l rest. apply step_from.
  - apply Forall_forall. intros l Hl. rewrite Forall_forall in H. apply H.
    rewrite <- (firstn_skipn (contentStart lines) lines). apply in_or_app. now right.
  - refine (conj (Forall_nil _) (conj _ (conj _ (conj _ _)))); cbn.
    + now left.
    + now left.
    + discriminate.
    + intros e [].
Qed.

End Origins.

(** C8, as the code has it: the Source-A segmenter passes every line
    through [fixOcrErrors] before it uses it; the title, the book label, the
    section label, the content and the commentary of each of its records
    are built from lines in that form. *)
Theorem schwartz_lines_are_fixed (document : jsstring) :
  Forall (made_of_fixed_lines (fixed_lines document)) (snd (parseSchwartzFile document)).
Proof.
  destruct (parse_records document) as [-> | ->]; [constructor|].
  assert (H : Forall (draft_from (fixed_lines document))
                (drafts (map trim (split_on 10 document)))).
  { apply drafts_from. apply Forall_forall. intros l Hl.
    unfold fixed_in, fixed_lines.
    apply (in_map (fun l => fixOcrErrors (trim l))). exact Hl. }
  rewrite Forall_forall in *. intros m Hm. apply in_map_iff in Hm as [d [<- Hd]].
  destruct (H d Hd) as ((T & B & S) & (ts & Hts & Ec) & (ks & Hks & Ek)).
  unfold made_of_fixed_lines, finalize. cbn [title book section content commentary].
  repeat split; auto.
  - exists ts. split; [exact Hts | now rewrite Ec].
  - exists ks. split; [exact Hks | now rewrite Ek].
Qed.

(** Even in Source-A the misread word can come back after the fix, when
    [cleanText] closes a hyphenation gap. *)
Lemma hyphenation_can_restore_misreading :
  fixOcrErrors (js "CO- D") = js "CO- D" /\ cleanText (js "CO- D") = js "COD".
Proof. split; reflexivity. Qed.

(** The misread word of [misread_document] is in the content of its record. *)

End Facts.

(** *** Concrete runs *)

(** The lead-in line of [commentary_lines], met after its three lines of
    content. *)
Lemma commentary_switch_witness :
  mode (fst (@step ascii_case (run_upto (@step ascii_case) 5 0 init commentary_lines)
               (js "This myth tells of the light of the first day.")
               [js "While the sages differ about where it was hidden, all agree that it was hidden."]))
  = Commentary.
Proof.
  refine (proj2 (proj1 (proj1 (@commentary_switch ascii_case) _ _ _
            (@new_myth ascii_case (run_upto (@step ascii_case) 1 0 init commentary_lines)
               (js "1") (js "THE FIRST LIGHT")) _ _ _)) _).
  - vm_compute. reflexivity.
  - vm_compute. reflexivity.
  - repeat split; vm_compute; reflexivity.
  - repeat split; try (vm_compute; reflexivity). vm_compute. lia.
Defined.

(** The record of [commentary_document]. *)
Example commentary_document_record :
  fst (@parseSchwartzFile ascii_case commentary_document) = [ContentStartsAt (N.to_nat 6000)] /\
  map (fun m => (title m, content m, commentary m))
      (snd (@parseSchwartzFile ascii_case commentary_document))
  = [(js "The First Light",
      js "In the beginning the Holy One wrapped Himself in a garment of light, and the light of that garment shone from one end of the world to the other. That light was not the light of the sun or of the moon, for those were not made until the fourth day, but a light that was made on the first. And when the Holy One saw the deeds of the generations to come, He hid that light away for the righteous in the time that is to come.",
      js "This myth tells of the light of the first day. While the sages differ about where it was hidden, all agree that it was hidden.")].
Proof. split; vm_compute; reflexivity. Qed.

(** An all-capitals line is taken by the section-header branch before the
    heuristic is reached, also when it starts with a lead-in phrase. *)
Example capital_lead_in_is_a_header :
  let st := fst (@step ascii_case (run_upto (@step ascii_case) 5 0 init commentary_lines)
                   (js "THIS IS THE END") []) in
  mode st = Seeking /\ currentSection st = js "This Is The End" /\ currentMyth st = None.
Proof. vm_compute. repeat split. Qed.

Lemma section_survives_book_header :
  exists m, In m (snd (@parseSchwartzFile ascii_case two_books)) /\
            title m = js "The Seven Heavens" /\ book m = js "BOOK TWO" /\
            section m = js "The Hidden Light" /\ section m <> [].
Proof.
  eexists. split; [vm_compute; left; reflexivity|].
  repeat split. discriminate.
Qed.

(** The state [after_first_section] is the one the loop is in after a book
    header and a section header. *)
Example after_first_section_reached :
  run_lines (@step ascii_case) 0 init [js "BOOK ONE"; js "THE HIDDEN LIGHT"] = after_first_section.
Proof. vm_compute. reflexivity. Qed.

(** The header BOOK TWO met in that state, followed by [second_book_lines]. *)
Lemma book_header_keeps_section_witness :
  carries (js "The Hidden Light") []
    (run_upto (@step ascii_case) 8
       (snd (@step ascii_case after_first_section (js "BOOK TWO") second_book_lines))
       (fst (@step ascii_case after_first_section (js "BOOK TWO") second_book_lines))
       second_book_lines).
Proof.
  refine (proj1 (proj2 (proj2 (proj2 (proj2 (proj2 (proj2
    (@book_header_keeps_section ascii_case after_first_section (js "BOOK TWO")
       second_book_lines _ _ _))))))) 8%nat _).
  - reflexivity.
  - reflexivity.
  - reflexivity.
  - apply Forall_false_check. vm_compute. reflexivity.
Defined.

(** The subtitle is passed over, and both records carry the section of
    the first book. *)
Example second_book_records :
  let s := @step ascii_case after_first_section (js "BOOK TWO") second_book_lines in
  snd s = 1%nat /\
  map (fun m => (title m, book m, section m))
      (flush (run_lines (@step ascii_case) (snd s) (fst s) second_book_lines))
  = [(js "The Seven Heavens", js "BOOK TWO: Myths Of Heaven", js "The Hidden Light");
     (js "The First Light", js "BOOK THREE: Myths About Creation", js "The Hidden Light")].
Proof. split; vm_compute; reflexivity. Qed.

End SchwartzFacts.

(** ** The Source-B segmenter *)

Module GinzbergFacts.
Import Ginzberg GinzbergSpec.

Section Facts.
Context {cm : CaseMapping}.
Variable volume : nat.

(** *** Minimum content length *)

Lemma ginzberg_step_myths st l rest :
  Ginzberg.myths (fst (step volume st l rest)) = Ginzberg.myths st \/
  Ginzberg.myths (fst (step volume st l rest)) = flush st.
Proof.
  unfold step. destruct (is_empty (trim l)); [now left|].
  destruct (digits_only (trim l)); [now left|].
  destruct (romanPattern _).
  { destruct (find_chapter_title _ _ _ _) as [[j label]|]; now right. }
  destruct (is_section_header _ _); [now right|].
  destruct (currentMyth st); [|now left].
  destruct (is_empty _); now left.
Qed.

Lemma ginzberg_step_currentMyth st l rest :
  currentMyth (fst (step volume st l rest)) = None \/
  currentMyth (fst (step volume st l rest)) = Some (new_myth volume st (trim l)) \/
  currentMyth (fst (step volume st l rest)) = currentMyth st.
Proof.
  unfold step. destruct (is_empty (trim l)); [now (right; right)|].
  destruct (digits_only (trim l)); [now (right; right)|].
  destruct (romanPattern _).
  { destruct (find_chapter_title _ _ _ _) as [[j label]|]; now left. }
  destruct (is_section_header _ _); [now (right; left)|].
  destruct (currentMyth st) eqn:E; [|now left].
  destruct (is_empty _); right; right; [exact E | reflexivity].
Qed.

Lemma ginzberg_flush_ok st : ginzberg_state_ok volume st -> Forall (ginzberg_kept volume) (flush st).
Proof.
  intros [H1 H2]. unfold flush. destruct (currentMyth st) as [m|]; [|exact H1].
  destruct (contentBuffer st); [exact H1|].
  destruct (100 <? _)%nat eqn:E; [|exact H1].
  apply Forall_app. split; [exact H1|]. constructor; [|constructor].
  split; [now apply Nat.ltb_lt in E | cbn; now apply H2].
Qed.

Lemma ginzberg_step_ok st l rest : ginzberg_state_ok volume st -> ginzberg_state_ok volume (fst (step volume st l rest)).
Proof.
  intros H. split.
  - destruct (ginzberg_step_myths st l rest) as [-> | ->]; [apply H | now apply ginzberg_flush_ok].
  - intros m Hm.
    destruct (ginzberg_step_currentMyth st l rest) as [K|[K|K]]; rewrite K in Hm.
    + discriminate.
    + injection Hm as <-. reflexivity.
    + now apply H.
Qed.

Lemma ginzberg_drafts_ok lines : Forall (ginzberg_kept volume) (drafts volume lines).
Proof.
  unfold drafts. apply ginzberg_flush_ok.
  apply (run_lines_invariant (step volume) (ginzberg_state_ok volume) (fun _ => True)).
  - intros st l rest H _. now apply ginzberg_step_ok.
  - apply Forall_forall. auto.
  - split; [constructor | discriminate].
Qed.

(** *** Where the text of a Source-B record comes from *)

Section Pieces.
Variable G : list jsstring.

Lemma ginzberg_flush_pieces st :
  pieces_ok G st ->
  Forall (fun m => section_title_from G m /\
                   exists ts, Forall (piece_from G) ts /\ content m = join (js " ") ts)
         (flush st).
Proof.
  intros (H1 & H2 & H3). unfold flush.
  destruct (currentMyth st) as [m|]; [|exact H1].
  destruct (contentBuffer st) as [|x buf] eqn:E; [exact H1|].
  destruct (100 <? _)%nat; [|exact H1].
  apply Forall_app. split; [exact H1|]. constructor; [|constructor].
  split; [exact (H2 m eq_refl)|]. exists (x :: buf). split; [exact H3 | reflexivity].
Qed.

Lemma ginzberg_step_pieces st l rest :
  pieces_ok G st -> kept_line G l -> pieces_ok G (fst (step volume st l rest)).
Proof.
  intros H Hl. pose proof (ginzberg_flush_pieces st H) as Hf.
  pose proof H as (H1 & H2 & H3).
  unfold step. destruct (is_empty (trim l)); [exact H|].
  destruct (digits_only (trim l)) eqn:Ed; [exact H|].
  specialize (Hl Ed).
  destruct (romanPattern _).
  { destruct (find_chapter_title _ _ _ _) as [[j label]|]; cbn [fst];
      (refine (conj Hf (conj _ (Forall_nil _))); cbn; discriminate). }
  destruct (is_section_header _ _).
  { refine (conj Hf (conj _ (Forall_nil _))); cbn.
    intros m Hm. injection Hm as <-. exists (trim l). split; [exact Hl | reflexivity]. }
  destruct (currentMyth st) as [m|] eqn:Em; [|exact H].
  destruct (is_empty _); [exact H|].
  refine (conj H1 (conj _ _)); cbn.
  - intros m' Hm'. injection Hm' as <-. now apply H2.
  - apply Forall_app. split; [exact H3|]. constructor; [|constructor].
    exists (trim l). split; [exact Hl | reflexivity].
Qed.

Lemma ginzberg_drafts_pieces lines :
  Forall (kept_line G) lines ->
  Forall (fun m => section_title_from G m /\
                   exists ts, Forall (piece_from G) ts /\ content m = join (js " ") ts)
         (drafts volume lines).
Proof.
  intros H. unfold drafts. apply ginzberg_flush_pieces.
  apply (run_lines_invariant (step volume) (pieces_ok G) (kept_line G)).
  - intros st l rest. apply ginzberg_step_pieces.
  - apply Forall_forall. intros l Hl. rewrite Forall_forall in H. apply H.
    rewrite <- (firstn_skipn (contentStart lines) lines). apply in_or_app. now right.
  - refine (conj (Forall_nil _) (conj _ (Forall_nil _))). discriminate.
Qed.

End Pieces.

Lemma ginzberg_records_from_text_lines document :
  Forall (made_of_text_lines (text_lines document))
         (snd (parseGinzbergFile document volume)).
Proof.
  unfold parseGinzbergFile. cbn [snd].
  assert (H : Forall (kept_line (text_lines document)) (map trim (split_on 10 document))).
  { apply Forall_forall. intros l Hl Hd. unfold text_lines.
    apply filter_In. split; [now apply in_map | now rewrite Hd]. }
  pose proof (ginzberg_drafts_pieces _ _ H) as K.
  rewrite Forall_forall in *. intros m Hm. apply in_map_iff in Hm as [d [<- Hd]].
  destruct (K d Hd) as [T [ts [Hts Ec]]]. split; [exact T|].
  exists ts. split; [exact Hts|]. cbn. now rewrite Ec.
Qed.

End Facts.
End GinzbergFacts.

(** ** The records of both sources *)

(** C1, as the code has it: every record of the output comes from a draft
    whose content, before [cleanText], is longer than 50 code units for
    Source-A and 100 for Source-B; a draft that is not longer is not kept.
    The content of the record is [cleanText] of the draft's. *)
Theorem content_minimum_before_cleaning {cm : CaseMapping} :
  (forall content,
     Forall (from_draft Schwartz.finalize 50 (js "schwartz")
               (Schwartz.drafts (map trim (split_on 10 content))))
            (snd (Schwartz.parseSchwartzFile content))) /\
  (forall content volume,
     Forall (from_draft Ginzberg.finalize 100
               (js "ginzberg-v" ++ Ginzberg.number_to_string volume)
               (Ginzberg.drafts volume (map trim (split_on 10 content))))
            (snd (Ginzberg.parseGinzbergFile content volume))) /\
  Ginzberg.number_to_string 1 = js "1" /\ Ginzberg.number_to_string 2 = js "2".
Proof.
  split; [|split; [|split; reflexivity]].
  - intros content. destruct (SchwartzFacts.parse_records content) as [-> | ->]; [constructor|].
    pose proof (SchwartzFacts.drafts_ok (map trim (split_on 10 content))) as H.
    rewrite Forall_forall in *. intros m Hm. apply in_map_iff in Hm as [d [<- Hd]].
    destruct (H d Hd) as [H1 H2]. exists d. repeat split; auto.
  - intros content volume. unfold Ginzberg.parseGinzbergFile. cbn [snd].
    pose proof (GinzbergFacts.ginzberg_drafts_ok volume (map trim (split_on 10 content))) as H.
    rewrite Forall_forall in *. intros m Hm. apply in_map_iff in Hm as [d [<- Hd]].
    destruct (H d Hd) as [H1 H2]. exists d. repeat split; auto.
Qed.

(** The record of [sparse_document] is kept with 62 code units of content,
    of which [cleanText] leaves 3. *)
Lemma content_minimum_after_cleaning_fails :
  exists m, In m (snd (@Schwartz.parseSchwartzFile ascii_case sparse_document)) /\
            sourceWork m = js "schwartz" /\ content m = js "a b" /\
            ~ (50 < length (content m))%nat.
Proof.
  eexists. split; [vm_compute; left; reflexivity|].
  split; [reflexivity|]. split; [reflexivity|]. cbn. lia.
Qed.

(** The replacement applied to the matched book name looks for a backslash
    followed by another code unit.  No book name has a backslash, so the
    name is kept whole, full stop included. *)
Lemma no_backslash_fixed s :
  forallb (fun c => negb (c =? 92)) s = true -> replace_all backslash_any [] s = s.
Proof.
  induction s as [|c s IH]; [reflexivity|]. cbn [forallb].
  intros [Hc Hs]%andb_true_iff. rewrite replace_all_cons.
  assert (E : backslash_any (c :: s) = None).
  { apply negb_true_iff, N.eqb_neq in Hc. unfold backslash_any.
    destruct c as [|p]; [reflexivity|].
    do 7 (destruct p as [p|p|]; try reflexivity). contradiction. }
  now rewrite E, IH.
Qed.

Lemma ci_prefix_no_backslash b : forall s,
  forallb (fun x => negb (canon x =? 92)) b = true ->
  ci_starts_with b s = true ->
  forallb (fun c => negb (c =? 92)) (firstn (length b) s) = true.
Proof.
  induction b as [|x b IH]; intros s Hb Hs; [reflexivity|].
  destruct s as [|y s]; [discriminate|].
  cbn [forallb ci_starts_with length firstn] in *.
  apply andb_true_iff in Hb as [Hx Hb]. apply andb_true_iff in Hs as [Hxy Hs].
  rewrite (IH s Hb Hs), andb_true_r.
  apply negb_true_iff, N.eqb_neq. intros ->.
  unfold ci_eqb in Hxy. apply N.eqb_eq in Hxy. change (canon 92) with 92 in Hxy.
  rewrite Hxy, N.eqb_refl in Hx. discriminate.
Qed.

Lemma matched_book_is_kept_whole s m :
  biblical_match s = Some m -> replace_all backslash_any [] (g_book m) = g_book m.
Proof.
  unfold biblical_match. destruct (find _ BIBLICAL_BOOKS) as [b|] eqn:E; [|discriminate].
  apply find_some in E as [Hb Hs].
  destruct (match drop_while is_digit (drop_while is_space (skipn (length b) s)) with
            | [] => _ | _ :: _ => _ end) as [nsep r4].
  intros K. injection K as <-. cbn [g_book].
  apply no_backslash_fixed, ci_prefix_no_backslash; [|exact Hs].
  assert (A : forallb (fun b => forallb (fun x => negb (canon x =? 92)) b) BIBLICAL_BOOKS = true)
    by (vm_compute; reflexivity).
  rewrite forallb_forall in A. now apply A.
Qed.

(** C3: the citation of a match on an abbreviated book name keeps the
    full stop of the abbreviation. *)
Theorem abbreviation_keeps_full_stop :
  extractBiblicalReferences (js "Gen. 1:1") = [js "Gen. 1:1"] /\
  extractBiblicalReferences (js "see Isa. 6:3-4 and Ps. 8") = [js "Isa. 6:3-4"; js "Ps. 8"].
Proof. split; reflexivity. Qed.

(** Source-A, for its part, stops with a warning and no record when no
    line from 6000 on reads BOOK ONE. *)
Lemma schwartz_without_marker {cm : CaseMapping} (document : jsstring) :
  Forall (fun l => trim l <> js "BOOK ONE")
         (skipn Schwartz.SEARCH_FROM (map trim (split_on 10 document))) ->
  Schwartz.parseSchwartzFile document = ([WarnNoContentStart], []).
Proof.
  intros H. unfold Schwartz.parseSchwartzFile, Schwartz.contentStart.
  assert (E : forall ls i, Forall (fun l => trim l <> js "BOOK ONE") ls ->
                           Schwartz.find_book_one i ls = 0%nat).
  { induction ls as [|l ls IH]; intros i Hls; [reflexivity|].
    inversion Hls as [|? ? H1 H2]; subst. cbn [Schwartz.find_book_one].
    destruct (str_eqb (trim l) (js "BOOK ONE")) eqn:K; [|now apply IH].
    apply str_eqb_eq in K. contradiction. }
  now rewrite (E _ _ H).
Qed.

(** C5: on a document in which the start of the content is not found,
    Source-B logs that the content starts at line 0 and segments the
    document from its first line; here it returns a record. *)
Theorem ginzberg_without_marker_starts_at_top :
  @Ginzberg.contentStart ascii_case (map trim (split_on 10 unmarked_document)) = 0%nat /\
  fst (@Ginzberg.parseGinzbergFile ascii_case unmarked_document 1) = [ContentStartsAt 0] /\
  map title (snd (@Ginzberg.parseGinzbergFile ascii_case unmarked_document 1))
    = [js "The First Section"].
Proof. repeat split; vm_compute; reflexivity. Qed.

(** C9: in every record of either source the themes and the biblical
    references are free of duplicates, adding a member to either set again
    changes nothing, and the themes are among the 18 of the taxonomy. *)
Theorem annotations_deduplicated {cm : CaseMapping} :
  (forall x s, set_add x (set_add x s) = set_add x s) /\
  length THEMES = 18%nat /\ NoDup THEMES /\
  (forall content, Forall annotations_ok (snd (Schwartz.parseSchwartzFile content))) /\
  (forall content volume,
     Forall annotations_ok (snd (Ginzberg.parseGinzbergFile content volume))).
Proof.
  split; [apply set_add_idempotent|]. split; [reflexivity|]. split.
  { vm_compute. repeat (constructor; [cbn [In]; intuition discriminate|]). constructor. }
  assert (Hfin : forall (f : Myth -> Myth) (l : list Myth),
            (forall d, exists t1 t2, biblicalReferences (f d) = extractBiblicalReferences t1 /\
                                     themes (f d) = extractThemes t2) ->
            Forall annotations_ok (map f l)).
  { intros f l Hf. apply Forall_forall. intros m Hm.
    apply in_map_iff in Hm as [d [<- _]]. destruct (Hf d) as (t1 & t2 & E1 & E2).
    unfold annotations_ok. rewrite E1, E2.
    destruct (extractThemes_spec t2). auto using extractBiblicalReferences_NoDup. }
  split.
  - intros content. destruct (SchwartzFacts.parse_records content) as [-> | ->]; [constructor|].
    apply Hfin. intros d. eexists _, _. split; reflexivity.
  - intros content volume. unfold Ginzberg.parseGinzbergFile. cbn [snd].
    apply Hfin. intros d. eexists _, _. split; reflexivity.
Qed.

(** ** The assembled corpus *)

Lemma Sorted_weaken {A} (R R' : A -> A -> Prop) l :
  (forall a b, R a b -> R' a b) -> Sorted R l -> Sorted R' l.
Proof.
  intros H. induction 1 as [|x l Hs IH Hd]; constructor; auto.
  destruct Hd; constructor; auto.
Qed.

Lemma tally_ok ms : table_ok (fst (tally ms)) /\ table_ok (snd (tally ms)).
Proof. apply tally_from_ok. split; apply table_ok_nil. Qed.

Lemma main_database {cm : CaseMapping} now a b c :
  snd (main now a b c) =
  assemble now (snd (Schwartz.parseSchwartzFile a))
    (snd (Ginzberg.parseGinzbergFile b 1)) (snd (Ginzberg.parseGinzbergFile c 2)).
Proof.
  unfold main. destruct (Schwartz.parseSchwartzFile a), (Ginzberg.parseGinzbergFile b 1),
    (Ginzberg.parseGinzbergFile c 2). reflexivity.
Qed.

(** C7: the theme filter lists, once each, exactly the themes counted at
    least once, which are the themes some record carries, none before a
    more frequent one; the book filter lists, once each, exactly the book
    labels counted at least once, which are the labels some record carries,
    in the order of their code units. *)
Theorem filter_options_match_stats {cm : CaseMapping} (now a b c : jsstring) :
  let db := snd (main now a b c) in
  let counted := stats (metadata db) in
  let options := filterOptions (metadata db) in
  (NoDup (FilterOptions.themes options) /\
   (forall t, In t (FilterOptions.themes options) <-> (0 < lookup t (Stats.themes counted))%nat) /\
   (forall t, (0 < lookup t (Stats.themes counted))%nat <->
              exists m, In m (myths db) /\ In t (themes m)) /\
   StronglySorted
     (fun x y => (lookup y (Stats.themes counted) <= lookup x (Stats.themes counted))%nat)
     (FilterOptions.themes options)) /\
  (NoDup (FilterOptions.books options) /\
   (forall k, In k (FilterOptions.books options) <-> (0 < lookup k (Stats.books counted))%nat) /\
   (forall k, (0 < lookup k (Stats.books counted))%nat <->
              k <> [] /\ exists m, In m (myths db) /\ book m = k) /\
   StronglySorted (fun x y => str_leb x y = true) (FilterOptions.books options)).
Proof.
  cbn zeta. rewrite main_database.
  set (s := snd (Schwartz.parseSchwartzFile a)).
  set (g1 := snd (Ginzberg.parseGinzbergFile b 1)).
  set (g2 := snd (Ginzberg.parseGinzbergFile c 2)).
  unfold assemble. cbn [metadata stats filterOptions myths Stats.themes Stats.books
    FilterOptions.themes FilterOptions.books].
  set (all := s ++ g1 ++ g2).
  destruct (tally_ok all) as [[Hn1 Hk1] [Hn2 Hk2]].
  split; repeat split.
  - eapply Permutation_NoDup; [symmetry; apply sort_by_perm | exact Hn1].
  - intros H. apply Hk1. eapply Permutation_in; [apply sort_by_perm | exact H].
  - intros H. eapply Permutation_in; [symmetry; apply sort_by_perm | now apply Hk1].
  - intros H. apply (tally_from_themes all ([], []) t) in H as [H|H]; [cbn in H; lia | exact H].
  - intros H. apply (tally_from_themes all ([], []) t). now right.
  - apply Sorted_StronglySorted; [intros x y z; lia|].
    eapply Sorted_weaken; [|apply sort_by_sorted, by_count_desc_total].
    intros x y H. now apply Nat.leb_le in H.
  - eapply Permutation_NoDup; [symmetry; apply sort_by_perm | exact Hn2].
  - intros H. apply Hk2. eapply Permutation_in; [apply sort_by_perm | exact H].
  - intros H. eapply Permutation_in; [symmetry; apply sort_by_perm | now apply Hk2].
  - apply (tally_from_books all ([], []) k) in H as [H|H]; [cbn in H; lia | apply H].
  - apply (tally_from_books all ([], []) k) in H as [H|H]; [cbn in H; lia | apply H].
  - intros H. apply (tally_from_books all ([], []) k). now right.
  - apply Sorted_StronglySorted; [exact str_leb_trans|].
    apply sort_by_sorted, str_leb_total.
Qed.

(** The filters of the corpus made of [two_books], [misread_document] and
    [numbered_pages]. *)
Example small_corpus_filters :
  let db := snd (@main ascii_case [] two_books misread_document numbered_pages) in
  FilterOptions.themes (filterOptions (metadata db))
    = [js "heaven"; js "adam-eve"; js "creation"; js "noah"; js "torah"] /\
  FilterOptions.books (filterOptions (metadata db))
    = [js "BOOK TWO"; js "I. 1234"; js "I. The Creation Of The World"].
Proof. split; vm_compute; reflexivity. Qed.

(** ** Page numbers in both sources *)

(** C4, as the code has it: for Source-A a line of digits only, or of the
    letters i, v, x, l, c only, in either case, is to the whole parser what
    a blank line is; for Source-B the loop body passes over a line of digits
    only without changing anything, and the title and each buffered line of
    every record come from lines that are not made of digits only. *)
Theorem page_numbers_are_skipped {cm : CaseMapping} :
  (forall document document',
     Forall2 SchwartzSpec.same_but_page_numbers
       (split_on 10 document) (split_on 10 document') ->
     Schwartz.parseSchwartzFile document = Schwartz.parseSchwartzFile document') /\
  (forall volume st l rest,
     digits_only (trim l) = true -> Ginzberg.step volume st l rest = (st, 0%nat)) /\
  (forall document volume,
     Forall (GinzbergSpec.made_of_text_lines (GinzbergSpec.text_lines document))
            (snd (Ginzberg.parseGinzbergFile document volume))).
Proof.
  split; [exact SchwartzFacts.parseSchwartzFile_related|]. split.
  - intros volume st l rest H. unfold Ginzberg.step. rewrite H.
    destruct (trim l); [discriminate | reflexivity].
  - intros document volume. apply GinzbergFacts.ginzberg_records_from_text_lines.
Qed.

(** The page numbers of [paged_document] blanked out, and a line of digits
    met by the loop of Source-B inside a section. *)
Lemma page_numbers_are_skipped_witness :
  @Schwartz.parseSchwartzFile ascii_case paged_document
    = @Schwartz.parseSchwartzFile ascii_case unpaged_document /\
  @Ginzberg.step ascii_case 1 open_section (js " 1234 ")
     [js "The Torah was written with black fire on white fire."] = (open_section, 0%nat).
Proof.
  split.
  - apply (proj1 (@page_numbers_are_skipped ascii_case)).
    apply (lines_agree_Forall2 SchwartzSpec.page_number_blanked).
    + exact SchwartzFacts.page_number_blanked_ok.
    + vm_compute. reflexivity.
  - apply (proj1 (proj2 (@page_numbers_are_skipped ascii_case))). reflexivity.
Defined.

(** The record of [paged_document]. *)
Example paged_document_record :
  fst (@Schwartz.parseSchwartzFile ascii_case paged_document) = [ContentStartsAt (N.to_nat 6001)] /\
  map (fun m => (title m, book m, content m))
      (snd (@Schwartz.parseSchwartzFile ascii_case paged_document))
  = [(js "The Void", js "BOOK ONE: Myths Of God",
      js "Before the world was made there was nothing but the void, and the void had no end. Then a point of light broke through the void.")].
Proof. split; vm_compute; reflexivity. Qed.

(** In the state [open_section] a line of text is buffered, also when it is
    a lower-case numeral. *)
Example open_section_buffers_text :
  Ginzberg.contentBuffer open_section
    = [js "In the beginning, two thousand years before the heaven and the earth, seven things were created."] /\
  Ginzberg.contentBuffer
    (fst (@Ginzberg.step ascii_case 1 open_section (js " xiv ") []))
    = [js "In the beginning, two thousand years before the heaven and the earth, seven things were created.";
       js "xiv"].
Proof. split; vm_compute; reflexivity. Qed.

(** ** Source-B keeps what Source-A drops *)

Lemma ginzberg_keeps_page_numbers :
  exists m, In m (snd (@Ginzberg.parseGinzbergFile ascii_case numbered_pages 1)) /\
    book m = js "I. 1234" /\
    content m = js "In the beginning, two thousand years before the heaven and the earth, seven things were created. xiv The Torah was written with black fire on white fire.".
Proof.
  eexists. split; [vm_compute; left; reflexivity|]. split; reflexivity.
Qed.

Lemma ginzberg_keeps_misreadings :
  exists m, In m (snd (@Ginzberg.parseGinzbergFile ascii_case misread_document 1)) /\
    content m = js "In the beginning COD created the heaven and the earth, and the earth was without form, and void, and dark." /\
    includes (js "COD") (content m) = true.
Proof.
  eexists. split; [vm_compute; left; reflexivity|]. split; reflexivity.
Qed.

(** * More properties *)

(** ** Literal replacement *)

Lemma lit_cons_some p c s len :
  lit p (c :: s) = Some len -> starts_with p (c :: s) = true /\ len = length p.
Proof.
  unfold lit. destruct (starts_with p (c :: s)); [|discriminate].
  intros E. injection E as <-. auto.
Qed.

Lemma lit_cons_none p c s : lit p (c :: s) = None -> starts_with p (c :: s) = false.
Proof. unfold lit. destruct (starts_with p (c :: s)); [discriminate | reflexivity]. Qed.

Lemma includes_skipn p k : forall s, includes p s = false -> includes p (skipn k s) = false.
Proof.
  induction k as [|k IH]; intros s H; [exact H|].
  destruct s as [|c s]; [exact H|]. cbn [skipn]. apply IH.
  rewrite includes_cons in H. now apply orb_false_iff in H.
Qed.

Lemma includes_nil_pattern a t : includes (a :: t) [] = false.
Proof. reflexivity. Qed.

(** An occurrence of [a :: t] cannot start inside a text that has no [a]. *)
Lemma includes_past a t rep x :
  forallb (fun y => negb (y =? a)) rep = true ->
  includes (a :: t) (rep ++ x) = includes (a :: t) x.
Proof.
  intros H. induction rep as [|r rep IH]; [reflexivity|].
  cbn [forallb] in H. apply andb_true_iff in H as [Hr H].
  rewrite <- app_comm_cons, includes_cons, (IH H).
  cbn [starts_with]. apply negb_true_iff in Hr. rewrite N.eqb_sym in Hr.
  now rewrite Hr.
Qed.

(** What the result of a replacement starts with, the text started with,
    as far as the replacement text cannot be mistaken for it. *)
Lemma starts_with_replaced q r0 rep t : forall s,
  forallb (fun x => negb (x =? r0)) t = true ->
  starts_with t (replace_all (lit q) (r0 :: rep) s) = true ->
  starts_with t s = true.
Proof.
  induction t as [|x t IH]; intros s Ht H; [reflexivity|].
  cbn [forallb] in Ht. apply andb_true_iff in Ht as [Hx Ht].
  destruct s as [|c s]; [discriminate H|].
  rewrite replace_all_cons in H. destruct (lit q (c :: s)) as [len|].
  - cbn [app starts_with] in H. apply andb_true_iff in H as [H _].
    rewrite H in Hx. discriminate.
  - cbn [starts_with] in *. apply andb_true_iff in H as [-> H]. now apply IH.
Qed.

Lemma cannot_make_inv p rep :
  cannot_make p rep = true ->
  exists a t r0 rep', p = a :: t /\ rep = r0 :: rep' /\
    forallb (fun x => negb (x =? a)) rep = true /\
    forallb (fun x => negb (x =? r0)) t = true.
Proof.
  unfold cannot_make. destruct p as [|a t]; [discriminate|].
  destruct rep as [|r0 rep']; [discriminate|].
  intros [H1 H2]%andb_true_iff. exists a, t, r0, rep'. auto.
Qed.

(** A replacement that cannot make [p] does not bring it into a text. *)
Lemma replace_keeps_out q p rep s :
  cannot_make p rep = true -> includes p s = false ->
  includes p (replace_all (lit q) rep s) = false.
Proof.
  intros Hc. destruct (cannot_make_inv _ _ Hc) as (a & t & r0 & rep' & -> & -> & Ha & Ht).
  remember (length s) as n eqn:Hn. revert s Hn.
  induction n as [n IH] using lt_wf_ind. intros s Hn Hs.
  destruct s as [|c s]; [reflexivity|].
  rewrite includes_cons in Hs. apply orb_false_iff in Hs as [Hs1 Hs2].
  rewrite replace_all_cons. destruct (lit q (c :: s)) as [len|].
  - rewrite includes_past by exact Ha.
    apply (IH (length (skipn (pred len) s))); [|reflexivity|now apply includes_skipn].
    rewrite length_skipn. cbn [length] in Hn. lia.
  - rewrite includes_cons, (IH (length s)); [|cbn [length] in Hn; lia|reflexivity|exact Hs2].
    rewrite orb_false_r. cbn [starts_with] in *.
    destruct (a =? c); [|reflexivity]. cbn [andb] in *.
    destruct (starts_with t (replace_all (lit q) (r0 :: rep') s)) eqn:E; [|reflexivity].
    apply starts_with_replaced in E; [congruence | exact Ht].
Qed.

(** A replacement that cannot make its own pattern leaves none of it. *)
Lemma replace_clears p rep s :
  cannot_make p rep = true -> includes p (replace_all (lit p) rep s) = false.
Proof.
  intros Hc. destruct (cannot_make_inv _ _ Hc) as (a & t & r0 & rep' & -> & -> & Ha & Ht).
  remember (length s) as n eqn:Hn. revert s Hn.
  induction n as [n IH] using lt_wf_ind. intros s Hn.
  destruct s as [|c s]; [reflexivity|].
  rewrite replace_all_cons. destruct (lit (a :: t) (c :: s)) as [len|] eqn:El.
  - rewrite includes_past by exact Ha.
    apply (IH (length (skipn (pred len) s))); [|reflexivity].
    rewrite length_skipn. cbn [length] in Hn. lia.
  - apply lit_cons_none in El.
    rewrite includes_cons, (IH (length s)); [|cbn [length] in Hn; lia|reflexivity].
    rewrite orb_false_r. cbn [starts_with] in *.
    destruct (a =? c); [|reflexivity]. cbn [andb] in *.
    destruct (starts_with t (replace_all (lit (a :: t)) (r0 :: rep') s)) eqn:E; [|reflexivity].
    apply starts_with_replaced in E; [congruence | exact Ht].
Qed.

Lemma replace_lit_fixed p rep s :
  includes p s = false -> replace_all (lit p) rep s = s.
Proof.
  induction s as [|c s IH]; [reflexivity|].
  rewrite includes_cons. intros [H1 H2]%orb_false_iff.
  rewrite replace_all_cons. destruct (lit p (c :: s)) as [len|] eqn:E.
  - apply lit_cons_some in E as [E _]. congruence.
  - now rewrite IH.
Qed.

Lemma subst_keeps_out (p : jsstring) (q r : string) s :
  cannot_make p (js r) = true -> includes p s = false ->
  includes p (subst q r s) = false.
Proof. apply replace_keeps_out. Qed.

Lemma subst_clears (q r : string) s :
  cannot_make (js q) (js r) = true -> includes (js q) (subst q r s) = false.
Proof. apply replace_clears. Qed.

(** X5: none of the six misread words is left in a text that went through
    [fixOcrErrors]. *)
Theorem fixOcrErrors_clears_misreads (text : jsstring) :
  Forall (fun p => includes p (fixOcrErrors text) = false) OCR_MISREADS.
Proof.
  unfold fixOcrErrors, OCR_MISREADS.
  repeat (apply Forall_cons || apply Forall_nil);
    repeat first [ apply subst_clears; reflexivity
                 | apply subst_keeps_out; [reflexivity|] ].
Qed.

(** X6: a text in which none of the ten patterns occurs goes through
    [fixOcrErrors] unchanged. *)
Theorem fixOcrErrors_leaves_clean_text (text : jsstring) :
  Forall (fun p => includes p text = false) OCR_PATTERNS ->
  fixOcrErrors text = text.
Proof.
  unfold OCR_PATTERNS. intros H.
  repeat match goal with
         | K : Forall _ (_ :: _) |- _ => inversion K; subst; clear K
         end.
  unfold fixOcrErrors, subst.
  repeat match goal with
         | K : includes ?p text = false |- _ =>
             rewrite (replace_lit_fixed p _ text K); clear K
         end.
  reflexivity.
Qed.

Lemma fixOcrErrors_leaves_clean_text_witness :
  fixOcrErrors (js "In the beginning God created the heaven and the earth.")
    = js "In the beginning God created the heaven and the earth.".
Proof.
  apply fixOcrErrors_leaves_clean_text. repeat constructor.
Defined.

(** ** More on [cleanText] *)

Lemma replace_go_shorter m rep s :
  (length rep <= 1)%nat -> forall k, (length (replace_go m rep k s) <= length s)%nat.
Proof.
  intros Hrep. induction s as [|c s IH]; intros k; [cbn; lia|].
  cbn [replace_go]. destruct k as [|k].
  - destruct (m (c :: s)).
    + rewrite length_app. specialize (IH (pred n)). cbn [length]. lia.
    + cbn [length]. specialize (IH 0%nat). lia.
  - specialize (IH k). cbn [length]. lia.
Qed.

Lemma trim_shorter s : (length (trim s) <= length s)%nat.
Proof.
  unfold trim, trim_end, trim_start. rewrite length_rev.
  pose proof (drop_while_length is_space (rev (drop_while is_space s))).
  pose proof (drop_while_length is_space s). rewrite length_rev in *. lia.
Qed.

(** X1: [cleanText] never makes a text longer. *)
Theorem cleanText_never_longer (text : jsstring) :
  (length (cleanText text) <= length text)%nat.
Proof.
  unfold cleanText, unhyphenate, collapse_spaces, unix_newlines, replace_all.
  pose proof (trim_shorter
    (replace_go (lit (js "- ")) [] 0
       (replace_go (run_of is_space) (js " ") 0 (replace_go (lit [13; 10]) [10] 0 text)))) as H1.
  pose proof (replace_go_shorter (lit (js "- ")) []
    (replace_go (run_of is_space) (js " ") 0 (replace_go (lit [13; 10]) [10] 0 text))
    (Nat.le_0_l 1) 0) as H2.
  pose proof (replace_go_shorter (run_of is_space) (js " ")
    (replace_go (lit [13; 10]) [10] 0 text) (Nat.le_refl 1) 0) as H3.
  pose proof (replace_go_shorter (lit [13; 10]) [10] text (Nat.le_refl 1) 0) as H4.
  lia.
Qed.

Lemma tidy_only_spaces s c : tidy s = true -> In c s -> is_space c = true -> c = 32.
Proof.
  induction s as [|d s IH]; [intros _ []|].
  intros Ht [<-|Hc] Hs.
  - now destruct (tidy_space_next _ _ Ht Hs).
  - apply IH; auto. eapply tidy_tail; eauto.
Qed.

Lemma tidy_no_double_space s : tidy s = true -> includes (js "  ") s = false.
Proof.
  induction s as [|d s IH]; [reflexivity|]. intros Ht.
  rewrite includes_cons, IH by (eapply tidy_tail; eauto). rewrite orb_false_r.
  change (js "  ") with [32; 32]. destruct s as [|e s]; cbn [starts_with].
  - now rewrite andb_false_r.
  - destruct (N.eqb_spec 32 d) as [<-|]; [|reflexivity].
    destruct (tidy_space_next _ _ Ht eq_refl) as [_ Hh]. cbn [head_solid] in Hh.
    destruct (N.eqb_spec 32 e) as [<-|]; [discriminate | reflexivity].
Qed.

Lemma collapse_all_space s :
  forallb is_space s = true -> collapse_spaces s = [] \/ collapse_spaces s = [32].
Proof.
  destruct s as [|c s]; [now left|]. cbn [forallb]. intros [Hc Hs]%andb_true_iff.
  right. rewrite collapse_cons, Hc.
  assert (E : drop_while is_space s = []).
  { induction s as [|d s IH]; [reflexivity|]. cbn [forallb] in Hs.
    apply andb_true_iff in Hs as [Hd Hs]. cbn [drop_while]. rewrite Hd. now apply IH. }
  now rewrite E.
Qed.

(** X2: the result of [cleanText] has no white space but single U+0020
    between other code units, and no hyphen followed by a space; it is
    empty when the text is white space only. *)
Theorem cleanText_normal_form (text : jsstring) :
  let u := cleanText text in
  (forall c, In c u -> is_space c = true -> c = 32) /\
  includes (js "  ") u = false /\
  includes (js "- ") u = false /\
  head_solid u = true /\ head_solid (rev u) = true /\
  (forallb is_space text = true -> u = []).
Proof.
  cbn zeta. destruct (cleanText_shape text) as (H1 & H2 & H3 & H4).
  split; [intros c; now apply tidy_only_spaces|].
  split; [now apply tidy_no_double_space|].
  split; [exact H2|]. split; [exact H3|]. split; [exact H4|].
  intros Hs. rewrite cleanText_unfold.
  assert (Hn : forallb is_space (unix_newlines text) = true).
  { unfold unix_newlines, replace_all. now apply SchwartzFacts.replace_go_forallb. }
  destruct (collapse_all_space _ Hn) as [-> | ->]; reflexivity.
Qed.

Lemma cleanText_normal_form_witness : cleanText [32; 9; 13; 10; 160] = [].
Proof.
  apply (proj2 (proj2 (proj2 (proj2 (proj2 (cleanText_normal_form [32; 9; 13; 10; 160])))))).
  reflexivity.
Defined.

(** ** Slugs *)

Lemma dashed_ok_cons c r :
  dashed_ok (c :: r) = (if is_alnum c then true else (c =? 45) && head_alnum r) && dashed_ok r.
Proof. reflexivity. Qed.

Lemma dashing_cons c s :
  replace_all (run_of not_alnum) (js "-") (c :: s) =
  if is_alnum c then c :: replace_all (run_of not_alnum) (js "-") s
  else 45 :: replace_all (run_of not_alnum) (js "-") (drop_while not_alnum s).
Proof.
  rewrite replace_all_cons. unfold run_of. cbn [take_while].
  unfold not_alnum at 1, is_alnum. destruct (is_lower c || is_digit c); cbn [negb]; [reflexivity|].
  cbn [length pred]. now rewrite skipn_take_while.
Qed.

Lemma head_alnum_drop s : head_alnum (drop_while not_alnum s) = true.
Proof.
  induction s as [|c s IH]; [reflexivity|]. cbn [drop_while].
  destruct (not_alnum c) eqn:E; [exact IH|]. cbn [head_alnum].
  unfold not_alnum in E. apply negb_false_iff in E. exact E.
Qed.

Lemma dashing_head s :
  head_alnum s = true -> head_alnum (replace_all (run_of not_alnum) (js "-") s) = true.
Proof.
  destruct s as [|c s]; [reflexivity|]. cbn [head_alnum]. intros H.
  rewrite dashing_cons, H. exact H.
Qed.

Lemma dashing_ok s : dashed_ok (replace_all (run_of not_alnum) (js "-") s) = true.
Proof.
  remember (length s) as n eqn:Hn.
  revert s Hn. induction n as [n IH] using lt_wf_ind. intros s Hn.
  destruct s as [|c s]; [reflexivity|].
  rewrite dashing_cons. destruct (is_alnum c) eqn:E.
  - rewrite dashed_ok_cons, E. apply (IH (length s)); [cbn [length] in Hn; lia | reflexivity].
  - rewrite dashed_ok_cons. change (is_alnum 45) with false. rewrite N.eqb_refl.
    rewrite dashing_head by apply head_alnum_drop. cbn [andb].
    apply (IH (length (drop_while not_alnum s))); [|reflexivity].
    pose proof (drop_while_length not_alnum s). cbn [length] in Hn. lia.
Qed.

Lemma dashed_ok_alphabet s c :
  dashed_ok s = true -> In c s -> is_alnum c = true \/ c = 45.
Proof.
  induction s as [|d s IH]; [intros _ []|]. rewrite dashed_ok_cons.
  intros [H1 H2]%andb_true_iff [<-|Hc]; [|now apply IH].
  destruct (is_alnum d); [now left|]. right.
  apply andb_true_iff in H1 as [H1 _]. now apply N.eqb_eq in H1.
Qed.

Lemma dashed_ok_app a b : dashed_ok (a ++ b) = true -> dashed_ok a = true /\ dashed_ok b = true.
Proof.
  induction a as [|c a IH]; [intros H; split; [reflexivity | exact H]|].
  rewrite <- app_comm_cons, !dashed_ok_cons. intros [H1 H2]%andb_true_iff.
  destruct (IH H2) as [Ha Hb]. split; [|exact Hb].
  rewrite Ha, andb_true_r. destruct (is_alnum c); [reflexivity|].
  apply andb_true_iff in H1 as [-> H1]. destruct a; [reflexivity | exact H1].
Qed.

(** In front of a code unit that is not kept stands a kept one. *)
Lemma dashed_ok_before a x b :
  dashed_ok (a ++ x :: b) = true -> is_alnum x = false -> head_alnum (rev a) = true.
Proof.
  induction a as [|c a IH]; [reflexivity|].
  rewrite <- app_comm_cons, dashed_ok_cons. intros [H1 H2]%andb_true_iff Hx.
  destruct a as [|d a].
  - cbn [app head_alnum rev] in *. destruct (is_alnum c); [reflexivity|].
    apply andb_true_iff in H1 as [_ H1]. congruence.
  - specialize (IH H2 Hx). cbn [rev] in *.
    destruct (rev a ++ [d]) as [|e r] eqn:E; [destruct (rev a); discriminate|].
    exact IH.
Qed.

Lemma dashed_ok_no_double s : dashed_ok s = true -> includes (js "--") s = false.
Proof.
  induction s as [|d s IH]; [reflexivity|]. rewrite dashed_ok_cons.
  intros [H1 H2]%andb_true_iff. rewrite includes_cons, (IH H2), orb_false_r.
  change (js "--") with [45; 45]. destruct s as [|e s]; cbn [starts_with].
  - now rewrite andb_false_r.
  - destruct (N.eqb_spec 45 d) as [<-|]; [|reflexivity].
    change (is_alnum 45) with false in H1. cbn [N.eqb andb head_alnum] in H1.
    rewrite Pos.eqb_refl in H1. cbn [andb] in H1.
    destruct (N.eqb_spec 45 e) as [<-|]; [discriminate | reflexivity].
Qed.

Lemma strip_hyphen (s : jsstring) :
  match s with 45 :: r => r | _ => s end =
  if starts_with [45] s then skipn 1 s else s.
Proof.
  destruct s as [|c s]; [reflexivity|].
  destruct c as [|p]; [reflexivity|].
  do 7 (destruct p as [p|p|]; try reflexivity).
Qed.

Lemma starts_with_one x s : starts_with [x] s = true <-> exists r, s = x :: r.
Proof.
  destruct s as [|c s]; cbn [starts_with].
  - split; [discriminate | intros [r H]; discriminate].
  - rewrite andb_true_r, N.eqb_eq. split; [intros <-; eauto | intros [r H]; congruence].
Qed.

Lemma generateId_slug_unfold lower :
  generateId_slug lower =
  let dashed := replace_all (run_of not_alnum) (js "-") lower in
  let no_lead := if starts_with [45] dashed then skipn 1 dashed else dashed in
  if starts_with [45] (rev no_lead) then rev (skipn 1 (rev no_lead)) else no_lead.
Proof.
  unfold generateId_slug. cbn zeta.
  rewrite <- (strip_hyphen (replace_all _ _ lower)).
  fold not_alnum.
  set (n := match replace_all (run_of not_alnum) (js "-") lower with 45 :: r => r | _ => _ end).
  destruct (starts_with [45] (rev n)) eqn:E.
  - apply starts_with_one in E as [r E]. now rewrite E.
  - destruct (rev n) as [|c r] eqn:En; [reflexivity|].
    destruct c as [|p]; [reflexivity|].
    do 7 (try (destruct p as [p|p|]; try reflexivity; try (cbn in E; discriminate E))).
Qed.

(** X3: a slug is made of lower-case letters, digits and hyphens, neither
    starts nor ends with a hyphen and has no two hyphens in a row. *)
Theorem generateId_slug_form (lower : jsstring) :
  let slug := generateId_slug lower in
  (forall c, In c slug -> is_lower c = true \/ is_digit c = true \/ c = 45) /\
  head_alnum slug = true /\ head_alnum (rev slug) = true /\
  includes (js "--") slug = false.
Proof.
  cbn zeta. rewrite generateId_slug_unfold. cbn zeta.
  set (d := replace_all (run_of not_alnum) (js "-") lower).
  pose proof (dashing_ok lower) as Hd. fold d in Hd.
  set (n := if starts_with [45] d then skipn 1 d else d).
  assert (Hn : dashed_ok n = true /\ head_alnum n = true).
  { unfold n. destruct (starts_with [45] d) eqn:E.
    - apply starts_with_one in E as [r E]. rewrite E in *. cbn [skipn].
      rewrite dashed_ok_cons in Hd. change (is_alnum 45) with false in Hd.
      apply andb_true_iff in Hd as [H1 H2]. apply andb_true_iff in H1 as [_ H1]. auto.
    - split; [exact Hd|]. destruct d as [|c r]; [reflexivity|]. cbn [head_alnum].
      destruct (dashed_ok_alphabet _ c Hd (or_introl eq_refl)) as [H|H]; [exact H|].
      subst c. cbn in E. discriminate. }
  destruct Hn as [Hn1 Hn2].
  assert (Hs : let s := if starts_with [45] (rev n) then rev (skipn 1 (rev n)) else n in
               dashed_ok s = true /\ head_alnum s = true /\ head_alnum (rev s) = true).
  { cbn zeta. destruct (starts_with [45] (rev n)) eqn:E.
    - apply starts_with_one in E as [r E]. rewrite E. cbn [skipn]. rewrite rev_involutive.
      assert (En : n = rev r ++ [45]) by (rewrite <- (rev_involutive n), E; reflexivity).
      rewrite En in Hn1, Hn2.
      destruct (dashed_ok_app _ _ Hn1) as [Ha _].
      pose proof (dashed_ok_before (rev r) 45 [] Hn1 eq_refl) as Hb.
      rewrite rev_involutive in Hb. repeat split; auto.
      destruct (rev r); [reflexivity | exact Hn2].
    - repeat split; auto. destruct (rev n) as [|c r] eqn:En; [reflexivity|].
      cbn [head_alnum].
      assert (Hc : In c n) by (apply in_rev; rewrite En; now left).
      destruct (dashed_ok_alphabet _ c Hn1 Hc) as [H|H]; [exact H|].
      subst c. cbn in E. discriminate. }
  cbn zeta in Hs. destruct Hs as (H1 & H2 & H3).
  split; [|split; [exact H2 | split; [exact H3 | now apply dashed_ok_no_double]]].
  intros c Hc. destruct (dashed_ok_alphabet _ c H1 Hc) as [H|H]; [|auto].
  unfold is_alnum in H. apply orb_true_iff in H. tauto.
Qed.

Section Ids.
Context {cm : CaseMapping}.

(** An identifier is cut after 80 code units, and starts with a source tag
    shorter than that. *)
Lemma generateId_length title source : (length (generateId title source) <= 80)%nat.
Proof. unfold generateId. apply firstn_le_length. Qed.

Lemma generateId_prefix title source :
  (length source < 80)%nat -> starts_with (source ++ js "-") (generateId title source) = true.
Proof.
  intros H. unfold generateId.
  assert (G : forall p x n, (length p <= n)%nat -> starts_with p (firstn n (p ++ x)) = true).
  { induction p as [|c p IH]; intros x n Hn; [reflexivity|].
    destruct n as [|n]; [cbn in Hn; lia|]. cbn [app firstn starts_with].
    rewrite N.eqb_refl. apply IH. cbn in Hn. lia. }
  rewrite app_assoc. apply G. rewrite length_app. cbn. lia.
Qed.

End Ids.

(** ** More on the annotators *)

Lemma THEMES_NoDup : NoDup (map fst THEME_KEYWORDS).
Proof.
  vm_compute. repeat (constructor; [cbn [In]; intuition discriminate|]). constructor.
Qed.

Lemma set_add_new x s : ~ In x s -> set_add x s = s ++ [x].
Proof.
  intros H. unfold set_add. destruct (existsb (str_eqb x) s) eqn:E; [|reflexivity].
  apply existsb_str_eqb in E. contradiction.
Qed.

Section Themes.
Context {cm : CaseMapping}.

(** X7: the themes of a text are the themes of the taxonomy of which a
    keyword occurs in the lower-cased text, in the order of the taxonomy. *)
Theorem extractThemes_filter (text : jsstring) :
  extractThemes text =
  map fst (filter (fun entry => existsb (fun keyword => includes keyword (toLowerCase text))
                                        (snd entry))
                  THEME_KEYWORDS).
Proof.
  unfold extractThemes.
  set (hit := fun entry : jsstring * list jsstring =>
                existsb (fun keyword => includes keyword (toLowerCase text)) (snd entry)).
  set (f := fun (themes : list jsstring) (entry : jsstring * list jsstring) =>
              if existsb (fun keyword => includes keyword (toLowerCase text)) (snd entry)
              then set_add (fst entry) themes else themes).
  assert (G : forall l acc, NoDup (map fst l) ->
            (forall x, In x acc -> ~ In x (map fst l)) ->
            fold_left f l acc = acc ++ map fst (filter hit l)).
  { induction l as [|e l IH]; intros acc Hn Hd; [cbn; now rewrite app_nil_r|].
    cbn [map] in Hn. inversion Hn as [|? ? Hn1 Hn2]; subst.
    cbn [fold_left filter]. unfold f at 2. fold (hit e). destruct (hit e).
    - rewrite set_add_new by (intros K; apply (Hd _ K); now left).
      rewrite IH; [cbn [map]; now rewrite <- app_assoc | exact Hn2 |].
      intros x [Hx|[<-|[]]]%in_app_or; [|exact Hn1].
      intros K. apply (Hd _ Hx). now right.
    - apply IH; [exact Hn2|]. intros x Hx K. apply (Hd _ Hx). now right. }
  apply (G THEME_KEYWORDS []); [apply THEMES_NoDup | intros x []].
Qed.

End Themes.

Lemma biblical_match_none s : biblical_match s = None <-> mentions_book s = false.
Proof.
  unfold biblical_match, mentions_book.
  destruct (find (fun b => ci_starts_with b s) BIBLICAL_BOOKS) as [b|] eqn:E.
  - apply find_some in E as [Hb Hs].
    destruct (match drop_while is_digit (drop_while is_space (skipn (length b) s)) with
              | [] => _ | _ :: _ => _ end) as [nsep r4].
    split; [discriminate|]. intros K.
    assert (T : existsb (fun b => ci_starts_with b s) BIBLICAL_BOOKS = true)
      by (apply existsb_exists; eauto).
    congruence.
  - split; [|reflexivity]. intros _.
    destruct (existsb _ BIBLICAL_BOOKS) eqn:K; [|reflexivity].
    apply existsb_exists in K as [b [Hb Hs]].
    pose proof (find_none _ _ E b Hb) as N. cbn in N. congruence.
Qed.

Lemma set_add_nonempty x s : set_add x s <> [].
Proof.
  unfold set_add. destruct (existsb (str_eqb x) s) eqn:E.
  - destruct s; [discriminate E | discriminate].
  - destruct s; discriminate.
Qed.

Lemma scan_references_grows text : forall skip refs,
  refs <> [] -> scan_references skip text refs <> [].
Proof.
  induction text as [|c text IH]; intros skip refs H; [exact H|].
  cbn [scan_references]. destruct skip as [|k]; [|now apply IH].
  destruct (biblical_match (c :: text)); apply IH; [apply set_add_nonempty | exact H].
Qed.

Lemma scan_references_none text : forall skip,
  (forall k, mentions_book (skipn k text) = false) ->
  scan_references skip text [] = [].
Proof.
  induction text as [|c text IH]; intros skip H; [reflexivity|].
  assert (Ht : forall k, mentions_book (skipn k text) = false) by (intros k; apply (H (S k))).
  cbn [scan_references]. destruct skip as [|k]; [|now apply IH].
  pose proof (H 0%nat) as H0. cbn [skipn] in H0. apply biblical_match_none in H0.
  rewrite H0. now apply IH.
Qed.

Lemma scan_references_some text : forall skip k,
  (skip <= k)%nat -> mentions_book (skipn k text) = true ->
  scan_references skip text [] <> [].
Proof.
  induction text as [|c text IH]; intros skip k Hk H.
  - rewrite skipn_nil in H. discriminate H.
  - cbn [scan_references]. destruct skip as [|j].
    + destruct (biblical_match (c :: text)) as [m|] eqn:E.
      * apply scan_references_grows, set_add_nonempty.
      * destruct k as [|k].
        -- apply biblical_match_none in E. cbn [skipn] in H. congruence.
        -- apply (IH 0%nat k); [lia | exact H].
    + destruct k as [|k]; [lia|]. apply (IH j k); [lia | exact H].
Qed.

(** X8: a text has no reference exactly when no book name of the pattern
    occurs in it, in whatever case. *)
Theorem no_reference_iff_no_book (text : jsstring) :
  extractBiblicalReferences text = [] <->
  forall k, mentions_book (skipn k text) = false.
Proof.
  unfold extractBiblicalReferences. split.
  - intros H k. destruct (mentions_book (skipn k text)) eqn:E; [|reflexivity].
    exfalso. apply (scan_references_some text 0 k); [lia | exact E | exact H].
  - apply scan_references_none.
Qed.

(** ** More on the Source-A segmenter *)

Lemma split_on_pieces sep s p :
  In p (split_on sep s) -> ~ In sep p /\ forall c, In c p -> In c s.
Proof.
  revert p. induction s as [|c s IH]; intros p.
  - cbn. intros [<-|[]]. split; [intros [] | intros c []].
  - cbn [split_on]. destruct (N.eqb_spec c sep) as [->|Hc].
    + intros [<-|Hp]; [split; [intros [] | intros c []]|].
      destruct (IH p Hp) as [H1 H2]. split; [exact H1|]. intros c Hcp. right. auto.
    + destruct (split_on sep s) as [|h t] eqn:E.
      * intros [<-|[]]. split; [intros [K|[]]; congruence | intros d [<-|[]]; now left].
      * intros [<-|Hp].
        -- destruct (IH h (or_introl eq_refl)) as [H1 H2]. split.
           ++ intros [K|K]; [congruence | contradiction].
           ++ intros d [<-|Hd]; [now left | right; auto].
        -- destruct (IH p (or_intror Hp)) as [H1 H2]. split; [exact H1|].
           intros d Hd. right. auto.
Qed.

Lemma trim_chars s c : In c (trim s) -> In c s.
Proof.
  intros H. rewrite (trim_start_split s). apply in_or_app. right.
  rewrite (trim_end_split (trim_start s)). apply in_or_app. left. exact H.
Qed.

Lemma no_semicolon_left s : ~ In 59 (replace_all (lit (js ";")) (js ",") s).
Proof.
  induction s as [|c s IH]; [intros []|].
  rewrite replace_all_cons. destruct (lit (js ";") (c :: s)) as [len|] eqn:E.
  - apply lit_cons_some in E as [_ ->]. cbn [js length pred skipn].
    intros [K|K]; [discriminate | contradiction].
  - apply lit_cons_none in E. change (js ";") with [59] in E. cbn [starts_with] in E.
    rewrite andb_true_r in E. apply N.eqb_neq in E.
    intros [K|K]; [congruence | contradiction].
Qed.

Module SchwartzRecordFacts.
Import Schwartz SchwartzSpec SchwartzRecords.

Lemma source_parts_ok line :
  Forall source_entry
    (filter (fun s => (2 <? length s)%nat)
       (map trim (split_on 44 (replace_all (lit (js ";")) (js ",") line)))).
Proof.
  apply Forall_forall. intros s [Hs Hl]%filter_In.
  apply in_map_iff in Hs as [p [<- Hp]].
  destruct (split_on_pieces _ _ _ Hp) as [H1 H2].
  destruct (trim_ends p) as [H3 H4].
  split; [now apply Nat.ltb_lt in Hl|]. split; [|split; [|split; assumption]].
  - intros K. apply H1. now apply trim_chars.
  - intros K. apply (no_semicolon_left line), H2. now apply trim_chars.
Qed.

Lemma ci_starts_with_app p a b :
  ci_starts_with p a = true -> ci_starts_with p (a ++ b) = true.
Proof.
  revert a; induction p as [|x p IH]; intros [|y a]; cbn [ci_starts_with app]; auto;
    try discriminate.
  intros [-> H]%andb_true_iff. now rewrite (IH _ H).
Qed.

Lemma book_header_starts line : is_book_header line = true -> ci_starts_with (js "BOOK") line = true.
Proof. unfold is_book_header. now intros [H _]%andb_true_iff. Qed.

Section Facts.
Context {cm : CaseMapping}.

Lemma find_subtitle_label n : forall j line rest k label,
  find_subtitle n j line rest = Some (k, label) -> exists x, label = line ++ x.
Proof.
  induction n as [|n IH]; intros j line rest k label; [discriminate|].
  destruct rest as [|l' rest]; [discriminate|]. cbn [find_subtitle].
  destruct (negb _ && _).
  - intros E. injection E as <- <-. eexists. reflexivity.
  - apply IH.
Qed.

Lemma flush_records st : records_ok st -> Forall schwartz_record (flush st).
Proof.
  intros (_ & H1 & H2). unfold flush. destruct (currentMyth st) as [m|]; [|exact H1].
  destruct (50 <? _)%nat; [|exact H1].
  apply Forall_app. split; [exact H1|]. constructor; [|constructor].
  exact (H2 m eq_refl).
Qed.

Lemma step_records st l rest : records_ok st -> records_ok (fst (step st l rest)).
Proof.
  intros H. pose proof (flush_records st H) as Hf. pose proof H as (H0 & H1 & H2).
  unfold step. destruct (is_empty (trim l)); [exact H|].
  destruct (is_noise (trim l)); [exact H|].
  set (line := fixOcrErrors (trim l)).
  destruct (is_book_header line) eqn:Eb.
  { apply book_header_starts in Eb.
    destruct (find_subtitle 3 1 line rest) as [[j label]|] eqn:E; cbn [fst].
    - destruct (find_subtitle_label _ _ _ _ _ _ E) as [x ->].
      refine (conj (ci_starts_with_app _ _ _ Eb) (conj Hf _)). discriminate.
    - refine (conj Eb (conj Hf _)). discriminate. }
  destruct (is_section_header st line).
  { refine (conj H0 (conj Hf _)). discriminate. }
  destruct (myth_match line) as [[num ttl]|].
  { refine (conj H0 (conj Hf _)). cbn [fst currentMyth]. intros m Hm. injection Hm as <-.
    refine (conj (ex_intro _ _ eq_refl) (conj eq_refl (conj eq_refl (conj H0 (Forall_nil _))))). }
  destruct (block_header _ line); [exact H|].
  destruct (block_header _ line); [exact H|].
  cbn [fst]. unfold buffer_line.
  destruct (currentMyth st) as [m|] eqn:Em; [|exact H].
  destruct (mode st); try exact H.
  - refine (conj H0 (conj H1 _)). cbn [currentMyth]. intros m' Hm'. injection Hm' as <-. now apply H2.
  - refine (conj H0 (conj H1 _)). cbn [currentMyth]. intros m' Hm'. injection Hm' as <-. now apply H2.
  - refine (conj H0 (conj H1 _)). cbn [currentMyth]. intros m' Hm'. injection Hm' as <-.
    destruct (H2 m eq_refl) as (A & B & C & D & E).
    refine (conj A (conj B (conj C (conj D _)))). cbn [push_sources sources].
    apply Forall_app. split; [exact E | apply source_parts_ok].
Qed.

(** Where the search for the first book header stops. *)
Lemma find_book_one_found ls : forall i n,
  (0 < i)%nat -> find_book_one i ls = n -> n <> 0%nat ->
  exists j l rest, n = (i + j)%nat /\ skipn j ls = l :: rest /\
    trim l = js "BOOK ONE" /\
    Forall (fun l' => trim l' <> js "BOOK ONE") (firstn j ls).
Proof.
  induction ls as [|l ls IH]; intros i n Hi E Hn; [cbn in E; congruence|].
  cbn [find_book_one] in E. destruct (str_eqb (trim l) (js "BOOK ONE")) eqn:K.
  - apply str_eqb_eq in K. exists 0%nat, l, ls. subst n.
    repeat split; [lia | exact K | constructor].
  - destruct (IH (S i) n) as (j & l' & rest & -> & E2 & E3 & E4); [lia | exact E | exact Hn|].
    exists (S j), l', rest. repeat split; [lia | exact E2 | exact E3|].
    cbn [firstn]. constructor; [|exact E4]. intros T. apply str_eqb_eq in T. congruence.
Qed.

Lemma find_book_one_missing ls : forall i,
  Forall (fun l => trim l <> js "BOOK ONE") ls -> find_book_one i ls = 0%nat.
Proof.
  induction ls as [|l ls IH]; intros i H; [reflexivity|].
  inversion H as [|? ? H1 H2]; subst. cbn [find_book_one].
  destruct (str_eqb (trim l) (js "BOOK ONE")) eqn:K; [|now apply IH].
  apply str_eqb_eq in K. contradiction.
Qed.

Lemma skipn_plus {A} (a b : nat) (l : list A) : skipn (a + b) l = skipn b (skipn a l).
Proof.
  revert l. induction a as [|a IH]; intros l; [reflexivity|].
  destruct l as [|x l]; [now rewrite !skipn_nil|]. cbn [Nat.add skipn]. apply IH.
Qed.

Lemma content_starts_at_book_one lines :
  contentStart lines <> 0%nat ->
  exists l rest, skipn (contentStart lines) lines = l :: rest /\ trim l = js "BOOK ONE".
Proof.
  intros H. unfold contentStart in *.
  destruct (find_book_one_found (skipn SEARCH_FROM lines) SEARCH_FROM _
              ltac:(vm_compute; lia) eq_refl H) as (j & l & rest & E1 & E2 & E3 & _).
  exists l, rest. split; [|exact E3]. rewrite E1, skipn_plus. exact E2.
Qed.

Lemma drafts_records lines :
  contentStart lines <> 0%nat -> Forall schwartz_record (drafts lines).
Proof.
  intros H. destruct (content_starts_at_book_one lines H) as (l & rest & E & El).
  unfold drafts. rewrite E. cbn [run_lines]. apply flush_records.
  assert (K : records_ok (fst (step init l rest))).
  { unfold step. rewrite El.
    change (is_empty (js "BOOK ONE")) with false.
    change (is_noise (js "BOOK ONE")) with false.
    change (fixOcrErrors (js "BOOK ONE")) with (js "BOOK ONE").
    change (is_book_header (js "BOOK ONE")) with true. cbn match.
    destruct (find_subtitle 3 1 (js "BOOK ONE") rest) as [[j label]|] eqn:Ef; cbn [fst].
    - destruct (find_subtitle_label _ _ _ _ _ _ Ef) as [x ->].
      refine (conj (ci_starts_with_app (js "BOOK") (js "BOOK ONE") _ eq_refl)
                (conj (Forall_nil _) _)).
      discriminate.
    - refine (conj eq_refl (conj (Forall_nil _) _)). discriminate. }
  destruct (step init l rest) as [st1 sk]. cbn [fst] in K.
  apply (run_lines_invariant step records_ok (fun _ => True)); auto.
  - intros st l' rest' Hst _. now apply step_records.
  - apply Forall_forall. auto.
Qed.

Lemma finalize_record d : schwartz_record d -> schwartz_record (finalize d).
Proof.
  intros (A & B & C & D & E).
  refine (conj A (conj B (conj C (conj D _)))). cbn [finalize sources].
  apply Forall_forall. intros s [Hs _]%filter_In.
  rewrite Forall_forall in E. now apply E.
Qed.

(** X14: every record of Source-A has a number, the tag of its source, the
    identifier made from its title, a book label that starts with BOOK, and
    sources that are trimmed entries of more than two code units without
    comma or semicolon. *)
Theorem schwartz_records_shape (document : jsstring) :
  Forall schwartz_record (snd (parseSchwartzFile document)).
Proof.
  unfold parseSchwartzFile.
  destruct (contentStart (map trim (split_on 10 document)) =? 0)%nat eqn:E; [constructor|].
  apply Nat.eqb_neq in E. cbn [snd]. pose proof (drafts_records _ E) as H.
  rewrite Forall_forall in *. intros m Hm. apply in_map_iff in Hm as [d [<- Hd]].
  apply finalize_record. now apply H.
Qed.

End Facts.
End SchwartzRecordFacts.

Module SchwartzModeFacts.
Import Schwartz SchwartzSpec SchwartzRecords SchwartzRecordFacts.

Lemma with_mode_same st : with_mode st (mode st) = st.
Proof. destruct st; reflexivity. Qed.

Section Facts.
Context {cm : CaseMapping}.

(** X9: Source-A starts at the first line, from index 6000 on, that reads
    BOOK ONE, and says so; without such a line it warns and returns no
    record. *)
Theorem schwartz_content_start (document : jsstring) :
  let lines := skipn SEARCH_FROM (map trim (split_on 10 document)) in
  (Forall (fun l => trim l <> js "BOOK ONE") lines ->
   parseSchwartzFile document = ([WarnNoContentStart], [])) /\
  (forall j l,
     nth_error lines j = Some l -> trim l = js "BOOK ONE" ->
     Forall (fun l' => trim l' <> js "BOOK ONE") (firstn j lines) ->
     fst (parseSchwartzFile document) = [ContentStartsAt (SEARCH_FROM + j)]).
Proof.
  cbn zeta. split.
  - intros H. unfold parseSchwartzFile, contentStart.
    now rewrite (find_book_one_missing _ SEARCH_FROM H).
  - intros j l Hj Hl Hfirst. unfold parseSchwartzFile, contentStart.
    set (ls := skipn SEARCH_FROM (map trim (split_on 10 document))) in *.
    assert (E : forall xs i j, nth_error xs j = Some l ->
                Forall (fun l' => trim l' <> js "BOOK ONE") (firstn j xs) ->
                find_book_one i xs = (i + j)%nat).
    { clear - Hl. induction xs as [|x xs IH]; intros i j Hj Hf.
      - destruct j; discriminate.
      - destruct j as [|j]; cbn [nth_error firstn find_book_one] in *.
        + injection Hj as ->. rewrite Hl. cbn. lia.
        + inversion Hf as [|? ? H1 H2]; subst.
          destruct (str_eqb (trim x) (js "BOOK ONE")) eqn:K.
          * apply str_eqb_eq in K. contradiction.
          * rewrite (IH (S i) j Hj H2). lia. }
    rewrite (E ls SEARCH_FROM j Hj Hfirst).
    destruct (SEARCH_FROM + j =? 0)%nat eqn:K; [|reflexivity].
    apply Nat.eqb_eq in K. vm_compute in K. lia.
Qed.

(** *** The modes in which nothing is buffered *)

Lemma step_closed st l rest :
  closed_mode (mode st) -> no_title l ->
  closed_mode (mode (fst (step st l rest))) /\
  (contentBuffer (fst (step st l rest)) = contentBuffer st \/
   contentBuffer (fst (step st l rest)) = []).
Proof.
  intros Hc Hl. unfold no_title in Hl. unfold step.
  destruct (is_empty (trim l)); [cbn; auto|].
  destruct (is_noise (trim l)); [cbn; auto|].
  destruct (is_book_header _).
  { destruct (find_subtitle _ _ _ _) as [[j label]|]; cbn; unfold closed_mode; auto. }
  destruct (is_section_header _ _); [cbn; unfold closed_mode; auto|].
  rewrite Hl.
  destruct (block_header _ _); [cbn; unfold closed_mode; auto|].
  destruct (block_header _ _); [cbn; unfold closed_mode; auto|].
  cbn [fst]. unfold buffer_line.
  destruct (currentMyth st); [|auto].
  destruct Hc as [Hc|[Hc|Hc]]; rewrite Hc; cbn; unfold closed_mode; auto.
Qed.

(** X11: after a Sources or a Studies header, and between records, no line
    is buffered as content or commentary until a numbered title starts a
    record: the buffer stays as it is, or is emptied by a header. *)
Theorem closed_modes_buffer_nothing (st : State) (n skip : nat) (lines : list jsstring) :
  closed_mode (mode st) ->
  Forall no_title (firstn n lines) ->
  let st' := run_upto step n skip st lines in
  closed_mode (mode st') /\
  (contentBuffer st' = contentBuffer st \/ contentBuffer st' = []).
Proof.
  intros Hc Hl. cbn zeta.
  apply (run_upto_invariant step
           (fun s => closed_mode (mode s) /\
                     (contentBuffer s = contentBuffer st \/ contentBuffer s = []))
           no_title); auto.
  intros s l rest [H1 H2] Hok. destruct (step_closed s l rest H1 Hok) as [K1 [K2|K2]].
  - split; [exact K1|]. rewrite K2. exact H2.
  - split; [exact K1|]. now right.
Qed.

Lemma step_skipped st l rest :
  mode st = Skip -> plain_line st l -> step st l rest = (st, 0%nat).
Proof.
  intros Hm (H1 & H2 & H3 & H4). unfold step.
  destruct (is_empty (trim l)); [reflexivity|].
  destruct (is_noise (trim l)); [reflexivity|].
  rewrite H1, H2, H3, H4.
  destruct (block_header (js "Studies") (fixOcrErrors (trim l))).
  - now rewrite <- Hm, with_mode_same.
  - unfold buffer_line. rewrite Hm. destruct (currentMyth st); reflexivity.
Qed.

(** X12: a Studies block is dropped whole: in skip mode the lines up to the
    next book, section, title or Sources header leave the state of the loop
    as it is. *)
Theorem studies_block_is_dropped (st : State) (n : nat) (lines : list jsstring) :
  mode st = Skip ->
  Forall (plain_line st) (firstn n lines) ->
  run_upto step n 0 st lines = st.
Proof.
  intros Hm. revert lines. induction n as [|n IH]; intros lines Hl; [reflexivity|].
  destruct lines as [|l rest]; [reflexivity|].
  cbn [firstn] in Hl. inversion Hl as [|? ? H1 H2]; subst.
  cbn [run_upto]. rewrite (step_skipped st l rest Hm H1). now apply IH.
Qed.

End Facts.

Lemma studies_block_is_dropped_witness :
  run_upto (@step ascii_case) 2 0 in_studies
    [js "Ginzberg, Legends, vol. 1."; js "Scholem, Major Trends."] = in_studies.
Proof.
  apply (@studies_block_is_dropped ascii_case); [reflexivity|].
  repeat constructor.
Defined.

Lemma closed_modes_buffer_nothing_witness :
  contentBuffer (run_upto (@step ascii_case) 2 0 (with_mode long_record Sources)
                   [js "Midrash Rabbah, Zohar"; js "Studies:"])
    = contentBuffer (with_mode long_record Sources) \/
  contentBuffer (run_upto (@step ascii_case) 2 0 (with_mode long_record Sources)
                   [js "Midrash Rabbah, Zohar"; js "Studies:"]) = [].
Proof.
  refine (proj2 (@closed_modes_buffer_nothing ascii_case (with_mode long_record Sources)
                   2 0 [js "Midrash Rabbah, Zohar"; js "Studies:"] _ _)).
  - right; left; reflexivity.
  - repeat constructor.
Defined.

Lemma schwartz_content_start_witness :
  fst (@parseSchwartzFile ascii_case two_books) = [ContentStartsAt (SEARCH_FROM + 0)].
Proof.
  apply (proj2 (@schwartz_content_start ascii_case two_books) 0%nat (js "BOOK ONE"));
    [vm_compute; reflexivity | reflexivity | constructor].
Defined.

End SchwartzModeFacts.

Module SchwartzNoiseFacts.
Import Schwartz SchwartzSpec SchwartzRecords SchwartzFacts.

(** *** Page furniture of every kind *)

Lemma head_no_m_replaced p r0 rep s :
  negb (ci_eqb 77 r0) = true -> head_no_m s = true ->
  head_no_m (replace_all (lit p) (r0 :: rep) s) = true.
Proof.
  intros Hr Hs. destruct s as [|c s]; [reflexivity|].
  rewrite replace_all_cons. destruct (lit p (c :: s)); [exact Hr | exact Hs].
Qed.

Lemma fixOcrErrors_head_no_m s : head_no_m s = true -> head_no_m (fixOcrErrors s) = true.
Proof.
  intros H. unfold fixOcrErrors, subst.
  repeat (apply head_no_m_replaced; [reflexivity|]). exact H.
Qed.

Lemma digit_head s : is_empty (take_while is_digit s) = false -> head_no_m s = true.
Proof.
  destruct s as [|c s]; [reflexivity|]. cbn [take_while head_no_m].
  destruct (is_digit c) eqn:E; [|discriminate]. intros _.
  apply negb_true_iff. now apply digit_not_m.
Qed.

Lemma noise_head s : is_noise s = true -> head_no_m s = true.
Proof.
  unfold is_noise. rewrite !orb_true_iff. intros [[[H|H]|H]|H].
  - destruct s as [|c s]; [reflexivity|]. cbn [head_no_m].
    unfold digits_only in H. apply andb_true_iff in H as [_ H].
    cbn [forallb] in H. apply andb_true_iff in H as [H _].
    apply negb_true_iff. now apply digit_not_m.
  - destruct s as [|c s]; [reflexivity|]. cbn [head_no_m].
    unfold roman_letters_only in H. apply andb_true_iff in H as [_ H].
    cbn [forallb] in H. apply andb_true_iff in H as [H _].
    apply negb_true_iff. now apply roman_letter_not_m.
  - destruct s as [|c s]; [reflexivity|]. cbn [head_no_m].
    change (js "CONTENTS") with (67 :: js "ONTENTS") in H. cbn [starts_with] in H.
    apply andb_true_iff in H as [H _]. apply N.eqb_eq in H. subst c. reflexivity.
  - unfold running_header in H. apply andb_true_iff in H as [H _].
    apply negb_true_iff in H. now apply digit_head.
Qed.

Lemma subtitle_head t : is_book_subtitle t = true -> head_no_m t = false.
Proof.
  unfold is_book_subtitle. intros [H _]%andb_true_iff.
  destruct t as [|c t]; [discriminate|].
  change (js "MYTHS") with [77; 89; 84; 72; 83] in H. cbn [ci_starts_with] in H.
  apply andb_true_iff in H as [H _]. cbn [head_no_m]. now rewrite H.
Qed.

Lemma noise_not_subtitle s : is_noise s = true -> is_book_subtitle (fixOcrErrors s) = false.
Proof.
  intros H. destruct (is_book_subtitle (fixOcrErrors s)) eqn:E; [|reflexivity].
  apply subtitle_head in E. rewrite fixOcrErrors_head_no_m in E; [discriminate|].
  now apply noise_head.
Qed.

Lemma noise_nonempty s : is_noise s = true -> is_empty s = false.
Proof. destruct s; [discriminate | reflexivity]. Qed.

Section Facts.
Context {cm : CaseMapping}.

Lemma find_subtitle_noise n : forall j line rest rest',
  Forall2 same_but_noise rest rest' ->
  find_subtitle n j line rest = find_subtitle n j line rest'.
Proof.
  induction n as [|n IH]; intros j line rest rest' H; [reflexivity|].
  destruct H as [|x y rest rest' Hxy H]; [reflexivity|].
  cbn [find_subtitle]. destruct Hxy as [<- | [Hx Hy]].
  - destruct (negb _ && _); [reflexivity | now apply IH].
  - rewrite (noise_not_subtitle _ Hx), andb_false_r, Hy. cbn [is_empty negb andb].
    now apply IH.
Qed.

Lemma step_noise st x y rest rest' :
  same_but_noise x y -> Forall2 same_but_noise rest rest' ->
  step st x rest = step st y rest'.
Proof.
  intros [<- | [Hx Hy]] H.
  - unfold step. now rewrite (find_subtitle_noise 3 1 _ rest rest' H).
  - unfold step. rewrite Hy, (noise_nonempty _ Hx), Hx. reflexivity.
Qed.

Lemma run_lines_noise ls ls' :
  Forall2 same_but_noise ls ls' ->
  forall skip st, run_lines step skip st ls = run_lines step skip st ls'.
Proof.
  induction 1 as [|x y ls ls' Hxy H IH]; intros skip st; [reflexivity|].
  cbn [run_lines]. destruct skip as [|k]; [|apply IH].
  rewrite (step_noise st x y ls ls' Hxy H).
  destruct (step st y ls') as [st' skip']. apply IH.
Qed.

Lemma find_book_one_noise ls ls' :
  Forall2 same_but_noise ls ls' ->
  forall i, find_book_one i ls = find_book_one i ls'.
Proof.
  induction 1 as [|x y ls ls' Hxy H IH]; intros i; [reflexivity|].
  cbn [find_book_one]. destruct Hxy as [<- | [Hx Hy]].
  - now rewrite IH.
  - rewrite Hy. cbn [str_eqb].
    destruct (str_eqb (trim x) (js "BOOK ONE")) eqn:E; [|apply IH].
    apply str_eqb_eq in E. rewrite E in Hx. discriminate.
Qed.

Lemma trimmed_noise ls ls' :
  Forall2 same_but_noise ls ls' -> Forall2 same_but_noise (map trim ls) (map trim ls').
Proof.
  induction 1 as [|x y ls ls' Hxy H IH]; cbn [map]; constructor; [|exact IH].
  destruct Hxy as [<- | [Hx Hy]]; [now left | right].
  now rewrite !trim_idempotent.
Qed.

(** X10: a line the loop of Source-A drops as page furniture (digits, the
    letters i v x l c, a line that starts with CONTENTS, a running header
    of digits and MYTHS OF) is to the whole parser what a blank line is. *)
Theorem noise_lines_are_blank (document document' : jsstring) :
  Forall2 same_but_noise (split_on 10 document) (split_on 10 document') ->
  parseSchwartzFile document = parseSchwartzFile document'.
Proof.
  intros H. apply trimmed_noise in H. unfold parseSchwartzFile.
  set (a := map trim (split_on 10 document)) in *.
  set (b := map trim (split_on 10 document')) in *.
  assert (E : contentStart a = contentStart b).
  { unfold contentStart. apply find_book_one_noise. now apply Forall2_skipn. }
  rewrite E. destruct (contentStart b =? 0)%nat; [reflexivity|].
  unfold drafts. rewrite E.
  now rewrite (run_lines_noise _ _ (Forall2_skipn _ (contentStart b) _ _ H)).
Qed.

End Facts.

Lemma noise_blanked_ok x y :
  noise_blanked x y = true -> same_but_noise x y.
Proof.
  unfold noise_blanked, same_but_noise.
  intros [H|[H1 H2]%andb_true_iff]%orb_true_iff.
  - left. now apply str_eqb_eq.
  - right. split; [exact H1 | now apply is_empty_true].
Qed.

(** The furniture of [furnished_document] blanked out. *)
Lemma noise_lines_are_blank_witness :
  @parseSchwartzFile ascii_case furnished_document
    = @parseSchwartzFile ascii_case unpaged_document.
Proof.
  apply (@noise_lines_are_blank ascii_case).
  apply (lines_agree_Forall2 noise_blanked).
  - exact noise_blanked_ok.
  - vm_compute. reflexivity.
Defined.

(** The record of [furnished_document]. *)
Example furnished_document_record :
  fst (@parseSchwartzFile ascii_case furnished_document) = [ContentStartsAt (N.to_nat 6001)] /\
  map (fun m => (title m, book m, content m))
      (snd (@parseSchwartzFile ascii_case furnished_document))
  = [(js "The Void", js "BOOK ONE: Myths Of God",
      js "Before the world was made there was nothing but the void, and the void had no end. Then a point of light broke through the void.")].
Proof. split; vm_compute; reflexivity. Qed.

End SchwartzNoiseFacts.

(** ** More on the Source-B segmenter *)

Lemma starts_with_split p s : starts_with p s = true -> s = p ++ skipn (length p) s.
Proof.
  revert s. induction p as [|x p IH]; intros s H; [reflexivity|].
  destruct s as [|y s]; [discriminate|]. cbn [starts_with] in H.
  apply andb_true_iff in H as [E H]. apply N.eqb_eq in E. subst y.
  cbn [length skipn app]. f_equal. now apply IH.
Qed.

Lemma drop_while_all (f : N -> bool) s : drop_while f s = [] -> forallb f s = true.
Proof.
  induction s as [|c s IH]; [reflexivity|]. cbn [drop_while forallb].
  destruct (f c); [exact IH | discriminate].
Qed.

Lemma drop_while_app_all (f : N -> bool) a b :
  forallb f a = true -> drop_while f (a ++ b) = drop_while f b.
Proof.
  induction a as [|c a IH]; [reflexivity|]. cbn [forallb app drop_while].
  intros [-> H]%andb_true_iff. now apply IH.
Qed.

Lemma forallb_rev (f : N -> bool) s : forallb f s = true -> forallb f (rev s) = true.
Proof.
  rewrite !forallb_forall. intros H c Hc. apply H. now apply in_rev.
Qed.

Lemma trim_trailing_space x ws :
  x <> [] -> head_solid x = true -> forallb is_space ws = true ->
  trim (x ++ ws) = trim x.
Proof.
  intros Hx Hh Hw. unfold trim, trim_start.
  rewrite (drop_while_solid x Hh).
  assert (E : drop_while is_space (x ++ ws) = x ++ ws).
  { apply drop_while_solid. destruct x; [contradiction | exact Hh]. }
  rewrite E. unfold trim_end. rewrite rev_app_distr.
  now rewrite drop_while_app_all by (now apply forallb_rev).
Qed.

Lemma strip_full_stop (s : jsstring) :
  match s with 46 :: r => r | _ => s end =
  if starts_with [46] s then skipn 1 s else s.
Proof.
  destruct s as [|c s]; [reflexivity|].
  destruct c as [|p]; [reflexivity|].
  do 7 (destruct p as [p|p|]; try reflexivity).
Qed.

Lemma replace_first_absent s :
  ~ In 46 s -> replace_first (js ".") [] s = s.
Proof.
  induction s as [|c s IH]; [reflexivity|]. intros H.
  cbn [replace_first]. change (js ".") with [46]. cbn [starts_with].
  destruct (N.eqb_spec 46 c) as [<-|Hc]; [exfalso; apply H; now left|].
  cbn [andb]. f_equal. apply IH. intros K. apply H. now right.
Qed.

Lemma spaces_have_no_full_stop ws : forallb is_space ws = true -> ~ In 46 ws.
Proof.
  rewrite forallb_forall. intros H K. specialize (H _ K). discriminate H.
Qed.

Module GinzbergRecordFacts.
Import Ginzberg GinzbergSpec GinzbergRecords.

(** The numeral of a chapter line is one of those the pattern can spell. *)
Lemma roman_numeral line :
  romanPattern line = true -> In (trim (replace_first (js ".") [] line)) ROMANS.
Proof.
  unfold romanPattern. intros [r [Hr H]]%existsb_exists.
  apply andb_true_iff in H as [Hs Ht].
  rewrite strip_full_stop in Ht.
  rewrite (starts_with_split _ _ Hs).
  set (t := skipn (length r) line) in *. clearbody t. clear Hs line.
  assert (Hw : exists ws, forallb is_space ws = true /\ (t = 46 :: ws \/ t = ws)).
  { destruct (starts_with [46] t) eqn:E.
    - apply starts_with_one in E as [ws ->]. cbn [skipn] in Ht.
      exists ws. split; [|now left]. apply drop_while_all.
      destruct (drop_while is_space ws); [reflexivity | discriminate].
    - exists t. split; [|now right]. apply drop_while_all.
      destruct (drop_while is_space t); [reflexivity | discriminate]. }
  destruct Hw as (ws & Hws & Hform).
  assert (Hdot : forall x, x <> [] -> head_solid x = true -> ~ In 46 x -> trim x = x ->
                 trim (replace_first (js ".") [] (x ++ t)) = x).
  { intros x Hx Hh Hd Hx'.
    assert (E : replace_first (js ".") [] (x ++ t) = x ++ ws).
    { clear Hx Hh Hx'. induction x as [|c x IH].
      - cbn [app]. destruct Hform as [-> | ->]; [reflexivity|].
        apply replace_first_absent. now apply spaces_have_no_full_stop.
      - cbn [app replace_first]. change (js ".") with [46]. cbn [starts_with].
        destruct (N.eqb_spec 46 c) as [<-|Hc]; [exfalso; apply Hd; now left|].
        cbn [andb]. f_equal. apply IH. intros K. apply Hd. now right. }
    rewrite E, trim_trailing_space; auto. }
  cbn in Hr.
  repeat (destruct Hr as [<-|Hr];
          [rewrite Hdot; [cbn; tauto | discriminate | reflexivity
                          | cbn; intuition discriminate | reflexivity]|]).
  contradiction.
Qed.

Section Facts.
Context {cm : CaseMapping}.
Variable volume : nat.

Lemma find_chapter_title_label n : forall j roman rest k label,
  find_chapter_title n j roman rest = Some (k, label) ->
  exists t, label = roman ++ js ". " ++ lowerTail t.
Proof.
  induction n as [|n IH]; intros j roman rest k label; [discriminate|].
  destruct rest as [|l' rest]; [discriminate|]. cbn [find_chapter_title].
  destruct (negb _ && _ && _ && _).
  - intros E. injection E as <- <-. eexists. reflexivity.
  - apply IH.
Qed.

Lemma flush_chapters st :
  chapters_ok volume st -> Forall (ginzberg_record volume) (flush st).
Proof.
  intros (_ & H1 & H2). unfold flush. destruct (currentMyth st) as [m|]; [|exact H1].
  destruct (contentBuffer st); [exact H1|].
  destruct (100 <? _)%nat; [|exact H1].
  apply Forall_app. split; [exact H1|]. constructor; [|constructor].
  destruct (H2 m eq_refl) as (A & B & C & D & E & F & G).
  refine (conj A (conj B (conj C (conj D (conj E (conj F G)))))).
Qed.

Lemma step_chapters st l rest :
  chapters_ok volume st -> chapters_ok volume (fst (step volume st l rest)).
Proof.
  intros H. pose proof (flush_chapters st H) as Hf. pose proof H as (H0 & H1 & H2).
  unfold step. destruct (is_empty (trim l)); [exact H|].
  destruct (digits_only (trim l)); [exact H|].
  destruct (romanPattern (trim l)) eqn:Er.
  { apply roman_numeral in Er.
    destruct (find_chapter_title _ _ _ _) as [[j label]|] eqn:E; cbn [fst].
    - destruct (find_chapter_title_label _ _ _ _ _ _ E) as [t ->].
      refine (conj _ (conj Hf _)); [|discriminate].
      right. eexists _, t. split; [exact Er | reflexivity].
    - refine (conj H0 (conj Hf _)). discriminate. }
  destruct (is_section_header st (trim l)) eqn:Es.
  { refine (conj H0 (conj Hf _)). cbn [fst currentMyth]. intros m Hm. injection Hm as <-.
    assert (Hc : chapter_label (currentChapter st)).
    { destruct H0 as [K|K]; [|exact K]. unfold is_section_header in Es.
      rewrite K in Es. cbn [is_empty negb] in Es.
      rewrite andb_false_r in Es. cbn [andb] in Es. discriminate. }
    refine (conj eq_refl (conj eq_refl (conj eq_refl (conj eq_refl
              (conj eq_refl (conj eq_refl Hc)))))). }
  destruct (currentMyth st) as [m|] eqn:Em; [|exact H].
  destruct (is_empty _); [exact H|].
  refine (conj H0 (conj H1 _)). cbn [fst currentMyth].
  intros m' Hm'. injection Hm' as <-. now apply H2.
Qed.

Lemma drafts_chapters lines : Forall (ginzberg_record volume) (drafts volume lines).
Proof.
  unfold drafts. apply flush_chapters.
  apply (run_lines_invariant (step volume) (chapters_ok volume) (fun _ => True)).
  - intros st l rest H _. now apply step_chapters.
  - apply Forall_forall. auto.
  - refine (conj (or_introl eq_refl) (conj (Forall_nil _) _)). discriminate.
Qed.

(** X15: every record of Source-B has no number, no section, no commentary
    and no sources; it has the tag of its volume, the identifier made from
    the volume and its title, and as book label a chapter label, that is a
    numeral of the chapter pattern, a full stop, a space and a title. *)
Theorem ginzberg_records_shape (document : jsstring) :
  Forall (ginzberg_record volume) (snd (parseGinzbergFile document volume)).
Proof.
  unfold parseGinzbergFile. cbn [snd].
  pose proof (drafts_chapters (map trim (split_on 10 document))) as H.
  rewrite Forall_forall in *. intros m Hm. apply in_map_iff in Hm as [d [<- Hd]].
  destruct (H d Hd) as (A & B & C & D & E & F & G).
  refine (conj A (conj B (conj C (conj D (conj E (conj F G)))))).
Qed.

End Facts.
End GinzbergRecordFacts.

(** ** More on the corpus *)

Lemma fold_bump_count l : forall o k,
  lookup k (fold_left (fun t theme => bump theme t) l o)
  = (lookup k o + count_occ (list_eq_dec N.eq_dec) l k)%nat.
Proof.
  induction l as [|x l IH]; intros o k; cbn [fold_left count_occ]; [lia|].
  rewrite IH. destruct (list_eq_dec N.eq_dec x k) as [->|Hx].
  - rewrite lookup_bump_same. lia.
  - rewrite lookup_bump_other by congruence. lia.
Qed.

Lemma count_occ_NoDup l k :
  NoDup l ->
  count_occ (list_eq_dec N.eq_dec) l k = if existsb (str_eqb k) l then 1%nat else 0%nat.
Proof.
  intros H. destruct (existsb (str_eqb k) l) eqn:E.
  - apply existsb_str_eqb in E. apply NoDup_count_occ' with (decA := list_eq_dec N.eq_dec); auto.
  - apply count_occ_not_In. intros K. apply existsb_str_eqb in K. congruence.
Qed.

Lemma tally_theme_counts ms : forall st k,
  Forall (fun m => NoDup (themes m)) ms ->
  lookup k (fst (fold_left count_myth ms st)) = (lookup k (fst st) + count_theme k ms)%nat.
Proof.
  unfold count_theme. induction ms as [|m ms IH]; intros st k H; cbn [fold_left filter length]; [lia|].
  inversion H as [|? ? H1 H2]; subst.
  rewrite IH by exact H2. unfold count_myth. cbn [fst].
  rewrite fold_bump_count, (count_occ_NoDup _ _ H1).
  destruct (existsb (str_eqb k) (themes m)); cbn [length]; lia.
Qed.

Lemma tally_book_counts ms : forall st k,
  Forall (fun m => book m <> []) ms ->
  lookup k (snd (fold_left count_myth ms st)) = (lookup k (snd st) + count_book k ms)%nat.
Proof.
  unfold count_book. induction ms as [|m ms IH]; intros st k H; cbn [fold_left filter length]; [lia|].
  inversion H as [|? ? H1 H2]; subst.
  rewrite IH by exact H2. unfold count_myth. cbn [snd].
  destruct (is_empty (book m)) eqn:E; [apply is_empty_true in E; contradiction|].
  destruct (str_eqb (book m) k) eqn:K.
  - apply str_eqb_eq in K. subst k. rewrite lookup_bump_same. cbn [length]. lia.
  - apply str_eqb_neq in K. rewrite lookup_bump_other by congruence. lia.
Qed.

Section Corpus.
Context {cm : CaseMapping}.

Lemma schwartz_output document :
  Forall (fun m => sourceWork m = js "schwartz" /\ book m <> [] /\ NoDup (themes m) /\
                   id m = generateId (title m) (js "schwartz"))
         (snd (Schwartz.parseSchwartzFile document)).
Proof.
  unfold Schwartz.parseSchwartzFile.
  destruct (Schwartz.contentStart _ =? 0)%nat eqn:E; [constructor|].
  apply Nat.eqb_neq in E. cbn [snd]. pose proof (SchwartzRecordFacts.drafts_records _ E) as H.
  rewrite Forall_forall in *. intros m Hm. apply in_map_iff in Hm as [d [<- Hd]].
  destruct (H d Hd) as (A & B & C & D & _).
  cbn [Schwartz.finalize sourceWork book themes id title].
  split; [exact B|]. split; [|split; [apply extractThemes_spec | exact C]].
  intros K. rewrite K in D. discriminate D.
Qed.

Lemma ginzberg_output document volume :
  Forall (fun m => sourceWork m = js "ginzberg-v" ++ Ginzberg.number_to_string volume /\
                   book m <> [] /\ NoDup (themes m) /\
                   id m = generateId (js "v" ++ Ginzberg.number_to_string volume ++ js "-" ++ title m)
                            (js "ginzberg"))
         (snd (Ginzberg.parseGinzbergFile document volume)).
Proof.
  unfold Ginzberg.parseGinzbergFile. cbn [snd].
  pose proof (GinzbergRecordFacts.drafts_chapters volume (map trim (split_on 10 document))) as H.
  rewrite Forall_forall in *. intros m Hm. apply in_map_iff in Hm as [d [<- Hd]].
  destruct (H d Hd) as (_ & _ & _ & _ & E & F & (r & t & Hr & G)).
  cbn [Ginzberg.finalize sourceWork book themes id title].
  split; [exact E|]. split; [|split; [apply extractThemes_spec | exact F]].
  rewrite G. intros K. apply app_eq_nil in K as [_ K]. discriminate K.
Qed.

Lemma count_source_all tag ms :
  Forall (fun m => sourceWork m = tag) ms -> count_source tag ms = length ms.
Proof.
  unfold count_source. induction 1 as [|m ms H _ IH]; [reflexivity|].
  cbn [filter]. rewrite H, str_eqb_refl. cbn [length]. now rewrite IH.
Qed.

Lemma count_source_none tag tag' ms :
  tag <> tag' -> Forall (fun m => sourceWork m = tag') ms -> count_source tag ms = 0%nat.
Proof.
  intros Ht. unfold count_source. induction 1 as [|m ms H _ IH]; [reflexivity|].
  cbn [filter]. rewrite H. destruct (str_eqb tag' tag) eqn:E; [|exact IH].
  apply str_eqb_eq in E. congruence.
Qed.

Lemma count_source_app tag a b :
  count_source tag (a ++ b) = (count_source tag a + count_source tag b)%nat.
Proof. unfold count_source. now rewrite filter_app, length_app. Qed.

(** X16: the database lists the records of Source-A, then of the first and
    of the second volume of Source-B; the count kept for a source is the
    number of records with its tag, the three add up to the total, and the
    tag of every record is one of the three source filters. *)
Theorem source_counts (now a b c : jsstring) :
  let db := snd (main now a b c) in
  let counted := stats (metadata db) in
  myths db = snd (Schwartz.parseSchwartzFile a)
               ++ snd (Ginzberg.parseGinzbergFile b 1)
               ++ snd (Ginzberg.parseGinzbergFile c 2) /\
  Stats.total counted = length (myths db) /\
  Forall (fun tag => lookup tag (Stats.bySources counted) = count_source tag (myths db))
         (FilterOptions.sources (filterOptions (metadata db))) /\
  Forall (fun m => In (sourceWork m) (FilterOptions.sources (filterOptions (metadata db))))
         (myths db).
Proof.
  cbn zeta. rewrite main_database. unfold assemble.
  cbn [metadata stats filterOptions myths Stats.total Stats.bySources FilterOptions.sources].
  set (s := snd (Schwartz.parseSchwartzFile a)).
  set (g1 := snd (Ginzberg.parseGinzbergFile b 1)).
  set (g2 := snd (Ginzberg.parseGinzbergFile c 2)).
  assert (Hs : Forall (fun m => sourceWork m = js "schwartz") s).
  { eapply Forall_impl; [|apply schwartz_output]. cbn beta. tauto. }
  assert (H1 : Forall (fun m => sourceWork m = js "ginzberg-v1") g1).
  { eapply Forall_impl; [|apply ginzberg_output]. cbn beta. tauto. }
  assert (H2 : Forall (fun m => sourceWork m = js "ginzberg-v2") g2).
  { eapply Forall_impl; [|apply ginzberg_output]. cbn beta. tauto. }
  split; [reflexivity|]. split; [reflexivity|]. clearbody s g1 g2. split.
  - assert (D1 : js "schwartz" <> js "ginzberg-v1") by (intros K; vm_compute in K; discriminate K).
    assert (D2 : js "schwartz" <> js "ginzberg-v2") by (intros K; vm_compute in K; discriminate K).
    assert (D3 : js "ginzberg-v1" <> js "ginzberg-v2") by (intros K; vm_compute in K; discriminate K).
    repeat constructor; rewrite !count_source_app.
    + rewrite (count_source_all _ _ Hs), (count_source_none _ _ _ D1 H1),
        (count_source_none _ _ _ D2 H2). cbn. lia.
    + rewrite (count_source_none _ _ _ (not_eq_sym D1) Hs), (count_source_all _ _ H1),
        (count_source_none _ _ _ D3 H2). cbn. lia.
    + rewrite (count_source_none _ _ _ (not_eq_sym D2) Hs),
        (count_source_none _ _ _ (not_eq_sym D3) H1), (count_source_all _ _ H2). cbn. lia.
  - repeat (apply Forall_app; split).
    + eapply Forall_impl; [|exact Hs]. intros m ->. now left.
    + eapply Forall_impl; [|exact H1]. intros m ->. right. now left.
    + eapply Forall_impl; [|exact H2]. intros m ->. right. right. now left.
Qed.

(** X17: the count kept for a theme is the number of records that carry it,
    and the count kept for a book label is the number of records that have
    it. *)
Theorem histogram_counts (now a b c : jsstring) :
  let db := snd (main now a b c) in
  let counted := stats (metadata db) in
  (forall t, lookup t (Stats.themes counted) = count_theme t (myths db)) /\
  (forall k, lookup k (Stats.books counted) = count_book k (myths db)).
Proof.
  cbn zeta. rewrite main_database. unfold assemble.
  cbn [metadata stats myths Stats.themes Stats.books].
  set (all := snd (Schwartz.parseSchwartzFile a) ++ snd (Ginzberg.parseGinzbergFile b 1)
                ++ snd (Ginzberg.parseGinzbergFile c 2)).
  assert (H : Forall (fun m => book m <> [] /\ NoDup (themes m)) all).
  { unfold all. repeat (apply Forall_app; split).
    - eapply Forall_impl; [|apply schwartz_output]. cbn beta. tauto.
    - eapply Forall_impl; [|apply ginzberg_output]. cbn beta. tauto.
    - eapply Forall_impl; [|apply ginzberg_output]. cbn beta. tauto. }
  clearbody all. split.
  - intros t. unfold tally. rewrite tally_theme_counts; [reflexivity|].
    eapply Forall_impl; [|exact H]. cbn beta. tauto.
  - intros k. unfold tally. rewrite tally_book_counts; [reflexivity|].
    eapply Forall_impl; [|exact H]. cbn beta. tauto.
Qed.

(** X4: the identifier of every record has at most 80 code units and
    starts with the name of the work and a hyphen. *)
Theorem record_ids (document : jsstring) (volume : nat) :
  Forall (fun m => (length (id m) <= 80)%nat /\ starts_with (js "schwartz-") (id m) = true)
         (snd (Schwartz.parseSchwartzFile document)) /\
  Forall (fun m => (length (id m) <= 80)%nat /\ starts_with (js "ginzberg-") (id m) = true)
         (snd (Ginzberg.parseGinzbergFile document volume)).
Proof.
  split.
  - eapply Forall_impl; [|apply schwartz_output]. cbn beta. intros m (_ & _ & _ & ->).
    split; [apply generateId_length|].
    apply (generateId_prefix (title m) (js "schwartz")). cbn. lia.
  - eapply Forall_impl; [|apply ginzberg_output]. cbn beta. intros m (_ & _ & _ & ->).
    split; [apply generateId_length|].
    apply (generateId_prefix _ (js "ginzberg")). cbn. lia.
Qed.

End Corpus.

(** *** Ties in the theme filter *)

Lemma insert_by_count_filter t x l c :
  filter (fun y => (lookup y t =? c)%nat) (insert_by (by_count_desc t) x l) =
  if (lookup x t =? c)%nat then x :: filter (fun y => (lookup y t =? c)%nat) l
  else filter (fun y => (lookup y t =? c)%nat) l.
Proof.
  induction l as [|y l IH]; cbn [insert_by filter]; [reflexivity|].
  destruct (by_count_desc t x y) eqn:E; [reflexivity|].
  cbn [filter]. rewrite IH. unfold by_count_desc in E. apply Nat.leb_gt in E.
  destruct (Nat.eqb_spec (lookup y t) c) as [Hy|Hy]; [|reflexivity].
  destruct (Nat.eqb_spec (lookup x t) c) as [Hx|Hx]; [lia | reflexivity].
Qed.

Lemma sort_by_count_filter t l c :
  filter (fun y => (lookup y t =? c)%nat) (sort_by (by_count_desc t) l) =
  filter (fun y => (lookup y t =? c)%nat) l.
Proof.
  induction l as [|x l IH]; [reflexivity|].
  cbn [sort_by fold_right]. fold (sort_by (by_count_desc t) l).
  rewrite insert_by_count_filter, IH. reflexivity.
Qed.

(** X18: themes with the same count come in the theme filter in the order
    in which they were first counted. *)
Theorem theme_filter_ties {cm : CaseMapping} (now a b c : jsstring) (n : nat) :
  let db := snd (main now a b c) in
  let counted := Stats.themes (stats (metadata db)) in
  filter (fun t => (lookup t counted =? n)%nat)
         (FilterOptions.themes (filterOptions (metadata db)))
  = filter (fun t => (lookup t counted =? n)%nat) (keys counted).
Proof.
  cbn zeta. rewrite main_database. unfold assemble.
  cbn [metadata stats filterOptions Stats.themes FilterOptions.themes].
  apply sort_by_count_filter.
Qed.

(** ** Commentary comes after content *)

Lemma join_length sep l : (list_sum (map (@length N) l) <= length (join sep l))%nat.
Proof.
  induction l as [|x l IH]; [cbn; lia|].
  destruct l as [|y l]; [cbn; lia|].
  change (join sep (x :: y :: l)) with (x ++ sep ++ join sep (y :: l)).
  rewrite !length_app. unfold list_sum in *. cbn [map fold_right] in *. lia.
Qed.

Module SchwartzCommentaryFacts.
Import Schwartz SchwartzSpec SchwartzFacts.

Lemma content_total_push buf md line :
  content_total (buf ++ [(md, line)]) =
  (content_total buf + if mode_eqb md Content then length line else 0)%nat.
Proof.
  unfold content_total. rewrite filter_app, map_app, list_sum_app.
  cbn [filter fst]. destruct (mode_eqb md Content); cbn; lia.
Qed.

Lemma content_total_all buf :
  Forall (fun e => fst e = Content) buf ->
  content_total buf = list_sum (map (fun e => length (snd e)) buf).
Proof.
  unfold content_total. induction 1 as [|e buf H _ IH]; [reflexivity|].
  cbn [filter]. rewrite H. cbn [mode_eqb map]. unfold list_sum in *. cbn [fold_right]. now rewrite IH.
Qed.

Lemma content_total_buffered buf :
  (content_total buf <= length (buffered Content buf))%nat.
Proof.
  unfold content_total, buffered.
  eapply Nat.le_trans; [|apply join_length]. rewrite map_map. apply Nat.le_refl.
Qed.

Lemma buffered_commentary buf :
  buffered Commentary buf <> [] -> exists e, In e buf /\ fst e = Commentary.
Proof.
  unfold buffered. induction buf as [|[md t] buf IH]; [intros H; now contradiction H|].
  cbn [filter fst]. destruct md; cbn [mode_eqb]; try (intros H; destruct (IH H) as [e [He Hc]];
    exists e; split; [now right | exact Hc]).
  intros _. exists (Commentary, t). split; [now left | reflexivity].
Qed.

Lemma flush_late st : commentary_ok st -> Forall late_commentary (flush st).
Proof.
  intros (_ & H & Hm). unfold flush. destruct (currentMyth st) as [m|]; [|exact Hm].
  destruct (50 <? _)%nat; [|exact Hm].
  apply Forall_app. split; [exact Hm|]. constructor; [|constructor].
  unfold late_commentary. cbn [set_text commentary content]. intros K.
  apply buffered_commentary in K.
  eapply Nat.lt_le_trans; [apply H; now right | apply content_total_buffered].
Qed.

Lemma buffer_line_late st line :
  buffer_ok st -> commentary_after_content st -> commentary_after_content (buffer_line st line).
Proof.
  intros [_ Hb] H. unfold buffer_line.
  destruct (currentMyth st) as [m|]; [|exact H].
  destruct (mode st) eqn:Em; try exact H.
  - (* Content *)
    specialize (Hb eq_refl). cbn [mode_eqb andb].
    destruct (negb (is_empty_list (contentBuffer st)) && isCommentaryStart (contentBuffer st) line)
      eqn:E; unfold commentary_after_content; cbn [contentBuffer mode]; intros K.
    + apply andb_true_iff in E as [_ E]. apply isCommentaryStart_iff in E as [E _].
      rewrite content_total_push, content_total_all by exact Hb. cbn [mode_eqb]. lia.
    + exfalso. destruct K as [K | [e [[He|[<-|[]]]%in_app_or Hc]]]; try discriminate.
      rewrite Forall_forall in Hb. rewrite (Hb e He) in Hc. discriminate.
  - (* Commentary *)
    unfold commentary_after_content. cbn [contentBuffer mode mode_eqb andb]. intros _.
    rewrite content_total_push. cbn [mode_eqb]. specialize (H (or_introl Em)). lia.
  - (* Sources *)
    unfold commentary_after_content in *. cbn [contentBuffer mode]. rewrite Em in H.
    intros [K|K]; [discriminate | apply H; now right].
Qed.

Section Facts.
Context {cm : CaseMapping}.

Lemma step_late st l rest : commentary_ok st -> commentary_ok (fst (step st l rest)).
Proof.
  intros H. pose proof H as (Hb & Hc & Hm).
  split; [now apply step_buffer_ok|]. split.
  - destruct (step_cases st l rest) as [-> | [[Eb Em] | [[md [Hmd ->]] | ->]]].
    + exact Hc.
    + unfold commentary_after_content. rewrite Eb.
      intros [K | [e [[] _]]]. destruct Em; congruence.
    + unfold commentary_after_content in *. cbn [with_mode contentBuffer mode].
      intros [K|K]; [destruct Hmd; congruence | apply Hc; now right].
    + now apply buffer_line_late.
  - destruct (step_myths st l rest) as [-> | ->]; [exact Hm | now apply flush_late].
Qed.

Lemma drafts_late lines : Forall late_commentary (drafts lines).
Proof.
  unfold drafts. apply flush_late.
  apply (run_lines_invariant step commentary_ok (fun _ => True)).
  - intros st l rest H _. now apply step_late.
  - apply Forall_forall. auto.
  - split; [split; [exists [], []; reflexivity | constructor]|].
    split; [|constructor].
    intros [K | [e [[] _]]]. discriminate K.
Qed.

(** X13: a record of Source-A has commentary only if its content, before
    cleaning, has more than 300 code units. *)
Theorem commentary_needs_content (document : jsstring) :
  Forall (fun m => commentary m <> [] ->
            exists d, In d (drafts (map trim (split_on 10 document))) /\
                      m = finalize d /\ (300 < length (content d))%nat)
         (snd (parseSchwartzFile document)).
Proof.
  destruct (parse_records document) as [-> | ->]; [constructor|].
  apply Forall_forall. intros m [d [<- Hd]]%in_map_iff K.
  exists d. split; [exact Hd|]. split; [reflexivity|].
  pose proof (drafts_late (map trim (split_on 10 document))) as H.
  rewrite Forall_forall in H. apply (H d Hd).
  intros E. apply K. cbn [finalize commentary]. rewrite E. reflexivity.
Qed.

End Facts.
End SchwartzCommentaryFacts.
